(** * TexTile-Backend: the prerendering disk cache, its read path and its
      batch generator

    A shallow embedding of [app/prerendering.py] and of the prerendering
    command of [app/cli.py], and the properties of the cache that the
    design document states about them.

    Conventions of the embedding.
    - A Python [str] is a Rocq [string] holding its UTF-8 encoding, so
      [s.encode("utf-8")] is the identity on the model.
    - [Optional[str]] is [option string]; Python truthiness ([if end:],
      [ref or start]) is written out by [truthy] and [py_or].
    - A [pathlib.Path] is the string [str(path)]; [p / s] appends a slash
      and [s].
    - The disk, the call log of the external engines and the exceptions
      are threaded through a state-and-exception monad [M]. *)

From Stdlib Require Import ZArith List String Ascii Bool Arith Lia Permutation.
Import ListNotations.
Open Scope string_scope.

(* ------------------------------------------------------------------ *)
(** ** [hashlib.sha1]                                                  *)
(* ------------------------------------------------------------------ *)

Module Sha1.

Local Open Scope Z_scope.

Definition w32 (x : Z) : Z := Z.land x 4294967295.

Definition add32 (a b : Z) : Z := w32 (a + b).

Definition rotl (n x : Z) : Z :=
  w32 (Z.lor (Z.shiftl x n) (Z.shiftr x (32 - n))).

Definition bytes_of_string (s : string) : list Z :=
  map (fun c => Z.of_N (N_of_ascii c)) (list_ascii_of_string s).

(** Big-endian bytes of [n], [k] of them. *)
Fixpoint be_bytes (k : nat) (n : Z) : list Z :=
  match k with
  | O => []
  | S k' => Z.land (Z.shiftr n (8 * Z.of_nat k')) 255 :: be_bytes k' n
  end.

Definition pad (msg : list Z) : list Z :=
  let len := Z.of_nat (List.length msg) in
  msg ++ [128] ++ repeat 0 (Z.to_nat ((55 - len) mod 64))
      ++ be_bytes 8 (8 * len).

(** Cut a list in pieces of [n] elements. *)
Fixpoint chunks {A} (fuel n : nat) (l : list A) : list (list A) :=
  match fuel, l with
  | O, _ | _, [] => []
  | S fuel', _ => firstn n l :: chunks fuel' n (skipn n l)
  end.

Definition word_of_bytes (bs : list Z) : Z :=
  fold_left (fun acc b => Z.lor (Z.shiftl acc 8) b) bs 0.

(** The message schedule, most recent word first. *)
Fixpoint expand (k : nat) (rev_w : list Z) : list Z :=
  match k with
  | O => rev_w
  | S k' =>
      let x := Z.lxor (Z.lxor (nth 2 rev_w 0) (nth 7 rev_w 0))
                      (Z.lxor (nth 13 rev_w 0) (nth 15 rev_w 0)) in
      expand k' (rotl 1 x :: rev_w)
  end.

Definition schedule (block : list Z) : list Z :=
  rev (expand 64 (rev (map word_of_bytes (chunks 16 4 block)))).

Record regs := Regs { ra : Z; rb : Z; rc : Z; rd : Z; re : Z }.

Definition lnot32 (x : Z) : Z := Z.lxor x 4294967295.

Definition round (t : nat) (r : regs) (w : Z) : regs :=
  let '(Regs a b c d e) := r in
  let '(f, k) :=
    if (t <? 20)%nat then
      (Z.lor (Z.land b c) (Z.land (lnot32 b) d), 1518500249)
    else if (t <? 40)%nat then
      (Z.lxor (Z.lxor b c) d, 1859775393)
    else if (t <? 60)%nat then
      (Z.lor (Z.lor (Z.land b c) (Z.land b d)) (Z.land c d), 2400959708)
    else
      (Z.lxor (Z.lxor b c) d, 3395469782) in
  let temp := add32 (add32 (add32 (add32 (rotl 5 a) f) e) k) w in
  Regs temp a (rotl 30 b) c d.

Fixpoint rounds (t : nat) (ws : list Z) (r : regs) : regs :=
  match ws with
  | [] => r
  | w :: ws' => rounds (S t) ws' (round t r w)
  end.

Definition compress (h : regs) (block : list Z) : regs :=
  let r := rounds 0 (schedule block) h in
  Regs (add32 (ra h) (ra r)) (add32 (rb h) (rb r)) (add32 (rc h) (rc r))
       (add32 (rd h) (rd r)) (add32 (re h) (re r)).

Definition init : regs :=
  Regs 1732584193 4023233417 2562383102 271733878 3285377520.

Definition digest (s : string) : regs :=
  let p := pad (bytes_of_string s) in
  fold_left compress (chunks (List.length p) 64 p) init.

Definition hex_digits : list ascii :=
  list_ascii_of_string "0123456789abcdef".

Definition hexchar (n : Z) : ascii :=
  nth (Z.to_nat (Z.land n 15)) hex_digits "0"%char.

(** The [k] low hexadecimal digits of [w], most significant first. *)
Fixpoint hex (k : nat) (w : Z) : list ascii :=
  match k with
  | O => []
  | S k' => hexchar (Z.shiftr w (4 * Z.of_nat k')) :: hex k' w
  end.

(** [hashlib.sha1(s.encode("utf-8")).hexdigest()] *)
Definition hexdigest (s : string) : string :=
  let r := digest s in
  string_of_list_ascii
    (hex 8 (ra r) ++ hex 8 (rb r) ++ hex 8 (rc r) ++ hex 8 (rd r)
           ++ hex 8 (re r)).

End Sha1.

(* ------------------------------------------------------------------ *)
(** ** Python values                                                   *)
(* ------------------------------------------------------------------ *)

(** Truthiness of an [Optional[str]]: [None] and the empty string are
    false. *)
Definition truthy (o : option string) : bool :=
  match o with
  | Some s => negb (s =? "")
  | None => false
  end.

(** [a or b] *)
Definition py_or (a b : option string) : option string :=
  if truthy a then a else b.

(** What [json.load] can return.  [JNull] is Python's [None]. *)
#[local] Set Warnings "-register-all".
Inductive json : Type :=
| JNull
| JBool (b : bool)
| JNum (n : Z)
| JStr (s : string)
| JArr (items : list json)
| JObj (members : list (string * json)).

(** Truthiness of a loaded value, as [if content:] tests it. *)
Definition json_truthy (v : json) : bool :=
  match v with
  | JNull => false
  | JBool b => b
  | JNum n => negb (n =? 0)%Z
  | JStr s => negb (s =? "")
  | JArr items => match items with [] => false | _ => true end
  | JObj members => match members with [] => false | _ => true end
  end.

(** Whether [len(v)] is defined. *)
Definition has_len (v : json) : bool :=
  match v with
  | JStr _ | JArr _ | JObj _ => true
  | _ => false
  end.

(** The member named [key] that the parser kept: the last one. *)
Fixpoint members_find (members : list (string * json)) (key : string)
    : option json :=
  match members with
  | [] => None
  | (k, v) :: rest =>
      match members_find rest key with
      | Some found => Some found
      | None => if k =? key then Some v else None
      end
  end.

(** [d.get(key)] on a loaded object; [None] when there is no such
    member. *)
Definition members_get (members : list (string * json)) (key : string) : json :=
  match members_find members key with
  | Some v => v
  | None => JNull
  end.

(** Lookup in a dict kept as an association list. *)
Fixpoint assoc {A} (l : list (string * A)) (key : string) : option A :=
  match l with
  | [] => None
  | (k, v) :: rest => if k =? key then Some v else assoc rest key
  end.

(** [key in d], for a key that may be [None]. *)
Definition has_key {A} (l : list (string * A)) (key : option string) : bool :=
  match key with
  | Some k => match assoc l k with Some _ => true | None => false end
  | None => false
  end.

(** [s in l] for a collection of strings. *)
Definition mem (s : string) (l : list string) : bool :=
  existsb (String.eqb s) l.

(** [x in l], for an [x] that may be [None]. *)
Definition opt_mem (x : option string) (l : list string) : bool :=
  match x with
  | Some s => mem s l
  | None => false
  end.

(* ------------------------------------------------------------------ *)
(** ** Paths                                                           *)
(* ------------------------------------------------------------------ *)

Definition slash : ascii := "/"%char.

Fixpoint ends_with_slash (s : string) : bool :=
  match s with
  | EmptyString => false
  | String c EmptyString => Ascii.eqb c slash
  | String _ rest => ends_with_slash rest
  end.

Fixpoint has_slash (s : string) : bool :=
  match s with
  | EmptyString => false
  | String c rest => Ascii.eqb c slash || has_slash rest
  end.

(** One iteration of the loop of [posixpath.join]. *)
Definition join_step (path b : string) : string :=
  if String.prefix "/" b then b
  else if (path =? "") || ends_with_slash path then path ++ b
  else path ++ "/" ++ b.

(** [os.path.join(a, *p)] *)
Definition os_path_join (a : string) (p : list string) : string :=
  fold_left join_step p a.

(** [path / name], for a relative [name]. *)
Definition path_div (path name : string) : string :=
  path ++ "/" ++ name.

(** [path.parent]: everything before the last slash. *)
Fixpoint parent (path : string) : string :=
  match path with
  | EmptyString => EmptyString
  | String c rest => if has_slash rest then String c (parent rest) else EmptyString
  end.

(* ------------------------------------------------------------------ *)
(** ** [DiskPrerenderedCacheClass]: key derivation                      *)
(* ------------------------------------------------------------------ *)

Definition DEFAULT_MEDIA_TYPE : string := "application/xml".

Record DiskPrerenderedCacheClass : Type := {
  verbose : bool;
  ROOT : string;
  LEVELS : nat;
  CHARS_PER_LEVEL : nat
}.

(** [short_sha(s, length)]: [hexdigest()[:length]] *)
Definition short_sha (s : string) (length : nat) : string :=
  substring 0 length (Sha1.hexdigest s).

Definition safe_filename (s : string) : string := short_sha s 8.

(** [self.sha_subfolders(identifier)] *)
Definition sha_subfolders (self : DiskPrerenderedCacheClass)
    (identifier : string) : string :=
  let sha := Sha1.hexdigest identifier in
  let parts :=
    map (fun i => substring (i * CHARS_PER_LEVEL self) (CHARS_PER_LEVEL self) sha)
        (seq 0 (LEVELS self)) in
  match (parts ++ [sha])%list with
  | a :: p => os_path_join a p
  | [] => EmptyString
  end.

(** What [if end: filename_parts.append(self.safe_filename(end))] adds. *)
Definition end_parts (end_ : option string) : list string :=
  match end_ with
  | Some e => if truthy end_ then [safe_filename e] else []
  | None => []
  end.

(** The components of the file name, before they are joined. *)
Definition filename_parts (ref : string) (end_ : option string)
    (media tree : string) : list string :=
  ([safe_filename tree; safe_filename ref] ++ end_parts end_
     ++ [safe_filename media])%list.

(** [self.get_cache_path(identifier, ref, end, media, tree)] *)
Definition get_cache_path (self : DiskPrerenderedCacheClass)
    (identifier ref : string) (end_ : option string) (media tree : string)
    : string :=
  let base := path_div (ROOT self) (sha_subfolders self identifier) in
  let filename :=
    String.concat "__" (filename_parts ref end_ media tree) ++ ".prerender" in
  path_div base filename.

(** The process-wide instance, with [PRERENDER_DIR] and [VERBOSE_CACHE]
    unset. *)
Definition DiskPrerenderedCache : DiskPrerenderedCacheClass :=
  {| verbose := false; ROOT := "/tmp/prerender"; LEVELS := 3;
     CHARS_PER_LEVEL := 2 |}.

(* ------------------------------------------------------------------ *)
(** ** The disk, the call log and exceptions                           *)
(* ------------------------------------------------------------------ *)

(** What sits at a path of the cache directory.  A file that holds text
    is kept as what [json.load] makes of it: [NotJson text] is text the
    parser rejects (an empty or truncated file, for one), [Json v] is a
    document that loads as [v]. *)
Inductive file : Type :=
| Unreadable                (* [open(path, "r")] fails with an [OSError] *)
| BadUtf8                   (* bytes that do not decode as UTF-8 *)
| NotJson (text : string)
| Json (v : json).

(** The envelope [json.dump({"content": content}, f)] writes. *)
Definition envelope (content : string) : file :=
  Json (JObj [("content", JStr content)]).

(** Calls worth counting: accesses to the cache directory and calls of
    the two external engines. *)
Inductive event : Type :=
| CacheRead (path : string)
| Mkdir (dir : string)
| OpenW (path : string)
| Dump (path : string) (content : string)
| Extract (identifier ref : string) (end_ : option string) (tree : string)
| Transform (media identifier passage : string).

Record world : Type := {
  files : string -> option file;
  log : list event
}.

Inductive exn : Type :=
| KeyError | AttributeError | ValueError | OSError
| UnicodeDecodeError | JSONDecodeError | XMLSyntaxError.

Inductive outcome (A : Type) : Type :=
| Ok (a : A)
| Raise (e : exn).
Arguments Ok {A} a.
Arguments Raise {A} e.

Definition M (A : Type) : Type := world -> outcome A * world.

Definition ret {A} (a : A) : M A := fun w => (Ok a, w).

Definition bind {A B} (m : M A) (k : A -> M B) : M B :=
  fun w =>
    match m w with
    | (Ok a, w') => k a w'
    | (Raise e, w') => (Raise e, w')
    end.

Definition raise {A} (e : exn) : M A := fun w => (Raise e, w).

Declare Scope py_scope.
Delimit Scope py_scope with py.
Notation "x <- m ;; k" := (bind m (fun x => k))
  (at level 61, m at next level, right associativity) : py_scope.
Notation "m ;; k" := (bind m (fun _ => k))
  (at level 61, right associativity) : py_scope.
Open Scope py_scope.

(** [try: body except (caught...): handler] *)
Definition try_except {A} (body : M A) (caught : exn -> bool) (handler : M A)
    : M A :=
  fun w =>
    match body w with
    | (Raise e, w') => if caught e then handler w' else (Raise e, w')
    | done => done
    end.

Definition emit (e : event) : M unit :=
  fun w => (Ok tt, {| files := files w; log := log w ++ [e] |}).

Definition stat (path : string) : M (option file) :=
  fun w => (Ok (files w path), w).

(** The directory with [f] at [path]. *)
Definition update (fs : string -> option file) (path : string) (f : file)
    : string -> option file :=
  fun p => if p =? path then Some f else fs p.

Definition put_file (path : string) (f : file) : M unit :=
  fun w => (Ok tt, {| files := update (files w) path f; log := log w |}).

(** Which operations of the disk fail with an [OSError]. *)
Record Disk : Type := {
  mkdir_fails : string -> bool;
  open_fails : string -> bool;
  write_fails : string -> bool
}.

(** [dir.mkdir(parents=True, exist_ok=True)] *)
Definition mkdir_p (d : Disk) (dir : string) : M unit :=
  if mkdir_fails d dir then raise OSError else emit (Mkdir dir).

(** [open(path, "w")]: the file is created or cut to nothing. *)
Definition open_w (d : Disk) (path : string) : M unit :=
  if open_fails d path then raise OSError
  else put_file path (NotJson "") ;; emit (OpenW path).

(** [json.dump({"content": content}, f)] and the closing of [f]. *)
Definition dump (d : Disk) (path content : string) : M unit :=
  if write_fails d path then raise OSError
  else put_file path (envelope content) ;; emit (Dump path content).

(** [open(path, "r", encoding="utf-8")] and [json.load(f)] *)
Definition json_load (f : file) : M json :=
  match f with
  | Unreadable => raise OSError
  | BadUtf8 => raise UnicodeDecodeError
  | NotJson _ => raise JSONDecodeError
  | Json v => ret v
  end.

(** [data.get(key)]: only a dict has the method. *)
Definition dict_get (data : json) (key : string) : M json :=
  match data with
  | JObj members => ret (members_get members key)
  | _ => raise AttributeError
  end.

(** [len(v)], evaluated for the verbose message. *)
Definition len_ (v : json) : M unit :=
  if has_len v then ret tt else raise ValueError.

(* ------------------------------------------------------------------ *)
(** ** [DiskPrerenderedCacheClass]: the store                           *)
(* ------------------------------------------------------------------ *)

Record Collection : Type := {
  coll_id : Z;
  identifier : string;
  filepath : string;
  default_tree : option string
}.

Definition io_or_decode_error (e : exn) : bool :=
  match e with
  | JSONDecodeError | OSError => true
  | _ => false
  end.

Definition io_error (e : exn) : bool :=
  match e with
  | OSError => true
  | _ => false
  end.

(** [self.get_cache(collection, ref, end, media, tree)] *)
Definition get_cache (self : DiskPrerenderedCacheClass)
    (collection : Collection) (ref : string) (end_ : option string)
    (media tree : string) : M json :=
  let path := get_cache_path self (identifier collection) ref end_ media tree in
  emit (CacheRead path) ;;
  found <- stat path ;;
  match found with
  | None => ret JNull
  | Some f =>
      try_except
        (data <- json_load f ;;
         content <- dict_get data "content" ;;
         (if json_truthy content && verbose self then len_ content
          else ret tt) ;;
         ret content)
        io_or_decode_error
        (ret JNull)
  end.

(** [self.save_cache(identifier, ref, end, media, tree, content)] *)
Definition save_cache (d : Disk) (self : DiskPrerenderedCacheClass)
    (identifier ref : string) (end_ : option string) (media tree : string)
    (content : string) : M unit :=
  let path := get_cache_path self identifier ref end_ media tree in
  mkdir_p d (parent path) ;;
  try_except
    (open_w d path ;; dump d path content)
    io_error
    (ret tt).

(* ------------------------------------------------------------------ *)
(** ** The collaborators: database, extraction, transformation         *)
(* ------------------------------------------------------------------ *)

(** A reference descriptor of a navigation tree; the code reads only
    [ref["identifier"]]. *)
Record RefDescriptor : Type := { ref_identifier : string }.

(** [references]: tree name to its reference descriptors, in the order
    [items()] yields them.  [paths]: tree name to its valid reference
    strings. *)
Record Navigation : Type := {
  nav_id : Z;
  collection_id : Z;
  references : list (string * list RefDescriptor);
  paths : list (string * list string)
}.

Record Database : Type := {
  collections : list Collection;
  navigations : list Navigation
}.

(** The [Response] a transformer returns, as far as the code reads it:
    [response.get_data(as_text=True)], its status and its content
    type. *)
Record EngineResponse : Type := {
  get_data : string;
  status_code : Z;
  mimetype : string
}.

(** The transformation engine: [transform media collection xml] is the
    response of [transformer.transform] to the parsed passage [xml];
    [mapping] names the served mimetype of a media type. *)
Record Transformer : Type := {
  transform : string -> Collection -> string -> EngineResponse;
  mapping : list (string * string)
}.

(** What a run is parameterised by: the cache instance, the value of
    [os.getenv("USE_DISK_CACHE", "true").lower() == "true"], the
    database, the behaviour of the disk, the passage extractor
    ([Document(filepath).get_passage] rendered to a string by
    [ET.tostring]), the text of the corpus files, the module-level
    [media_transformer], what [ET.fromstring] does of a text (it parses
    it or raises), and the order in which a pool of workers hands back
    the results of [imap_unordered].  What [ET.tostring] renders,
    [ET.fromstring] parses; the pool hands back every work item once. *)
Record Env : Type := {
  cache : DiskPrerenderedCacheClass;
  use_disk_cache : bool;
  db : Database;
  disk : Disk;
  get_passage : Collection -> string -> option string -> string -> string;
  read_text : string -> string;
  media_transformer : Transformer;
  fromstring : string -> outcome unit;
  imap_unordered : list Z -> list Z;
  fromstring_get_passage :
    forall c ref end_ tree, fromstring (get_passage c ref end_ tree) = Ok tt;
  imap_unordered_permutation :
    forall items, Permutation (imap_unordered items) items
}.

Inductive Response : Type :=
| Msg4xx (message : string) (code : option Z)   (* [msg_4xx(message, code=...)] *)
| Resp (body : json) (status : Z) (mimetype : string).

Definition msg_4xx (message : string) (code : option Z) : Response :=
  Msg4xx message code.

(** [mapping.get(media, media)] *)
Definition mapping_get (tr : Transformer) (media : string) : string :=
  match assoc (mapping tr) media with
  | Some m => m
  | None => media
  end.

(** How an f-string prints a value that may be [None]. *)
Definition fmt (o : option string) : string :=
  match o with
  | Some s => s
  | None => "None"
  end.

(** [get_xml_passage_as_string(collection, ref, end, tree)] *)
Definition get_xml_passage_as_string (E : Env) (collection : Collection)
    (ref : string) (end_ : option string) (tree : string) : M string :=
  emit (Extract (identifier collection) ref end_ tree) ;;
  ret (get_passage E collection ref end_ tree).

(** [get_transformed(media, collection, passage, transformer)]:
    [ET.fromstring(passage)] accepts only a string, and raises on one
    it cannot parse; the transformer is called with what it parsed. *)
Definition get_transformed (E : Env) (media : string)
    (collection : Collection) (passage : json) (transformer : Transformer)
    : M EngineResponse :=
  match passage with
  | JStr xml =>
      match fromstring E xml with
      | Ok _ =>
          emit (Transform media (identifier collection) xml) ;;
          ret (transform transformer media collection xml)
      | Raise e => raise e
      end
  | _ => raise ValueError
  end.

(** [get_xml_passage_or_cache(collection, ref, end, tree)] *)
Definition get_xml_passage_or_cache (E : Env) (collection : Collection)
    (ref : string) (end_ : option string) (tree : string) : M json :=
  let generate : M json :=
    passage <- get_xml_passage_as_string E collection ref end_ tree ;;
    ret (JStr passage) in
  if use_disk_cache E then
    cached_content <-
      get_cache (cache E) collection ref end_ "application/xml" tree ;;
    if json_truthy cached_content then ret cached_content else generate
  else generate.

(* ------------------------------------------------------------------ *)
(** ** [custom_document_view]                                           *)
(* ------------------------------------------------------------------ *)

(** The [if ref or start or end:] block: the response it returns, if it
    returns one. *)
Definition forbidden_combination (nav : Navigation)
    (resource ref start end_ tree : option string) : option Response :=
  if truthy ref || truthy start || truthy end_ then
    if negb (has_key (references nav) tree) then
      Some (msg_4xx ("Unknown tree " ++ fmt tree ++ " for resource `"
                       ++ fmt resource ++ "`") None)
    else if truthy ref && (truthy start || truthy end_) then
      Some (msg_4xx "You cannot provide a ref parameter as well as start or end"
                    (Some 400%Z))
    else if negb (truthy ref)
            && ((truthy start && negb (truthy end_))
                || (truthy end_ && negb (truthy start))) then
      Some (msg_4xx "Range is missing one of its parameters (start or end)"
                    (Some 400%Z))
    else None
  else None.

(** [nav.paths[tree]]: the tree name and its valid references, or a
    [KeyError]. *)
Definition paths_index (nav : Navigation) (tree : option string)
    : M (string * list string) :=
  match tree with
  | Some t =>
      match assoc (paths nav) t with
      | Some valid => ret (t, valid)
      | None => raise KeyError
      end
  | None => raise KeyError
  end.

(** The view when the transformed artifact is not served from the
    cache: "Otherwise, get the base XML passage and transform it", save
    the result and return it. *)
Definition transform_and_save (E : Env) (collection : Collection)
    (ref : string) (end_ : option string) (tree media : string)
    (transformer : Transformer) : M Response :=
  passage <- get_xml_passage_or_cache E collection ref end_ tree ;;
  response <- get_transformed E media collection passage transformer ;;
  (if use_disk_cache E then
     save_cache (disk E) (cache E) (identifier collection) ref end_ media
                tree (get_data response)
   else ret tt) ;;
  ret (Resp (JStr (get_data response)) (status_code response)
            (mimetype response)).

(** The part of the view below [media = media or DEFAULT_MEDIA_TYPE],
    for the reference [ref or start]. *)
Definition serve_passage (E : Env) (collection : Collection)
    (ref : string) (end_ : option string) (tree media : string)
    (transformer : Transformer) : M Response :=
  if negb (media =? DEFAULT_MEDIA_TYPE) then
    if use_disk_cache E then
      cached_content <- get_cache (cache E) collection ref end_ media tree ;;
      if json_truthy cached_content then
        ret (Resp cached_content 200 (mapping_get transformer media))
      else transform_and_save E collection ref end_ tree media transformer
    else transform_and_save E collection ref end_ tree media transformer
  else
    passage <- get_xml_passage_or_cache E collection ref end_ tree ;;
    ret (Resp passage 200 "application/xml").

(** [custom_document_view(resource, ref, start, end, tree, media,
    transformer)] *)
Definition custom_document_view (E : Env)
    (resource ref start end_ tree media : option string)
    (transformer : Transformer) : M Response :=
  match resource with
  | Some res =>
    if negb (truthy resource) then
      ret (msg_4xx "Resource parameter was not provided" None)
    else
    match find (fun c => identifier c =? res) (collections (db E)) with
    | None => ret (msg_4xx ("Unknown resource `" ++ res ++ "`") None)
    | Some collection =>
      match find (fun n => (collection_id n =? coll_id collection)%Z)
                 (navigations (db E)) with
      | None =>
          ret (msg_4xx ("The resource `" ++ res
                          ++ "` does not support navigation") None)
      | Some nav =>
          let tree := py_or tree (default_tree collection) in
          match forbidden_combination nav resource ref start end_ tree with
          | Some response => ret response
          | None =>
              indexed <- paths_index nav tree ;;
              let '(tree, paths) := indexed in
              if truthy start && truthy end_
                 && (negb (opt_mem start paths) || negb (opt_mem end_ paths))
              then
                ret (msg_4xx ("Unknown reference " ++ fmt start ++ " or "
                                ++ fmt end_ ++ " in the requested tree.")
                             (Some 404%Z))
              else if truthy ref && negb (opt_mem ref paths) then
                ret (msg_4xx ("Unknown reference " ++ fmt ref
                                ++ " in the requested tree.") (Some 404%Z))
              else if negb (truthy ref) && negb (truthy start) then
                ret (Resp (JStr (read_text E (filepath collection))) 200
                          DEFAULT_MEDIA_TYPE)
              else
                let media :=
                  match py_or media (Some DEFAULT_MEDIA_TYPE) with
                  | Some m => m
                  | None => DEFAULT_MEDIA_TYPE
                  end in
                match py_or ref start with
                | Some r =>
                    serve_passage E collection r end_ tree media transformer
                | None => raise AttributeError
                end
          end
      end
    end
  | None => ret (msg_4xx "Resource parameter was not provided" None)
  end.

(* ------------------------------------------------------------------ *)
(** ** The batch generator ([cli.py])                                   *)
(* ------------------------------------------------------------------ *)

(** [x is None] *)
Definition is_none (v : json) : bool :=
  match v with
  | JNull => true
  | _ => false
  end.

(** An attribute of an object that may be [None]. *)
Definition attr {A} (o : option A) : M A :=
  match o with
  | Some a => ret a
  | None => raise AttributeError
  end.

(** The loop [for media_type in media_types:] of one reference; it
    carries the counter [rendered_content]. *)
Fixpoint prerender_media_types (E : Env) (collection : Collection)
    (tree ref_id : string) (base_content : json) (force_generate : bool)
    (media_types : list string) (rendered_content : nat) : M nat :=
  match media_types with
  | [] => ret rendered_content
  | media_type :: rest =>
      cached <- get_cache (cache E) collection ref_id None media_type tree ;;
      if is_none cached || force_generate then
        response <- get_transformed E media_type collection base_content
                                    (media_transformer E) ;;
        save_cache (disk E) (cache E) (identifier collection) ref_id None
                   media_type tree (get_data response) ;;
        prerender_media_types E collection tree ref_id base_content
                              force_generate rest (rendered_content + 1)
      else
        prerender_media_types E collection tree ref_id base_content
                              force_generate rest rendered_content
  end.

(** The body of [for ref in references:]; [collection] is [None] when
    the query found none, and its first use then fails. *)
Definition prerender_ref (E : Env) (collection : option Collection)
    (tree : string) (media_types : list string) (force_generate : bool)
    (ref : RefDescriptor) (rendered_content : nat) : M nat :=
  let ref_id := ref_identifier ref in
  c <- attr collection ;;
  base_content <- get_cache (cache E) c ref_id None DEFAULT_MEDIA_TYPE tree ;;
  if negb (json_truthy base_content) || force_generate then
    base_content <- get_xml_passage_as_string E c ref_id None tree ;;
    save_cache (disk E) (cache E) (identifier c) ref_id None
               DEFAULT_MEDIA_TYPE tree base_content ;;
    prerender_media_types E c tree ref_id (JStr base_content)
                          force_generate media_types (rendered_content + 1)
  else
    prerender_media_types E c tree ref_id base_content
                          force_generate media_types rendered_content.

Fixpoint prerender_refs (E : Env) (collection : option Collection)
    (tree : string) (media_types : list string) (force_generate : bool)
    (refs : list RefDescriptor) (rendered_content : nat) : M nat :=
  match refs with
  | [] => ret rendered_content
  | ref :: rest =>
      n <- prerender_ref E collection tree media_types force_generate ref
                         rendered_content ;;
      prerender_refs E collection tree media_types force_generate rest n
  end.

(** The loop [for tree, references in navigation.references.items():]. *)
Fixpoint prerender_trees (E : Env) (collection : option Collection)
    (media_types : list string) (force_generate : bool)
    (trees : list (string * list RefDescriptor)) (rendered_content : nat)
    : M nat :=
  match trees with
  | [] => ret rendered_content
  | (tree, refs) :: rest =>
      n <- prerender_refs E collection tree media_types force_generate refs
                          rendered_content ;;
      prerender_trees E collection media_types force_generate rest n
  end.

(** [_prerender_collection((navigation_id, media_types, force_generate))] *)
Definition _prerender_collection (E : Env) (params : Z * list string * bool)
    : M nat :=
  let '(navigation_id, media_types, force_generate) := params in
  navigation <-
    attr (find (fun n => (nav_id n =? navigation_id)%Z) (navigations (db E))) ;;
  let collection :=
    find (fun c => (coll_id c =? collection_id navigation)%Z)
         (collections (db E)) in
  prerender_trees E collection media_types force_generate
                  (references navigation) 0.

(** The loop over the results of the pool, in the order [items] in which
    the work items complete; it carries [mss] and [pages]. *)
Fixpoint collect (E : Env) (items : list (Z * list string * bool))
    (mss pages : nat) : M (nat * nat) :=
  match items with
  | [] => ret (mss, pages)
  | params :: rest =>
      generated <- _prerender_collection E params ;;
      collect E rest (mss + 1) (pages + generated)
  end.

(** [prerender(media_type, workers, force)]: a pool of no process is a
    [ValueError]; the results come in the order in which the pool hands
    them back. *)
Definition prerender (E : Env) (media_type : list string) (workers : Z)
    (force : bool) : M (nat * nat) :=
  let navigations := map nav_id (navigations (db E)) in
  let num_workers := Z.min workers (Z.of_nat (List.length navigations)) in
  if (num_workers <? 1)%Z then raise ValueError
  else collect E (map (fun nav_id => (nav_id, media_type, force))
                      (imap_unordered E navigations))
               0 0.

(* ------------------------------------------------------------------ *)
(** ** Reading the log                                                 *)
(* ------------------------------------------------------------------ *)

Definition is_extract (e : event) : bool :=
  match e with Extract _ _ _ _ => true | _ => false end.

Definition is_transform (e : event) : bool :=
  match e with Transform _ _ _ => true | _ => false end.

Definition is_cache_read (e : event) : bool :=
  match e with CacheRead _ => true | _ => false end.

Definition is_cache_write (e : event) : bool :=
  match e with Mkdir _ | OpenW _ | Dump _ _ => true | _ => false end.

Definition count (p : event -> bool) (l : list event) : nat :=
  List.length (filter p l).

(** The events a computation adds to the log of [w]. *)
Definition new_events {A} (m : M A) (w : world) : list event :=
  skipn (List.length (log w)) (log (snd (m w))).

(** What an event does to the cache directory. *)
Definition apply_event (fs : string -> option file) (e : event)
    : string -> option file :=
  match e with
  | OpenW path => update fs path (NotJson "")
  | Dump path content => update fs path (envelope content)
  | _ => fs
  end.

Definition replay (es : list event) (fs : string -> option file)
    : string -> option file :=
  fold_left apply_event es fs.

(** The world after the events [es]. *)
Definition extend (w : world) (es : list event) : world :=
  {| files := replay es (files w); log := log w ++ es |}.

(** What [get_cache] returns for what it finds at the path. *)
Definition read_content (verbose : bool) (found : option file) : outcome json :=
  match found with
  | None | Some Unreadable | Some (NotJson _) => Ok JNull
  | Some BadUtf8 => Raise UnicodeDecodeError
  | Some (Json (JObj members)) =>
      let content := members_get members "content" in
      if json_truthy content && verbose && negb (has_len content)
      then Raise ValueError else Ok content
  | Some (Json _) => Raise AttributeError
  end.

Definition empty_cache : world := {| files := fun _ => None; log := [] |}.

(** A disk on which nothing fails. *)
Definition healthy : Disk :=
  {| mkdir_fails := fun _ => false; open_fails := fun _ => false;
     write_fails := fun _ => false |}.

(* ------------------------------------------------------------------ *)
(** ** A small corpus                                                  *)
(* ------------------------------------------------------------------ *)

Definition ms001 : Collection :=
  {| coll_id := 1; identifier := "ms001"; filepath := "corpus/ms001.xml";
     default_tree := Some "default" |}.

Definition nav001 : Navigation :=
  {| nav_id := 1; collection_id := 1;
     references :=
       [("default", [{| ref_identifier := "p1" |}; {| ref_identifier := "p2" |}])];
     paths := [("default", ["p1"; "p2"])] |}.

Definition corpus : Database :=
  {| collections := [ms001]; navigations := [nav001] |}.

(** A stylesheet that wraps the passage. *)
Definition wrapping : Transformer :=
  {| transform := fun media _ xml =>
       {| get_data := "<div class='" ++ media ++ "'>" ++ xml ++ "</div>";
          status_code := 200; mimetype := "text/html" |};
     mapping := [("html", "text/html")] |}.

(** A stylesheet with no output. *)
Definition silent : Transformer :=
  {| transform := fun _ _ _ =>
       {| get_data := ""; status_code := 200; mimetype := "text/html" |};
     mapping := [("html", "text/html")] |}.

(** A parser that takes for a document what starts with a tag. *)
Definition starts_with_tag (text : string) : outcome unit :=
  match text with
  | String c _ => if Ascii.eqb c "<" then Ok tt else Raise XMLSyntaxError
  | EmptyString => Raise XMLSyntaxError
  end.

Definition tei (c : Collection) (ref : string) (end_ : option string)
    (tree : string) : string :=
  "<TEI n='" ++ identifier c ++ "/" ++ tree ++ "/" ++ ref ++ "'/>".

(** The corpus served with the cache enabled, by a pool that hands the
    results back in the order of the work items. *)
Definition site (tr : Transformer) (d : Disk) : Env :=
  {| cache := DiskPrerenderedCache; use_disk_cache := true; db := corpus;
     disk := d; get_passage := tei; read_text := fun _ => "<TEI/>";
     media_transformer := tr; fromstring := starts_with_tag;
     imap_unordered := fun items => items;
     fromstring_get_passage := fun _ _ _ _ => eq_refl;
     imap_unordered_permutation := fun items => Permutation_refl items |}.

(** Whether [save_cache] can write the file at [path]. *)
Definition writable (d : Disk) (path : string) : bool :=
  negb (mkdir_fails d (parent path)) && negb (open_fails d path)
  && negb (write_fails d path).

(** The events of a [save_cache] that succeeds. *)
Definition save_events (path content : string) : list event :=
  [Mkdir (parent path); OpenW path; Dump path content].

(** A cache directory in which no directory can be created. *)
Definition read_only : Disk :=
  {| mkdir_fails := fun _ => true; open_fails := fun _ => true;
     write_fails := fun _ => true |}.

(** A disk that fills up: files open, and writing them fails. *)
Definition full : Disk :=
  {| mkdir_fails := fun _ => false; open_fails := fun _ => false;
     write_fails := fun _ => true |}.

(** The empty cache directory with one file in it. *)
Definition one_file (path : string) (f : file) : world :=
  {| files := update (fun _ => None) path f; log := [] |}.

(** The paths of the artifacts of [ms001], reference [p1]. *)
Definition p1_xml : string :=
  get_cache_path DiskPrerenderedCache "ms001" "p1" None DEFAULT_MEDIA_TYPE
                 "default".

Definition p1_html : string :=
  get_cache_path DiskPrerenderedCache "ms001" "p1" None "html" "default".

(* ------------------------------------------------------------------ *)
(** ** What the batch generator visits and writes                      *)
(* ------------------------------------------------------------------ *)

(** The (tree, reference) pairs of a navigation, in the order of the
    loops of [_prerender_collection]. *)
Definition tree_refs (nav : Navigation) : list (string * string) :=
  flat_map (fun item => map (fun r => (fst item, ref_identifier r)) (snd item))
           (references nav).

(** The path of the artifact of a reference for a media type, as the
    batch generator derives it (no range end). *)
Definition artifact_path (E : Env) (c : Collection) (tree ref media : string)
    : string :=
  get_cache_path (cache E) (identifier c) ref None media tree.

(** What the transformation engine makes of the base passage. *)
Definition rendering (E : Env) (c : Collection) (tree ref media : string)
    : string :=
  get_data (transform (media_transformer E) media c
                      (get_passage E c ref None tree)).

(** The artifacts of one reference, as (path, content) pairs: the base
    passage, then one per requested media type. *)
Definition ref_artifacts (E : Env) (c : Collection) (media_types : list string)
    (tr : string * string) : list (string * string) :=
  (artifact_path E c (fst tr) (snd tr) DEFAULT_MEDIA_TYPE,
   get_passage E c (snd tr) None (fst tr))
  :: map (fun m => (artifact_path E c (fst tr) (snd tr) m,
                    rendering E c (fst tr) (snd tr) m))
         media_types.

Definition artifacts (E : Env) (c : Collection) (media_types : list string)
    (nav : Navigation) : list (string * string) :=
  flat_map (ref_artifacts E c media_types) (tree_refs nav).

(** The events of a forced generation of the artifacts of one media
    type and of one reference. *)
Definition forced_media_events (E : Env) (c : Collection)
    (tree ref media : string) : list event :=
  [CacheRead (artifact_path E c tree ref media);
   Transform media (identifier c) (get_passage E c ref None tree)]
    ++ save_events (artifact_path E c tree ref media)
                   (rendering E c tree ref media).

Definition forced_ref_events (E : Env) (c : Collection)
    (media_types : list string) (tr : string * string) : list event :=
  [CacheRead (artifact_path E c (fst tr) (snd tr) DEFAULT_MEDIA_TYPE);
   Extract (identifier c) (snd tr) None (fst tr)]
    ++ save_events (artifact_path E c (fst tr) (snd tr) DEFAULT_MEDIA_TYPE)
                   (get_passage E c (snd tr) None (fst tr))
    ++ flat_map (forced_media_events E c (fst tr) (snd tr)) media_types.

(** The events of a pass over a reference whose artifacts are cached. *)
Definition lookup_events (E : Env) (c : Collection)
    (media_types : list string) (tr : string * string) : list event :=
  CacheRead (artifact_path E c (fst tr) (snd tr) DEFAULT_MEDIA_TYPE)
  :: map (fun m => CacheRead (artifact_path E c (fst tr) (snd tr) m))
         media_types.

(** The directory after the artifacts [jobs] are written in turn. *)
Definition write_all (jobs : list (string * string))
    (fs : string -> option file) : string -> option file :=
  fold_left (fun fs job => update fs (fst job) (envelope (snd job))) jobs fs.

(** [get_cache] raises on no file of the directory. *)
Definition readable (verbose : bool) (fs : string -> option file) : Prop :=
  forall path, exists v, read_content verbose (fs path) = Ok v.

(** The file at [path] is an envelope whose content is the string [s]. *)
Definition stored (fs : string -> option file) (path s : string) : Prop :=
  exists members,
    fs path = Some (Json (JObj members))
    /\ members_get members "content" = JStr s.

(** A reference is warmed: its base passage is cached with content that
    is not empty, and there is a cached artifact for every requested
    media type. *)
Definition warmed_ref (E : Env) (c : Collection) (media_types : list string)
    (fs : string -> option file) (tr : string * string) : Prop :=
  (exists s, stored fs (artifact_path E c (fst tr) (snd tr) DEFAULT_MEDIA_TYPE) s
             /\ s <> "")
  /\ forall m, In m media_types ->
               exists s, stored fs (artifact_path E c (fst tr) (snd tr) m) s.

(** The corpus is warmed: every navigation has its collection, and every
    reference of it is warmed. *)
Definition warmed (E : Env) (media_types : list string)
    (fs : string -> option file) : Prop :=
  forall nav, In nav (navigations (db E)) ->
    exists c,
      find (fun c => (coll_id c =? collection_id nav)%Z) (collections (db E))
      = Some c
      /\ forall tr, In tr (tree_refs nav) -> warmed_ref E c media_types fs tr.

(** The claim's reading of "warmed": an entry, whatever its content. *)
Definition has_entry (fs : string -> option file) (path : string) : Prop :=
  exists s, stored fs path s.

Definition p2_xml : string :=
  get_cache_path DiskPrerenderedCache "ms001" "p2" None DEFAULT_MEDIA_TYPE
                 "default".

Definition p2_html : string :=
  get_cache_path DiskPrerenderedCache "ms001" "p2" None "html" "default".

(** A cache that holds every artifact of [ms001], the base passage of
    [p1] with empty content. *)
Definition hollow : world :=
  {| files :=
       write_all [(p1_xml, ""); (p1_html, "<div>1</div>");
                  (p2_xml, "<TEI n='2'/>"); (p2_html, "<div>2</div>")]
                 (fun _ => None);
     log := [] |}.

(** A cache that holds every artifact of [ms001], none of them empty. *)
Definition brimming : world :=
  {| files :=
       write_all [(p1_xml, "<TEI n='1'/>"); (p1_html, "<div>1</div>");
                  (p2_xml, "<TEI n='2'/>"); (p2_html, "<div>2</div>")]
                 (fun _ => None);
     log := [] |}.

(* ------------------------------------------------------------------ *)
(** ** [CustomXSLTransformer] and the module-level transformer          *)
(* ------------------------------------------------------------------ *)

(** [CustomXSLTransformer(xslts, media_type_mapping)].  [saxon
    stylesheet passage] is the string the stylesheet compiled from the
    file [stylesheet] makes of the passage that [get_transformed] has
    parsed; [super_transform] is [Transformer.transform], which handles
    a media type that has no stylesheet. *)
Definition CustomXSLTransformer (saxon : string -> string -> string)
    (super_transform : string -> Collection -> string -> EngineResponse)
    (xslts : list (string * string))
    (media_type_mapping : option (list (string * string))) : Transformer :=
  let mapping :=
    match media_type_mapping with
    | Some m => m
    | None => []
    end in
  {| transform := fun media collection document =>
       match assoc xslts media with
       | None => super_transform media collection document
       | Some stylesheet =>
           {| get_data := saxon stylesheet document;
              status_code := 200;
              mimetype := match assoc mapping media with
                          | Some m => m
                          | None => media
                          end |}
       end;
     mapping := mapping |}.

Module transformation.

(** [media_transformer = CustomXSLTransformer({"html":
    os.path.join(basedir, "assets/xsl.xsl")})] *)
Definition media_transformer (saxon : string -> string -> string)
    (super_transform : string -> Collection -> string -> EngineResponse)
    (basedir : string) : Transformer :=
  CustomXSLTransformer saxon super_transform
    [("html", os_path_join basedir ["assets/xsl.xsl"])] None.

End transformation.

(* ------------------------------------------------------------------ *)
(** ** The export of the cached pages ([cli.py])                        *)
(* ------------------------------------------------------------------ *)

(** Text is kept as its UTF-8 bytes.  The patterns of [process_cache]
    name ASCII characters and whitespace; a byte inside the encoding of
    another character is neither an ASCII byte nor the first byte of a
    whitespace character, so matching the bytes is matching the
    characters. *)

Definition quote : string := String (ascii_of_nat 34) EmptyString.

(** [s[n:]] *)
Fixpoint drop (n : nat) (s : string) : string :=
  match n, s with
  | O, _ => s
  | S _, EmptyString => EmptyString
  | S k, String _ rest => drop k rest
  end.

(** What follows the first occurrence of [needle] in [s]. *)
Fixpoint after (needle s : string) : option string :=
  if String.prefix needle s then Some (drop (String.length needle) s)
  else match s with
       | EmptyString => None
       | String _ rest => after needle rest
       end.

(** What precedes the first occurrence of [needle] in [s]. *)
Fixpoint before (needle s : string) : option string :=
  if String.prefix needle s then Some EmptyString
  else match s with
       | EmptyString => None
       | String c rest => option_map (String c) (before needle rest)
       end.

(** [re.search(r'<div id="rendered-tei"[^>]*>(.*?)</div>', s,
    re.DOTALL)]: group 1 of the match, [None] when nothing matches.
    The match starts at the first occurrence of the opening text, the
    tag ends at the next [>], and the lazy group ends at the next
    [</div>]; when one of the two is missing after the first occurrence
    it is missing after every later one. *)
Definition rendered_tei (s : string) : option string :=
  match after ("<div id=" ++ quote ++ "rendered-tei" ++ quote) s with
  | None => None
  | Some attributes =>
      match after ">" attributes with
      | None => None
      | Some body => before "</div>" body
      end
  end.

Fixpoint has_gt (s : string) : bool :=
  match s with
  | EmptyString => false
  | String c rest => Ascii.eqb c ">" || has_gt rest
  end.

(** Whether [[^>]+>] matches what follows a [<]. *)
Definition tag_opens (rest : string) : bool :=
  match rest with
  | EmptyString => false
  | String c r => negb (Ascii.eqb c ">") && has_gt r
  end.

(** [re.sub(r'<[^>]+>', '', s)], read from left to right; [in_tag] says
    that the text is inside a match, which ends at the next [>]. *)
Fixpoint strip_tags_from (in_tag : bool) (s : string) : string :=
  match s with
  | EmptyString => EmptyString
  | String c rest =>
      if in_tag then strip_tags_from (negb (Ascii.eqb c ">")) rest
      else if Ascii.eqb c "<" && tag_opens rest then strip_tags_from true rest
      else String c (strip_tags_from false rest)
  end.

Definition strip_tags (s : string) : string := strip_tags_from false s.

(** The number of bytes of the whitespace character at the head of [s],
    0 when there is none.  Whitespace is what [\s] and [str.strip]
    take for it: U+0009 to U+000D, U+001C to U+0020, U+0085, U+00A0,
    U+1680, U+2000 to U+200A, U+2028, U+2029, U+202F, U+205F, U+3000. *)
Definition space_len (s : string) : nat :=
  match s with
  | EmptyString => 0
  | String c rest =>
      let b := nat_of_ascii c in
      if ((9 <=? b)%nat && (b <=? 13)%nat) || ((28 <=? b)%nat && (b <=? 32)%nat) then 1
      else
        match rest with
        | String c1 rest1 =>
            let b1 := nat_of_ascii c1 in
            if (b =? 194)%nat && ((b1 =? 133)%nat || (b1 =? 160)%nat) then 2
            else
              match rest1 with
              | String c2 _ =>
                  let b2 := nat_of_ascii c2 in
                  if ((b =? 225)%nat && (b1 =? 154)%nat && (b2 =? 128)%nat)
                     || ((b =? 226)%nat && (b1 =? 128)%nat
                         && (((128 <=? b2)%nat && (b2 <=? 138)%nat)
                             || (b2 =? 168)%nat || (b2 =? 169)%nat || (b2 =? 175)%nat))
                     || ((b =? 226)%nat && (b1 =? 129)%nat && (b2 =? 159)%nat)
                     || ((b =? 227)%nat && (b1 =? 128)%nat && (b2 =? 128)%nat)
                  then 3 else 0
              | EmptyString => 0
              end
        | EmptyString => 0
        end
  end.

(** [re.sub(r'\s+', ' ', s)]; [skip] counts the bytes left of the
    whitespace character being read, [in_run] says that the run it
    belongs to has been replaced already. *)
Fixpoint sub_spaces (skip : nat) (in_run : bool) (s : string) : string :=
  match s with
  | EmptyString => EmptyString
  | String c rest =>
      match skip with
      | S k => sub_spaces k in_run rest
      | O =>
          match space_len s with
          | O => String c (sub_spaces 0 false rest)
          | S k =>
              if in_run then sub_spaces k true rest
              else String " "%char (sub_spaces k true rest)
          end
      end
  end.

(** [s.lstrip()] *)
Fixpoint lstrip_from (skip : nat) (s : string) : string :=
  match s with
  | EmptyString => EmptyString
  | String _ rest =>
      match skip with
      | S k => lstrip_from k rest
      | O =>
          match space_len s with
          | O => s
          | S k => lstrip_from k rest
          end
      end
  end.

(** Whether [s] is whitespace from end to end. *)
Fixpoint all_space_from (skip : nat) (s : string) : bool :=
  match s with
  | EmptyString => true
  | String _ rest =>
      match skip with
      | S k => all_space_from k rest
      | O =>
          match space_len s with
          | O => false
          | S k => all_space_from k rest
          end
      end
  end.

(** [s.rstrip()] *)
Fixpoint rstrip (s : string) : string :=
  match s with
  | EmptyString => EmptyString
  | String c rest =>
      if all_space_from 0 s then EmptyString else String c (rstrip rest)
  end.

(** [s.strip()] *)
Definition strip (s : string) : string := rstrip (lstrip_from 0 s).

(** The text [process_cache] keeps of a rendered page. *)
Definition content_text (prerender : string) : string :=
  match rendered_tei prerender with
  | Some content_html => strip (sub_spaces 0 false (strip_tags content_html))
  | None => EmptyString
  end.

(** What the commands of the export raise: the [TypeError] of
    [re.search] on a value that is not a string, or what the cache and
    the database raise. *)
Inductive raised : Type :=
| TypeError
| Other (e : exn).

Inductive result (A : Type) : Type :=
| Done (a : A)
| Failed (e : raised).
Arguments Done {A} a.
Arguments Failed {A} e.

Definition C (A : Type) : Type := world -> result A * world.

Definition done {A} (a : A) : C A := fun w => (Done a, w).

Definition lift {A} (m : M A) : C A :=
  fun w =>
    match m w with
    | (Ok a, w') => (Done a, w')
    | (Raise e, w') => (Failed (Other e), w')
    end.

Definition and_then {A B} (m : C A) (k : A -> C B) : C B :=
  fun w =>
    match m w with
    | (Done a, w') => k a w'
    | (Failed e, w') => (Failed e, w')
    end.

(** [re.search(pattern, prerender, re.DOTALL)] and the lines that make
    [content_text] of the match. *)
Definition search_text (prerender : json) : C string :=
  match prerender with
  | JStr s => done (content_text s)
  | _ => fun w => (Failed TypeError, w)
  end.

(** The dict [process_cache] appends for a reference. *)
Definition page (collection : Collection) (ref : RefDescriptor)
    (content_text : string) : json :=
  JObj [("collection", JStr (identifier collection));
        ("ref", JStr (ref_identifier ref));
        ("content", JStr content_text)].

(** The loop [for ref in references:] of [process_cache]. *)
Fixpoint process_refs (E : Env) (collection : option Collection)
    (tree : string) (refs : list RefDescriptor) (returned_values : list json)
    : C (list json) :=
  match refs with
  | [] => done returned_values
  | ref :: rest =>
      and_then (lift (attr collection)) (fun c =>
      and_then (lift (get_cache (cache E) c (ref_identifier ref) None "html"
                                tree)) (fun prerender =>
      and_then (search_text prerender) (fun content_text =>
      process_refs E collection tree rest
                   (returned_values ++ [page c ref content_text])%list)))
  end.

(** The loop [for tree, references in navigation.references.items():]. *)
Fixpoint process_trees (E : Env) (collection : option Collection)
    (trees : list (string * list RefDescriptor)) (returned_values : list json)
    : C (list json) :=
  match trees with
  | [] => done returned_values
  | (tree, refs) :: rest =>
      and_then (process_refs E collection tree refs returned_values)
               (fun returned_values =>
      process_trees E collection rest returned_values)
  end.

(** [process_cache(navigation_id)] *)
Definition process_cache (E : Env) (navigation_id : Z) : C (list json) :=
  and_then
    (lift (attr (find (fun n => (nav_id n =? navigation_id)%Z)
                      (navigations (db E)))))
    (fun navigation =>
       let collection :=
         find (fun c => (coll_id c =? collection_id navigation)%Z)
              (collections (db E)) in
       process_trees E collection (references navigation) []).

(** The loop of [generate_json] over the results of the pool, in the
    order [navigations] in which they come back:
    [if result: data.append(result)]. *)
Fixpoint gather (E : Env) (navigations : list Z) (data : list json)
    : C (list json) :=
  match navigations with
  | [] => done data
  | navigation_id :: rest =>
      and_then (process_cache E navigation_id) (fun result =>
      gather E rest
             match result with
             | [] => data
             | _ :: _ => (data ++ [JArr result])%list
             end)
  end.

(** [json.dump(data, f)] and the closing of [f]. *)
Definition dump_data (d : Disk) (path : string) (data : list json) : M unit :=
  if write_fails d path then raise OSError
  else put_file path (Json (JArr data)).

(** [generate_json(out, workers)]: a pool of no process is a
    [ValueError]; the results are taken as [pool.imap_unordered] hands
    them back, and the file is opened once every navigation is done. *)
Definition generate_json (E : Env) (out : string) (workers : Z) : C unit :=
  let navigations := map nav_id (navigations (db E)) in
  if (workers <? 1)%Z then lift (raise ValueError)
  else
    and_then (gather E (imap_unordered E navigations) []) (fun data =>
    lift (open_w (disk E) out ;; dump_data (disk E) out data)).

(** Whether [<[^>]+>] matches somewhere in [s]. *)
Fixpoint has_tag (s : string) : bool :=
  match s with
  | EmptyString => false
  | String c rest => (Ascii.eqb c "<" && tag_opens rest) || has_tag rest
  end.

(* ================================================================== *)
(** * Properties                                                       *)
(* ================================================================== *)

(** ** The digest agrees with the published test vectors *)

Example sha1_abc :
  Sha1.hexdigest "abc" = "a9993e364706816aba3e25717850c26c9cd0d89d".
Proof. vm_compute. reflexivity. Qed.

Example sha1_empty :
  Sha1.hexdigest "" = "da39a3ee5e6b4b0d3255bfef95601890afd80709".
Proof. vm_compute. reflexivity. Qed.

Example sha1_two_blocks :
  Sha1.hexdigest "abcdbcdecdefdefgefghfghighijhijkijkljklmklmnlmnomnopnopq"
  = "84983e441c3bd26ebaae4aa1f95129e5e54670f1".
Proof. vm_compute. reflexivity. Qed.

(** ** The monad and the log *)

Arguments get_cache_path : simpl never.
Arguments Sha1.hexdigest : simpl never.
Arguments safe_filename : simpl never.

Lemma replay_app (es1 es2 : list event) (fs : string -> option file) :
  replay (es1 ++ es2) fs = replay es2 (replay es1 fs).
Proof. apply fold_left_app. Qed.

Lemma extend_nil (w : world) : extend w [] = w.
Proof. destruct w; unfold extend; simpl. now rewrite app_nil_r. Qed.

Lemma extend_extend (w : world) (a b : list event) :
  extend (extend w a) b = extend w (a ++ b).
Proof. unfold extend; simpl. now rewrite replay_app, app_assoc. Qed.

Lemma new_events_extend {A} (m : M A) (w : world) (r : outcome A)
    (es : list event) :
  m w = (r, extend w es) -> new_events m w = es.
Proof.
  intros H. unfold new_events. rewrite H. simpl.
  rewrite skipn_app, Nat.sub_diag, skipn_all. reflexivity.
Qed.

Lemma bind_ok {A B} (m : M A) (k : A -> M B) (w w' : world) (a : A) :
  m w = (Ok a, w') -> bind m k w = k a w'.
Proof. intros H. unfold bind. now rewrite H. Qed.

Lemma bind_raise {A B} (m : M A) (k : A -> M B) (w w' : world) (e : exn) :
  m w = (Raise e, w') -> bind m k w = (Raise e, w').
Proof. intros H. unfold bind. now rewrite H. Qed.

(** ** [get_cache] and [save_cache], step by step *)

Lemma get_cache_eq (self : DiskPrerenderedCacheClass) (c : Collection)
    (ref : string) (end_ : option string) (media tree : string) (w : world) :
  get_cache self c ref end_ media tree w
  = (read_content (verbose self)
       (files w (get_cache_path self (identifier c) ref end_ media tree)),
     extend w [CacheRead (get_cache_path self (identifier c) ref end_ media tree)]).
Proof.
  unfold get_cache, bind, emit, stat, extend, try_except. simpl.
  destruct (files w _) as [[ | | text | v] | ]; simpl; try reflexivity.
  destruct v; simpl; try reflexivity.
  unfold bind, len_. simpl.
  destruct (json_truthy (members_get members "content")); simpl;
    [ | reflexivity ].
  destruct (verbose self); simpl; [ | reflexivity ].
  destruct (has_len (members_get members "content")); reflexivity.
Qed.

Lemma save_cache_open_fails (d : Disk) (self : DiskPrerenderedCacheClass)
    (identifier ref : string) (end_ : option string) (media tree content : string)
    (w : world) :
  let path := get_cache_path self identifier ref end_ media tree in
  mkdir_fails d (parent path) = false ->
  open_fails d path = true ->
  save_cache d self identifier ref end_ media tree content w
  = (Ok tt, extend w [Mkdir (parent path)]).
Proof.
  intros path Hm Ho.
  unfold save_cache, bind, mkdir_p, try_except, open_w. fold path.
  rewrite Hm, Ho. reflexivity.
Qed.

Lemma save_cache_write_fails (d : Disk) (self : DiskPrerenderedCacheClass)
    (identifier ref : string) (end_ : option string) (media tree content : string)
    (w : world) :
  let path := get_cache_path self identifier ref end_ media tree in
  mkdir_fails d (parent path) = false ->
  open_fails d path = false ->
  write_fails d path = true ->
  save_cache d self identifier ref end_ media tree content w
  = (Ok tt, extend w [Mkdir (parent path); OpenW path]).
Proof.
  intros path Hm Ho Hw.
  unfold save_cache, bind, mkdir_p, try_except, open_w, dump. fold path.
  rewrite Hm, Ho. simpl. unfold bind. simpl. rewrite Hw. simpl.
  unfold extend. simpl. now rewrite <- app_assoc.
Qed.

Lemma save_cache_ok (d : Disk) (self : DiskPrerenderedCacheClass)
    (identifier ref : string) (end_ : option string) (media tree content : string)
    (w : world) :
  let path := get_cache_path self identifier ref end_ media tree in
  mkdir_fails d (parent path) = false ->
  open_fails d path = false ->
  write_fails d path = false ->
  save_cache d self identifier ref end_ media tree content w
  = (Ok tt, extend w [Mkdir (parent path); OpenW path; Dump path content]).
Proof.
  intros path Hm Ho Hw.
  unfold save_cache, bind, mkdir_p, try_except, open_w, dump. fold path.
  rewrite Hm, Ho. simpl. unfold bind. simpl. rewrite Hw. simpl.
  unfold bind. simpl. unfold extend. simpl. now rewrite <- !app_assoc.
Qed.

(** ** Strings *)

Lemma append_assoc (a b c : string) : (a ++ b) ++ c = a ++ (b ++ c).
Proof. induction a as [ | x a IH]; simpl; [ reflexivity | now rewrite IH ]. Qed.

Lemma length_append (a b : string) :
  String.length (a ++ b) = String.length a + String.length b.
Proof. induction a as [ | x a IH]; simpl; [ reflexivity | now rewrite IH ]. Qed.

Lemma append_inv_head (s a b : string) : s ++ a = s ++ b -> a = b.
Proof.
  induction s as [ | x s IH]; simpl; intros H; [ exact H | ].
  injection H as H. now apply IH.
Qed.

(** Two equal texts cut at the same position have equal pieces. *)
Lemma append_inv_length (a1 a2 b1 b2 : string) :
  a1 ++ b1 = a2 ++ b2 -> String.length a1 = String.length a2 ->
  a1 = a2 /\ b1 = b2.
Proof.
  revert a2. induction a1 as [ | x a1 IH]; intros [ | y a2]; simpl;
    intros H L; try discriminate.
  - now split.
  - injection H as Hx H. injection L as L.
    destruct (IH a2 H L) as [-> ->]. subst. now split.
Qed.

Lemma append_inv_tail_length (a1 a2 b1 b2 : string) :
  a1 ++ b1 = a2 ++ b2 -> String.length b1 = String.length b2 ->
  a1 = a2 /\ b1 = b2.
Proof.
  intros H L. apply append_inv_length; [ exact H | ].
  apply (f_equal String.length) in H. rewrite !length_append in H. lia.
Qed.

Lemma has_slash_append (a b : string) :
  has_slash (a ++ b) = has_slash a || has_slash b.
Proof.
  induction a as [ | x a IH]; simpl; [ reflexivity | ].
  now rewrite IH, orb_assoc.
Qed.

(** A text is cut in one way only at its last slash. *)
Lemma split_last_slash (a1 a2 f1 f2 : string) :
  a1 ++ "/" ++ f1 = a2 ++ "/" ++ f2 ->
  has_slash f1 = false -> has_slash f2 = false ->
  a1 = a2 /\ f1 = f2.
Proof.
  revert a2. induction a1 as [ | x a1 IH]; intros [ | y a2]; simpl;
    intros H F1 F2.
  - injection H as H. now split.
  - injection H as Hy H. subst f1.
    rewrite has_slash_append in F1. simpl in F1.
    rewrite orb_true_r in F1. discriminate.
  - injection H as Hx H. subst f2.
    rewrite has_slash_append in F2. simpl in F2.
    rewrite orb_true_r in F2. discriminate.
  - injection H as Hx H. destruct (IH a2 H F1 F2) as [-> ->].
    subst. now split.
Qed.

Lemma length_substring_0 (n : nat) (s : string) :
  String.length (substring 0 n s) = Nat.min n (String.length s).
Proof.
  revert s. induction n as [ | n IH]; intros [ | c s]; simpl; try reflexivity.
  now rewrite IH.
Qed.

Lemma has_slash_substring (n m : nat) (s : string) :
  has_slash s = false -> has_slash (substring n m s) = false.
Proof.
  revert n m. induction s as [ | c s IH]; intros [ | n] [ | m]; simpl;
    intros H; try reflexivity; try exact H;
    apply orb_false_iff in H; destruct H as [Hc Hs].
  - rewrite Hc. simpl. now apply IH.
  - now apply IH.
  - now apply IH.
Qed.

Lemma prefix_slash (s : string) : has_slash s = false -> String.prefix "/" s = false.
Proof.
  intros H. destruct (String.prefix "/" s) eqn:P; [ | reflexivity ].
  apply prefix_correct in P. destruct s as [ | c s]; simpl in P.
  - discriminate.
  - injection P as P _. subst c. discriminate.
Qed.

(** ** The digest is forty hexadecimal digits *)

Lemma length_string_of_list_ascii (l : list ascii) :
  String.length (string_of_list_ascii l) = List.length l.
Proof. induction l as [ | c l IH]; simpl; [ reflexivity | now rewrite IH ]. Qed.

Lemma length_hex (k : nat) (w : Z) : List.length (Sha1.hex k w) = k.
Proof. induction k as [ | k IH]; simpl; [ reflexivity | now rewrite IH ]. Qed.

Lemma length_hexdigest (s : string) : String.length (Sha1.hexdigest s) = 40.
Proof.
  unfold Sha1.hexdigest. rewrite length_string_of_list_ascii.
  rewrite !length_app, !length_hex. reflexivity.
Qed.

Lemma hexchar_not_slash (n : Z) : Ascii.eqb (Sha1.hexchar n) slash = false.
Proof.
  unfold Sha1.hexchar.
  destruct (nth_in_or_default (Z.to_nat (Z.land n 15)) Sha1.hex_digits "0"%char)
    as [H | ->]; [ | reflexivity ].
  revert H. generalize (nth (Z.to_nat (Z.land n 15)) Sha1.hex_digits "0"%char).
  intros c H. simpl in H.
  repeat (destruct H as [<- | H]; [ reflexivity | ]). destruct H.
Qed.

Lemma has_slash_of_list (l : list ascii) :
  Forall (fun c => Ascii.eqb c slash = false) l ->
  has_slash (string_of_list_ascii l) = false.
Proof.
  induction 1 as [ | c l Hc _ IH]; simpl; [ reflexivity | ].
  now rewrite Hc, IH.
Qed.

Lemma hex_no_slash (k : nat) (w : Z) :
  Forall (fun c => Ascii.eqb c slash = false) (Sha1.hex k w).
Proof.
  induction k as [ | k IH]; simpl; constructor;
    [ apply hexchar_not_slash | exact IH ].
Qed.

Lemma has_slash_hexdigest (s : string) : has_slash (Sha1.hexdigest s) = false.
Proof.
  unfold Sha1.hexdigest. apply has_slash_of_list.
  repeat (apply Forall_app; split); apply hex_no_slash.
Qed.

Lemma length_safe_filename (s : string) : String.length (safe_filename s) = 8.
Proof.
  unfold safe_filename, short_sha.
  now rewrite length_substring_0, length_hexdigest.
Qed.

Lemma has_slash_safe_filename (s : string) : has_slash (safe_filename s) = false.
Proof. apply has_slash_substring, has_slash_hexdigest. Qed.

(** ** Key derivation *)

Lemma os_path_join_tail (l : list string) (x : string) :
  has_slash x = false ->
  exists pre,
    match (l ++ [x])%list with
    | a :: p => os_path_join a p
    | [] => EmptyString
    end = pre ++ x.
Proof.
  intros Hx. destruct l as [ | a l]; simpl.
  - now exists EmptyString.
  - unfold os_path_join. rewrite fold_left_app. simpl.
    unfold join_step at 1. rewrite (prefix_slash x Hx).
    destruct ((fold_left join_step l a =? "") || ends_with_slash _).
    + now exists (fold_left join_step l a).
    + exists (fold_left join_step l a ++ "/"). now rewrite append_assoc.
Qed.

Lemma sha_subfolders_inj (self : DiskPrerenderedCacheClass) (id1 id2 : string) :
  sha_subfolders self id1 = sha_subfolders self id2 ->
  Sha1.hexdigest id1 = Sha1.hexdigest id2.
Proof.
  unfold sha_subfolders. cbv zeta.
  destruct (os_path_join_tail
              (map (fun i => substring (i * CHARS_PER_LEVEL self)
                                (CHARS_PER_LEVEL self) (Sha1.hexdigest id1))
                   (seq 0 (LEVELS self)))
              (Sha1.hexdigest id1) (has_slash_hexdigest id1)) as [p1 ->].
  destruct (os_path_join_tail
              (map (fun i => substring (i * CHARS_PER_LEVEL self)
                                (CHARS_PER_LEVEL self) (Sha1.hexdigest id2))
                   (seq 0 (LEVELS self)))
              (Sha1.hexdigest id2) (has_slash_hexdigest id2)) as [p2 ->].
  intros H. apply append_inv_tail_length in H; [ apply H | ].
  now rewrite !length_hexdigest.
Qed.

Lemma end_parts_cases (end_ : option string) :
  end_parts end_ = [] \/ exists e, end_parts end_ = [safe_filename e].
Proof.
  destruct end_ as [e | ]; simpl; [ | now left ].
  destruct (negb (e =? "")); [ right; now exists e | now left ].
Qed.

Lemma has_slash_filename (ref : string) (end_ : option string)
    (media tree : string) :
  has_slash (String.concat "__" (filename_parts ref end_ media tree)
               ++ ".prerender") = false.
Proof.
  unfold filename_parts.
  destruct (end_parts_cases end_) as [-> | [e ->]]; cbn [app String.concat];
    rewrite !has_slash_append, !has_slash_safe_filename; reflexivity.
Qed.

Ltac cut_here H :=
  apply append_inv_length in H;
  [ destruct H as [? H]
  | rewrite ?length_safe_filename; reflexivity ].

Lemma filename_inj (ref1 ref2 : string) (end1 end2 : option string)
    (media1 media2 tree1 tree2 : string) :
  String.concat "__" (filename_parts ref1 end1 media1 tree1) ++ ".prerender"
  = String.concat "__" (filename_parts ref2 end2 media2 tree2) ++ ".prerender" ->
  filename_parts ref1 end1 media1 tree1 = filename_parts ref2 end2 media2 tree2.
Proof.
  unfold filename_parts.
  destruct (end_parts_cases end1) as [-> | [e1 ->]];
    destruct (end_parts_cases end2) as [-> | [e2 ->]];
    cbn [app String.concat]; intros H.
  - rewrite !append_assoc in H.
    do 5 cut_here H. congruence.
  - apply (f_equal String.length) in H.
    rewrite !length_append, !length_safe_filename in H.
    cbn [String.length] in H. lia.
  - apply (f_equal String.length) in H.
    rewrite !length_append, !length_safe_filename in H.
    cbn [String.length] in H. lia.
  - rewrite !append_assoc in H.
    do 7 cut_here H. congruence.
Qed.

Lemma cons_eq_inv {A} (x y : A) (l l' : list A) :
  x :: l = y :: l' -> x = y /\ l = l'.
Proof. intros H. injection H as -> ->. now split. Qed.

Lemma get_cache_path_digests (self : DiskPrerenderedCacheClass)
    (id1 id2 ref1 ref2 : string) (end1 end2 : option string)
    (media1 media2 tree1 tree2 : string) :
  Sha1.hexdigest id1 = Sha1.hexdigest id2 ->
  filename_parts ref1 end1 media1 tree1 = filename_parts ref2 end2 media2 tree2 ->
  get_cache_path self id1 ref1 end1 media1 tree1
  = get_cache_path self id2 ref2 end2 media2 tree2.
Proof.
  intros Hid Hfn. unfold get_cache_path, sha_subfolders.
  now rewrite Hid, Hfn.
Qed.

(** C7, as amended.  [get_cache_path] is a function of its five fields,
    and two keys are given the same path exactly when the SHA-1 digests
    of their document identifiers agree, the eight-digit digests of
    their trees, references and media types agree, and their range ends
    add the same component to the file name: none when the range end is
    absent or empty, its eight-digit digest otherwise.  So two keys that
    differ in one field have different paths unless the digests of the
    two values collide, or the field is the range end and both values
    are absent or empty. *)
Theorem get_cache_path_same_iff (self : DiskPrerenderedCacheClass)
    (id1 id2 ref1 ref2 : string) (end1 end2 : option string)
    (media1 media2 tree1 tree2 : string) :
  get_cache_path self id1 ref1 end1 media1 tree1
  = get_cache_path self id2 ref2 end2 media2 tree2
  <->
  Sha1.hexdigest id1 = Sha1.hexdigest id2
  /\ safe_filename tree1 = safe_filename tree2
  /\ safe_filename ref1 = safe_filename ref2
  /\ end_parts end1 = end_parts end2
  /\ safe_filename media1 = safe_filename media2.
Proof.
  split.
  - unfold get_cache_path, path_div. intros H.
    apply split_last_slash in H; try apply has_slash_filename.
    destruct H as [Hdir Hfn].
    apply append_inv_head in Hdir. apply (append_inv_head "/") in Hdir.
    apply sha_subfolders_inj in Hdir.
    apply filename_inj in Hfn. unfold filename_parts in Hfn.
    cbn [app] in Hfn.
    apply cons_eq_inv in Hfn. destruct Hfn as [Ht Hfn].
    apply cons_eq_inv in Hfn. destruct Hfn as [Hr Hrest].
    apply app_inj_tail in Hrest. destruct Hrest as [He Hm].
    now repeat split.
  - intros (Hid & Ht & Hr & He & Hm).
    apply get_cache_path_digests; [ exact Hid | ].
    unfold filename_parts. now rewrite Ht, Hr, He, Hm.
Qed.

(** C7, as stated, fails: an absent range end and an empty one are two
    different values of the field, and the path is the same. *)
Lemma get_cache_path_absent_and_empty_end :
  (None : option string) <> Some ""
  /\ get_cache_path DiskPrerenderedCache "ms001" "p1" None "html" "default"
     = get_cache_path DiskPrerenderedCache "ms001" "p1" (Some "") "html" "default".
Proof. split; [ discriminate | vm_compute; reflexivity ]. Qed.

(** ** The store *)

(** C5: the claim fails on the code.  [save_cache] creates the parent
    directories before it enters its [try] block, so a failure there is
    not caught: the call raises [OSError] to its caller, and nothing is
    written. *)
Theorem save_cache_raises_when_mkdir_fails (d : Disk)
    (self : DiskPrerenderedCacheClass) (identifier ref : string)
    (end_ : option string) (media tree content : string) (w : world) :
  mkdir_fails d (parent (get_cache_path self identifier ref end_ media tree))
  = true ->
  save_cache d self identifier ref end_ media tree content w
  = (Raise OSError, w).
Proof.
  intros H. unfold save_cache, bind, mkdir_p. now rewrite H.
Qed.

Lemma save_cache_raises_when_mkdir_fails_witness :
  mkdir_fails read_only (parent p1_html) = true
  /\ save_cache read_only DiskPrerenderedCache "ms001" "p1" None "html"
                "default" "<p/>" empty_cache
     = (Raise OSError, empty_cache).
Proof.
  split; [ reflexivity | ].
  apply save_cache_raises_when_mkdir_fails. reflexivity.
Defined.

(** Once the directories exist, a failure to open or to write the file
    is swallowed, as the claim says. *)
Lemma save_cache_swallows_write_errors (d : Disk)
    (self : DiskPrerenderedCacheClass) (identifier ref : string)
    (end_ : option string) (media tree content : string) (w : world) :
  mkdir_fails d (parent (get_cache_path self identifier ref end_ media tree))
  = false ->
  fst (save_cache d self identifier ref end_ media tree content w) = Ok tt.
Proof.
  intros Hm.
  destruct (open_fails d (get_cache_path self identifier ref end_ media tree))
    eqn:Ho.
  - now rewrite save_cache_open_fails.
  - destruct (write_fails d (get_cache_path self identifier ref end_ media tree))
      eqn:Hw.
    + now rewrite save_cache_write_fails.
    + now rewrite save_cache_ok.
Qed.

(** C6: the claim fails on the code.  A cache file that holds valid JSON
    which is not an object (a list, a number, a string, [null]) passes
    [json.load]; [data.get] then raises [AttributeError], which the
    [except] clause does not name, so the error reaches the caller. *)
Theorem get_cache_raises_on_non_object (self : DiskPrerenderedCacheClass)
    (c : Collection) (ref : string) (end_ : option string)
    (media tree : string) (w : world) (v : json) :
  files w (get_cache_path self (identifier c) ref end_ media tree)
  = Some (Json v) ->
  (forall members, v <> JObj members) ->
  fst (get_cache self c ref end_ media tree w) = Raise AttributeError.
Proof.
  intros Hf Hv. rewrite get_cache_eq. cbn [fst]. rewrite Hf.
  destruct v; try reflexivity. now destruct (Hv members).
Qed.

Lemma get_cache_raises_on_non_object_witness :
  fst (get_cache DiskPrerenderedCache ms001 "p1" None "html" "default"
                 (one_file p1_html (Json (JArr []))))
  = Raise AttributeError.
Proof.
  apply (get_cache_raises_on_non_object _ _ _ _ _ _ _ (JArr [])).
  - vm_compute. reflexivity.
  - discriminate.
Defined.

(** The same holds of a file that is not valid UTF-8. *)
Lemma get_cache_raises_on_bad_utf8 (self : DiskPrerenderedCacheClass)
    (c : Collection) (ref : string) (end_ : option string)
    (media tree : string) (w : world) :
  files w (get_cache_path self (identifier c) ref end_ media tree)
  = Some BadUtf8 ->
  fst (get_cache self c ref end_ media tree w) = Raise UnicodeDecodeError.
Proof. intros Hf. rewrite get_cache_eq. cbn [fst]. now rewrite Hf. Qed.

(** The cases the claim lists and the code handles: an absent file, an
    unreadable one, text that is not JSON and an object without a
    [content] member are all a miss. *)
Lemma get_cache_miss (self : DiskPrerenderedCacheClass)
    (c : Collection) (ref : string) (end_ : option string)
    (media tree : string) (w : world) :
  let found := files w (get_cache_path self (identifier c) ref end_ media tree) in
  found = None \/ found = Some Unreadable
  \/ (exists text, found = Some (NotJson text))
  \/ (exists members, found = Some (Json (JObj members))
                      /\ members_find members "content" = None) ->
  fst (get_cache self c ref end_ media tree w) = Ok JNull.
Proof.
  intros found H. rewrite get_cache_eq. cbn [fst]. fold found.
  destruct H as [-> | [-> | [[text ->] | [members [-> Hm]]]]]; try reflexivity.
  unfold read_content, members_get. now rewrite Hm.
Qed.

(** C9, as amended.  [save_cache] writes in place: once the directory
    is there it opens the file of the key itself for writing, which
    cuts it to nothing, and then dumps the envelope into it; there is no
    temporary file and no rename.  Between the two steps the path holds
    an empty file whatever it held before, and when the write fails
    that empty file is what stays; when the write succeeds the events
    are the creation of the directory, the opening and the dump, all at
    the path of the key. *)
Theorem save_cache_writes_in_place (d : Disk)
    (self : DiskPrerenderedCacheClass) (identifier ref : string)
    (end_ : option string) (media tree content : string) (w : world) :
  let path := get_cache_path self identifier ref end_ media tree in
  let cut := extend w [Mkdir (parent path); OpenW path] in
  mkdir_fails d (parent path) = false ->
  open_fails d path = false ->
  save_cache d self identifier ref end_ media tree content w
  = try_except (dump d path content) io_error (ret tt) cut
  /\ files cut path = Some (NotJson "")
  /\ (write_fails d path = false ->
      new_events (save_cache d self identifier ref end_ media tree content) w
      = [Mkdir (parent path); OpenW path; Dump path content])
  /\ (write_fails d path = true ->
      save_cache d self identifier ref end_ media tree content w = (Ok tt, cut)).
Proof.
  intros path cut Hm Ho. repeat split.
  - destruct (write_fails d path) eqn:Hw.
    + rewrite save_cache_write_fails by assumption.
      unfold try_except, dump. now rewrite Hw.
    + rewrite save_cache_ok by assumption.
      unfold try_except, dump. rewrite Hw.
      change ((put_file path (envelope content) ;; emit (Dump path content)) cut)
        with (Ok tt, extend cut [Dump path content]).
      unfold cut. now rewrite extend_extend.
  - unfold cut, extend, replay. cbn [files fold_left apply_event].
    unfold update. now rewrite String.eqb_refl.
  - intros Hw. eapply new_events_extend. now apply save_cache_ok.
  - intros Hw. now apply save_cache_write_fails.
Qed.

Lemma save_cache_writes_in_place_witness :
  files (one_file p1_html (envelope "<p>old</p>")) p1_html
  = Some (envelope "<p>old</p>")
  /\ files (snd (save_cache full DiskPrerenderedCache "ms001" "p1" None "html"
                            "default" "<p>new</p>"
                            (one_file p1_html (envelope "<p>old</p>"))))
           p1_html
     = Some (NotJson "").
Proof.
  split; [ vm_compute; reflexivity | ].
  destruct (save_cache_writes_in_place full DiskPrerenderedCache "ms001" "p1"
              None "html" "default" "<p>new</p>"
              (one_file p1_html (envelope "<p>old</p>")) eq_refl eq_refl)
    as (_ & Hcut & _ & Hfail).
  rewrite (Hfail eq_refl). exact Hcut.
Defined.

(** C9, as stated, fails: the write is not atomic.  On a disk that fills
    up, [save_cache] over a key that holds content returns normally
    after two events, the creation of the directory and the opening of
    the file of the key itself, and leaves at the path a file that is
    neither the old content, nor the new one, nor absent. *)
Lemma save_cache_leaves_a_truncated_file :
  let before := one_file p1_html (envelope "<p>old</p>") in
  let save :=
    save_cache full DiskPrerenderedCache "ms001" "p1" None "html" "default"
               "<p>new</p>" in
  files before p1_html = Some (envelope "<p>old</p>")
  /\ fst (save before) = Ok tt
  /\ new_events save before = [Mkdir (parent p1_html); OpenW p1_html]
  /\ files (snd (save before)) p1_html = Some (NotJson "")
  /\ files (snd (save before)) p1_html <> Some (envelope "<p>old</p>")
  /\ files (snd (save before)) p1_html <> Some (envelope "<p>new</p>")
  /\ files (snd (save before)) p1_html <> None.
Proof. vm_compute. repeat split; try reflexivity; discriminate. Qed.

(** ** The read path *)

Lemma extend_log_only (w : world) (es : list event) :
  Forall (fun e => is_cache_write e = false \/ exists d, e = Mkdir d) es ->
  files (extend w es) = files w.
Proof.
  intros H. unfold extend, replay. cbn [files]. generalize (files w).
  induction H as [ | e es He _ IH]; intros fs; cbn [fold_left];
    [ reflexivity | ].
  rewrite IH. destruct He as [He | [d ->]]; [ | reflexivity ].
  now destruct e.
Qed.

Lemma get_xml_passage_as_string_eq (E : Env) (c : Collection) (ref : string)
    (end_ : option string) (tree : string) (w : world) :
  get_xml_passage_as_string E c ref end_ tree w
  = (Ok (get_passage E c ref end_ tree),
     extend w [Extract (identifier c) ref end_ tree]).
Proof. reflexivity. Qed.

(** What [get_xml_passage_or_cache] does, by what it finds at the path
    of the base passage. *)
Lemma get_xml_passage_or_cache_eq (E : Env) (c : Collection) (ref : string)
    (end_ : option string) (tree : string) (w : world) :
  let path :=
    get_cache_path (cache E) (identifier c) ref end_ "application/xml" tree in
  let passage := get_passage E c ref end_ tree in
  get_xml_passage_or_cache E c ref end_ tree w
  = if use_disk_cache E then
      match read_content (verbose (cache E)) (files w path) with
      | Ok v =>
          if json_truthy v then (Ok v, extend w [CacheRead path])
          else (Ok (JStr passage),
                extend w [CacheRead path; Extract (identifier c) ref end_ tree])
      | Raise e => (Raise e, extend w [CacheRead path])
      end
    else (Ok (JStr passage), extend w [Extract (identifier c) ref end_ tree]).
Proof.
  intros path passage. unfold get_xml_passage_or_cache.
  destruct (use_disk_cache E).
  - unfold bind at 1. rewrite get_cache_eq. fold path.
    destruct (read_content _ _) as [v | e]; [ | reflexivity ].
    destruct (json_truthy v); [ reflexivity | ].
    unfold bind. rewrite get_xml_passage_as_string_eq.
    unfold ret. now rewrite extend_extend.
  - unfold bind. rewrite get_xml_passage_as_string_eq. reflexivity.
Qed.

(** C1: the claim fails on the code.  On a miss
    [get_xml_passage_or_cache] extracts the passage and returns it, and
    it stores nothing: the only events are the lookup and the
    extraction, and the cache directory is as it was.  The same holds of
    the request for the default media type that the view serves through
    it. *)
Theorem get_xml_passage_or_cache_miss_stores_nothing (E : Env)
    (c : Collection) (ref : string) (end_ : option string) (tree : string)
    (tr : Transformer) (w : world) (v : json) :
  let path :=
    get_cache_path (cache E) (identifier c) ref end_ "application/xml" tree in
  let passage := get_passage E c ref end_ tree in
  let lookup_and_extract :=
    [CacheRead path; Extract (identifier c) ref end_ tree] in
  use_disk_cache E = true ->
  read_content (verbose (cache E)) (files w path) = Ok v ->
  json_truthy v = false ->
  get_xml_passage_or_cache E c ref end_ tree w
  = (Ok (JStr passage), extend w lookup_and_extract)
  /\ serve_passage E c ref end_ tree DEFAULT_MEDIA_TYPE tr w
     = (Ok (Resp (JStr passage) 200 "application/xml"),
        extend w lookup_and_extract)
  /\ files (extend w lookup_and_extract) = files w
  /\ count is_cache_write lookup_and_extract = 0.
Proof.
  intros path passage events Huse Hread Hfalsy.
  assert (H : get_xml_passage_or_cache E c ref end_ tree w
              = (Ok (JStr passage), extend w events)).
  { rewrite get_xml_passage_or_cache_eq. fold path.
    now rewrite Huse, Hread, Hfalsy. }
  repeat split.
  - exact H.
  - unfold serve_passage. rewrite String.eqb_refl. cbn [negb].
    unfold bind. now rewrite H.
Qed.

Lemma get_xml_passage_or_cache_miss_stores_nothing_witness :
  let request :=
    custom_document_view (site wrapping healthy) (Some "ms001") (Some "p1")
                         None None None None wrapping in
  files (snd (request empty_cache)) p1_xml = None
  /\ count is_extract (new_events request (snd (request empty_cache))) = 1.
Proof.
  destruct (get_xml_passage_or_cache_miss_stores_nothing
              (site wrapping healthy) ms001 "p1" None "default" wrapping
              empty_cache JNull eq_refl eq_refl eq_refl)
    as (_ & Hserve & Hfiles & _).
  split.
  - change (custom_document_view (site wrapping healthy) (Some "ms001")
              (Some "p1") None None None None wrapping empty_cache)
      with (serve_passage (site wrapping healthy) ms001 "p1" None "default"
              DEFAULT_MEDIA_TYPE wrapping empty_cache).
    rewrite Hserve. cbn [snd]. now rewrite Hfiles.
  - vm_compute. reflexivity.
Defined.

(** ** Validation in [custom_document_view] *)

(** C3: the claim fails on the code.  With no reference and no range the
    view skips the test of the tree ([if ref or start or end:]), and the
    next statement, [nav.paths[tree]], raises [KeyError] for a tree the
    navigation does not have: the caller gets an exception, not a
    client-side response.  The cache is not touched. *)
Theorem custom_document_view_unknown_tree_no_reference (E : Env)
    (res : string) (ref start end_ tree media : option string)
    (tr : Transformer) (c : Collection) (nav : Navigation) (w : world) :
  truthy (Some res) = true ->
  find (fun c => identifier c =? res) (collections (db E)) = Some c ->
  find (fun n => (collection_id n =? coll_id c)%Z) (navigations (db E))
  = Some nav ->
  truthy ref = false -> truthy start = false -> truthy end_ = false ->
  match py_or tree (default_tree c) with
  | Some t => assoc (paths nav) t = None
  | None => True
  end ->
  custom_document_view E (Some res) ref start end_ tree media tr w
  = (Raise KeyError, w).
Proof.
  intros Hres Hc Hnav Hr Hs He Htree.
  unfold custom_document_view. rewrite Hres, Hc, Hnav. cbn [negb].
  unfold forbidden_combination. rewrite Hr, Hs, He. cbn [orb].
  unfold bind, paths_index.
  destruct (py_or tree (default_tree c)) as [t | ]; [ | reflexivity ].
  now rewrite Htree.
Qed.

Lemma custom_document_view_unknown_tree_no_reference_witness :
  custom_document_view (site wrapping healthy) (Some "ms001") None None None
                       (Some "appendix") None wrapping empty_cache
  = (Raise KeyError, empty_cache).
Proof.
  apply (custom_document_view_unknown_tree_no_reference
           (site wrapping healthy) "ms001" None None None (Some "appendix")
           None wrapping ms001 nav001 empty_cache);
    reflexivity.
Defined.

(** The other requests of the claim are answered as it says, and the
    world is as it was: a tree that the navigation does not have, given
    with a reference or a range end; a reference that the tree does not
    have; a range with an end point that the tree does not have. *)
Section Rejected.

Variables (E : Env) (res : string) (ref start end_ tree media : option string)
          (tr : Transformer) (c : Collection) (nav : Navigation) (w : world).
Hypothesis Hres : truthy (Some res) = true.
Hypothesis Hc :
  find (fun c => identifier c =? res) (collections (db E)) = Some c.
Hypothesis Hnav :
  find (fun n => (collection_id n =? coll_id c)%Z) (navigations (db E))
  = Some nav.

Lemma custom_document_view_unknown_tree :
  truthy ref || truthy start || truthy end_ = true ->
  has_key (references nav) (py_or tree (default_tree c)) = false ->
  exists message,
    custom_document_view E (Some res) ref start end_ tree media tr w
    = (Ok (Msg4xx message None), w).
Proof.
  intros Hsome Hkey.
  unfold custom_document_view. rewrite Hres, Hc, Hnav. cbn [negb].
  unfold forbidden_combination. rewrite Hsome, Hkey. cbn [negb].
  eexists. reflexivity.
Qed.

Lemma custom_document_view_unknown_reference (t : string)
    (valid : list string) :
  py_or tree (default_tree c) = Some t ->
  has_key (references nav) (Some t) = true ->
  assoc (paths nav) t = Some valid ->
  truthy ref = true -> truthy start = false -> truthy end_ = false ->
  opt_mem ref valid = false ->
  exists message,
    custom_document_view E (Some res) ref start end_ tree media tr w
    = (Ok (Msg4xx message (Some 404%Z)), w).
Proof.
  intros Ht Hkey Hpaths Hr Hs He Hmem.
  unfold custom_document_view. rewrite Hres, Hc, Hnav. cbn [negb].
  unfold forbidden_combination. rewrite Ht, Hkey, Hr, Hs, He.
  cbn [negb orb andb]. unfold bind, paths_index. rewrite Hpaths.
  unfold ret. rewrite Hmem. cbn [negb orb andb].
  eexists. reflexivity.
Qed.

Lemma custom_document_view_unknown_range (t : string)
    (valid : list string) :
  py_or tree (default_tree c) = Some t ->
  has_key (references nav) (Some t) = true ->
  assoc (paths nav) t = Some valid ->
  truthy ref = false -> truthy start = true -> truthy end_ = true ->
  opt_mem start valid && opt_mem end_ valid = false ->
  exists message,
    custom_document_view E (Some res) ref start end_ tree media tr w
    = (Ok (Msg4xx message (Some 404%Z)), w).
Proof.
  intros Ht Hkey Hpaths Hr Hs He Hmem.
  unfold custom_document_view. rewrite Hres, Hc, Hnav. cbn [negb].
  unfold forbidden_combination. rewrite Ht, Hkey, Hr, Hs, He.
  cbn [negb orb andb]. unfold bind, paths_index. rewrite Hpaths.
  unfold ret. rewrite <- negb_andb, Hmem. cbn [negb].
  eexists. reflexivity.
Qed.

End Rejected.

(** ** Serving a passage *)

Lemma save_cache_writable (d : Disk) (self : DiskPrerenderedCacheClass)
    (identifier ref : string) (end_ : option string) (media tree content : string)
    (w : world) :
  let path := get_cache_path self identifier ref end_ media tree in
  writable d path = true ->
  save_cache d self identifier ref end_ media tree content w
  = (Ok tt, extend w (save_events path content)).
Proof.
  intros path H. unfold writable in H.
  apply andb_prop in H. destruct H as [H Hw].
  apply andb_prop in H. destruct H as [Hm Ho].
  apply negb_true_iff in Hm, Ho, Hw. now apply save_cache_ok.
Qed.

Lemma files_after_save (w : world) (es : list event) (path content : string) :
  files (extend w (es ++ save_events path content)) path
  = Some (envelope content).
Proof.
  unfold extend. cbn [files]. rewrite replay_app. unfold save_events, replay.
  cbn [fold_left apply_event]. unfold update. now rewrite String.eqb_refl.
Qed.

Lemma get_transformed_eq (E : Env) (media : string) (c : Collection)
    (xml : string) (tr : Transformer) (w : world) :
  fromstring E xml = Ok tt ->
  get_transformed E media c (JStr xml) tr w
  = (Ok (transform tr media c xml),
     extend w [Transform media (identifier c) xml]).
Proof. intros H. unfold get_transformed. now rewrite H. Qed.

(** What the extractor renders, [ET.fromstring] parses. *)
Lemma get_transformed_passage (E : Env) (media : string) (c c' : Collection)
    (ref : string) (end_ : option string) (tree : string) (tr : Transformer)
    (w : world) :
  get_transformed E media c (JStr (get_passage E c' ref end_ tree)) tr w
  = (Ok (transform tr media c (get_passage E c' ref end_ tree)),
     extend w [Transform media (identifier c) (get_passage E c' ref end_ tree)]).
Proof. apply get_transformed_eq, fromstring_get_passage. Qed.

Lemma read_envelope (verbose : bool) (content : string) :
  read_content verbose (Some (envelope content)) = Ok (JStr content).
Proof.
  unfold read_content, envelope, members_get.
  cbn [members_find]. rewrite String.eqb_refl.
  cbn [json_truthy has_len negb]. now rewrite andb_false_r.
Qed.

(** A request for a single, valid reference is served by
    [serve_passage]. *)
Lemma custom_document_view_valid_reference (E : Env) (res r t : string)
    (tree media : option string) (tr : Transformer) (c : Collection)
    (nav : Navigation) (valid : list string) :
  truthy (Some res) = true ->
  find (fun c => identifier c =? res) (collections (db E)) = Some c ->
  find (fun n => (collection_id n =? coll_id c)%Z) (navigations (db E))
  = Some nav ->
  truthy (Some r) = true ->
  py_or tree (default_tree c) = Some t ->
  has_key (references nav) (Some t) = true ->
  assoc (paths nav) t = Some valid ->
  mem r valid = true ->
  custom_document_view E (Some res) (Some r) None None tree media tr
  = serve_passage E c r None t
      match py_or media (Some DEFAULT_MEDIA_TYPE) with
      | Some m => m
      | None => DEFAULT_MEDIA_TYPE
      end tr.
Proof.
  intros Hres Hc Hnav Hr Ht Hkey Hpaths Hmem.
  unfold custom_document_view. rewrite Hres, Hc, Hnav. cbn [negb].
  unfold forbidden_combination. rewrite Ht, Hkey, Hr.
  change (truthy None) with false.
  cbn [negb orb andb]. unfold bind at 1, paths_index. rewrite Hpaths.
  unfold ret. cbn [opt_mem]. rewrite Hmem. cbn [negb andb].
  change (py_or (Some r) None) with (if truthy (Some r) then Some r else None).
  now rewrite Hr.
Qed.

Section Serving.

Variables (E : Env) (c : Collection) (ref : string) (end_ : option string)
          (tree media : string) (tr : Transformer).

Let xml_path : string :=
  get_cache_path (cache E) (identifier c) ref end_ "application/xml" tree.
Let media_path : string :=
  get_cache_path (cache E) (identifier c) ref end_ media tree.
Let passage : string := get_passage E c ref end_ tree.
Let content : string := get_data (transform tr media c passage).

Hypothesis Hmedia : (media =? DEFAULT_MEDIA_TYPE) = false.
Hypothesis Huse : use_disk_cache E = true.

Lemma serve_passage_hit (w : world) (v : json) :
  read_content (verbose (cache E)) (files w media_path) = Ok v ->
  json_truthy v = true ->
  serve_passage E c ref end_ tree media tr w
  = (Ok (Resp v 200 (mapping_get tr media)), extend w [CacheRead media_path]).
Proof.
  intros Hread Htrue. unfold serve_passage. rewrite Hmedia, Huse. cbn [negb].
  unfold bind. rewrite get_cache_eq. fold media_path.
  now rewrite Hread, Htrue.
Qed.

Lemma serve_passage_miss (w : world) (v : json) :
  read_content (verbose (cache E)) (files w media_path) = Ok v ->
  json_truthy v = false ->
  serve_passage E c ref end_ tree media tr w
  = transform_and_save E c ref end_ tree media tr
      (extend w [CacheRead media_path]).
Proof.
  intros Hread Hfalse. unfold serve_passage. rewrite Hmedia, Huse. cbn [negb].
  unfold bind. rewrite get_cache_eq. fold media_path.
  now rewrite Hread, Hfalse.
Qed.

(** Generation when the base passage is not cached either. *)
Lemma transform_and_save_fresh (w : world) (v : json) :
  read_content (verbose (cache E)) (files w xml_path) = Ok v ->
  json_truthy v = false ->
  writable (disk E) media_path = true ->
  transform_and_save E c ref end_ tree media tr w
  = (Ok (Resp (JStr content) (status_code (transform tr media c passage))
              (mimetype (transform tr media c passage))),
     extend w ([CacheRead xml_path; Extract (identifier c) ref end_ tree;
                Transform media (identifier c) passage]
                 ++ save_events media_path content)).
Proof.
  intros Hread Hfalse Hwritable. unfold transform_and_save.
  unfold bind at 1. rewrite get_xml_passage_or_cache_eq. fold xml_path.
  rewrite Huse, Hread, Hfalse.
  unfold bind at 1. rewrite get_transformed_passage. fold passage.
  unfold bind. rewrite save_cache_writable by exact Hwritable.
  fold media_path content. unfold ret. now rewrite !extend_extend.
Qed.

End Serving.

(** C2, as amended.  With the disk cache enabled and the file of the
    key writable, starting from a cache that holds neither the
    transformed artifact nor the base passage, a request for a valid
    reference with a media type other than the default one, whose
    transformed content is not empty, causes exactly one extraction and
    one transformation; a second identical request causes neither: it
    reads the transformed artifact and returns its content at once. *)
Theorem read_through_once (E : Env) (res r t m : string)
    (tree : option string) (tr : Transformer) (c : Collection)
    (nav : Navigation) (valid : list string) (w : world) :
  let request :=
    custom_document_view E (Some res) (Some r) None None tree (Some m) tr in
  let xml_path :=
    get_cache_path (cache E) (identifier c) r None "application/xml" t in
  let media_path := get_cache_path (cache E) (identifier c) r None m t in
  let response := transform tr m c (get_passage E c r None t) in
  let content := get_data response in
  truthy (Some res) = true ->
  find (fun c => identifier c =? res) (collections (db E)) = Some c ->
  find (fun n => (collection_id n =? coll_id c)%Z) (navigations (db E))
  = Some nav ->
  truthy (Some r) = true ->
  py_or tree (default_tree c) = Some t ->
  has_key (references nav) (Some t) = true ->
  assoc (paths nav) t = Some valid ->
  mem r valid = true ->
  truthy (Some m) = true ->
  (m =? DEFAULT_MEDIA_TYPE) = false ->
  use_disk_cache E = true ->
  writable (disk E) media_path = true ->
  files w xml_path = None ->
  files w media_path = None ->
  content <> "" ->
  let w1 := snd (request w) in
  count is_extract (new_events request w) = 1
  /\ count is_transform (new_events request w) = 1
  /\ fst (request w)
     = Ok (Resp (JStr content) (status_code response) (mimetype response))
  /\ new_events request w1 = [CacheRead media_path]
  /\ count is_extract (new_events request w1) = 0
  /\ count is_transform (new_events request w1) = 0
  /\ fst (request w1) = Ok (Resp (JStr content) 200 (mapping_get tr m)).
Proof.
  intros request xml_path media_path response content Hres Hc Hnav Hr Ht Hkey
         Hpaths Hmem Hm Hmedia Huse Hwritable Hxml Hmiss Hcontent w1.
  assert (Hserve : request = serve_passage E c r None t m tr).
  { unfold request.
    rewrite (custom_document_view_valid_reference E res r t tree (Some m) tr
               c nav valid) by assumption.
    unfold py_or. now rewrite Hm. }
  assert (H1 : request w
               = (Ok (Resp (JStr content) (status_code response)
                           (mimetype response)),
                  extend w ([CacheRead media_path]
                              ++ [CacheRead xml_path;
                                  Extract (identifier c) r None t;
                                  Transform m (identifier c)
                                            (get_passage E c r None t)]
                              ++ save_events media_path content))).
  { rewrite Hserve.
    rewrite (serve_passage_miss E c r None t m tr Hmedia Huse w JNull);
      [ | fold media_path; now rewrite Hmiss | reflexivity ].
    rewrite (transform_and_save_fresh E c r None t m tr Huse _ JNull);
      [ | cbn [files]; fold xml_path; unfold extend, replay;
          cbn [files fold_left apply_event]; now rewrite Hxml
        | reflexivity | exact Hwritable ].
    now rewrite extend_extend. }
  assert (H2 : request w1
               = (Ok (Resp (JStr content) 200 (mapping_get tr m)),
                  extend w1 [CacheRead media_path])).
  { rewrite Hserve. apply (serve_passage_hit E c r None t m tr Hmedia Huse).
    - fold media_path. unfold w1. rewrite H1. cbn [snd].
      rewrite app_assoc, files_after_save. apply read_envelope.
    - cbn [json_truthy]. now apply negb_true_iff, String.eqb_neq. }
  rewrite (new_events_extend _ _ _ _ H1), (new_events_extend _ _ _ _ H2).
  rewrite H1, H2. cbn [fst].
  repeat split; reflexivity.
Qed.

Lemma read_through_once_witness :
  let request :=
    custom_document_view (site wrapping healthy) (Some "ms001") (Some "p1")
                         None None None (Some "html") wrapping in
  count is_extract (new_events request empty_cache) = 1
  /\ count is_transform (new_events request empty_cache) = 1
  /\ count is_extract (new_events request (snd (request empty_cache))) = 0
  /\ count is_transform (new_events request (snd (request empty_cache))) = 0.
Proof.
  assert (Hcontent : get_data (transform wrapping "html" ms001
                            (get_passage (site wrapping healthy) ms001 "p1"
                                         None "default")) <> "")
    by (vm_compute; discriminate).
  destruct (read_through_once (site wrapping healthy) "ms001" "p1" "default"
              "html" None wrapping ms001 nav001 ["p1"; "p2"] empty_cache
              eq_refl eq_refl eq_refl eq_refl eq_refl eq_refl eq_refl eq_refl
              eq_refl eq_refl eq_refl eq_refl eq_refl eq_refl Hcontent)
    as (H1 & H2 & _ & _ & H3 & H4 & _).
  intros request.
  split; [ exact H1 | split; [ exact H2 | split; [ exact H3 | exact H4 ] ] ].
Defined.

(** C2, as stated, fails: a stylesheet with no output gives an artifact
    whose content is the empty string, which the lookup of the second
    request takes for a miss, so the second identical request extracts
    and transforms again. *)
Lemma second_request_repeats_empty_artifact :
  let request :=
    custom_document_view (site silent healthy) (Some "ms001") (Some "p1")
                         None None None (Some "html") silent in
  let w1 := snd (request empty_cache) in
  files empty_cache p1_html = None
  /\ files w1 p1_html = Some (envelope "")
  /\ count is_extract (new_events request empty_cache) = 1
  /\ count is_transform (new_events request empty_cache) = 1
  /\ count is_extract (new_events request w1) = 1
  /\ count is_transform (new_events request w1) = 1.
Proof. vm_compute. repeat split; reflexivity. Qed.

(** ** Empty content *)

Lemma read_empty_content (verbose : bool) (members : list (string * json)) :
  members_get members "content" = JStr "" ->
  read_content verbose (Some (Json (JObj members))) = Ok (JStr "").
Proof. intros H. unfold read_content. now rewrite H. Qed.

(** C10, as amended.  When the envelope stored at a key holds the empty
    string, the callers of [get_cache] that test the truth of what it
    returns go on exactly as when the file is absent.
    [get_xml_passage_or_cache] extracts the passage.  The view of a
    transformed artifact whose base passage is absent or empty too
    looks both up, extracts, transforms, saves the result and returns
    the response of the engine.  The batch generator, with
    [force_generate] false, extracts the base passage, saves it and
    counts it.  The test of the batch generator for a media type is
    [is None]: a transformed artifact whose content is empty is found,
    and is neither transformed nor saved nor counted. *)
Theorem empty_content_is_a_miss (E : Env) (res r t m : string)
    (end_ : option string) (tree : option string) (tr : Transformer)
    (c : Collection) (nav : Navigation) (valid : list string)
    (media_types : list string) (rendered_content : nat)
    (base_content : json) (w : world) :
  let xml_path :=
    get_cache_path (cache E) (identifier c) r None "application/xml" t in
  let media_path := get_cache_path (cache E) (identifier c) r None m t in
  let passage := get_passage E c r None t in
  let response := transform tr m c passage in
  (use_disk_cache E = true ->
   stored (files w)
          (get_cache_path (cache E) (identifier c) r end_ "application/xml" t)
          "" ->
   get_xml_passage_or_cache E c r end_ t w
   = (Ok (JStr (get_passage E c r end_ t)),
      extend w [CacheRead (get_cache_path (cache E) (identifier c) r end_
                                          "application/xml" t);
                Extract (identifier c) r end_ t]))
  /\ (truthy (Some res) = true ->
      find (fun c => identifier c =? res) (collections (db E)) = Some c ->
      find (fun n => (collection_id n =? coll_id c)%Z) (navigations (db E))
      = Some nav ->
      truthy (Some r) = true ->
      py_or tree (default_tree c) = Some t ->
      has_key (references nav) (Some t) = true ->
      assoc (paths nav) t = Some valid ->
      mem r valid = true ->
      truthy (Some m) = true ->
      (m =? DEFAULT_MEDIA_TYPE) = false ->
      use_disk_cache E = true ->
      stored (files w) media_path "" ->
      files w xml_path = None \/ stored (files w) xml_path "" ->
      writable (disk E) media_path = true ->
      custom_document_view E (Some res) (Some r) None None tree (Some m) tr w
      = (Ok (Resp (JStr (get_data response)) (status_code response)
                  (mimetype response)),
         extend w ([CacheRead media_path; CacheRead xml_path;
                    Extract (identifier c) r None t;
                    Transform m (identifier c) passage]
                     ++ save_events media_path (get_data response))))
  /\ (stored (files w) xml_path "" ->
      writable (disk E) xml_path = true ->
      prerender_ref E (Some c) t media_types false {| ref_identifier := r |}
                    rendered_content w
      = prerender_media_types E c t r (JStr passage) false media_types
          (rendered_content + 1)
          (extend w ([CacheRead xml_path; Extract (identifier c) r None t]
                       ++ save_events xml_path passage)))
  /\ (stored (files w) media_path "" ->
      prerender_media_types E c t r base_content false [m] rendered_content w
      = (Ok rendered_content, extend w [CacheRead media_path])).
Proof.
  intros xml_path media_path passage response.
  assert (Hread : forall path,
             stored (files w) path "" ->
             read_content (verbose (cache E)) (files w path) = Ok (JStr "")).
  { intros path (members & Hfile & Hempty). rewrite Hfile.
    now apply read_empty_content. }
  split; [ | split; [ | split ] ].
  - intros Huse Hstored. rewrite get_xml_passage_or_cache_eq.
    now rewrite Huse, (Hread _ Hstored).
  - intros Hres Hc Hnav Hr Ht Hkey Hpaths Hmem Hm Hmedia Huse Hstored Hbase
           Hwritable.
    rewrite (custom_document_view_valid_reference E res r t tree (Some m) tr
               c nav valid Hres Hc Hnav Hr Ht Hkey Hpaths Hmem).
    unfold py_or. rewrite Hm.
    rewrite (serve_passage_miss E c r None t m tr Hmedia Huse w (JStr ""));
      [ | exact (Hread _ Hstored) | reflexivity ].
    assert (Hxml : exists v,
               read_content (verbose (cache E)) (files w xml_path) = Ok v
               /\ json_truthy v = false).
    { destruct Hbase as [Hnone | Hempty].
      - exists JNull. now rewrite Hnone.
      - exists (JStr ""). split; [ exact (Hread _ Hempty) | reflexivity ]. }
    destruct Hxml as (v & Hv & Hfalsy).
    rewrite (transform_and_save_fresh E c r None t m tr Huse _ v);
      [ | rewrite (extend_log_only w [CacheRead _]);
          [ exact Hv | repeat constructor; now left ]
        | exact Hfalsy | exact Hwritable ].
    now rewrite extend_extend.
  - intros Hstored Hwritable.
    unfold prerender_ref. cbn [ref_identifier attr].
    unfold bind at 1. unfold ret at 1.
    unfold bind at 1. rewrite get_cache_eq.
    change (get_cache_path (cache E) (identifier c) r None DEFAULT_MEDIA_TYPE t)
      with xml_path.
    rewrite (Hread _ Hstored). cbn [json_truthy String.eqb negb orb].
    unfold bind at 1. rewrite get_xml_passage_as_string_eq.
    unfold bind at 1.
    change (get_cache_path (cache E) (identifier c) r None DEFAULT_MEDIA_TYPE t)
      with xml_path in Hwritable |- *.
    rewrite (save_cache_writable (disk E) (cache E) (identifier c) r None
               DEFAULT_MEDIA_TYPE t) by exact Hwritable.
    now rewrite !extend_extend.
  - intros Hstored. cbn [prerender_media_types].
    unfold bind at 1. rewrite get_cache_eq. fold media_path.
    rewrite (Hread _ Hstored). cbn [is_none orb]. unfold ret.
    reflexivity.
Qed.

Lemma empty_content_is_a_miss_witness :
  let w := one_file p1_html (envelope "") in
  let w' := one_file p1_xml (envelope "") in
  custom_document_view (site silent healthy) (Some "ms001") (Some "p1") None
                       None None (Some "html") silent w
  = (Ok (Resp (JStr "") 200 "text/html"),
     extend w ([CacheRead p1_html; CacheRead p1_xml;
                Extract "ms001" "p1" None "default";
                Transform "html" "ms001" "<TEI n='ms001/default/p1'/>"]
                 ++ save_events p1_html ""))
  /\ fst (prerender_ref (site wrapping healthy) (Some ms001) "default" []
                        false {| ref_identifier := "p1" |} 0 w')
     = Ok 1
  /\ prerender_media_types (site wrapping healthy) ms001 "default" "p1"
                           (JStr "<TEI/>") false ["html"] 0 w
     = (Ok 0, extend w [CacheRead p1_html]).
Proof.
  intros w w'.
  assert (Hhtml : stored (files w) p1_html "").
  { exists [("content", JStr "")]. split; vm_compute; reflexivity. }
  assert (Hxml : stored (files w') p1_xml "").
  { exists [("content", JStr "")]. split; vm_compute; reflexivity. }
  assert (Hnone : files w p1_xml = None) by (vm_compute; reflexivity).
  split; [ | split ].
  - exact (proj1 (proj2 (empty_content_is_a_miss (site silent healthy) "ms001"
                           "p1" "default" "html" None None silent ms001
                           nav001 ["p1"; "p2"] [] 0 JNull w))
             eq_refl eq_refl eq_refl eq_refl eq_refl eq_refl eq_refl eq_refl
             eq_refl eq_refl eq_refl Hhtml (or_introl Hnone) eq_refl).
  - rewrite (proj1 (proj2 (proj2 (empty_content_is_a_miss
                                    (site wrapping healthy) "ms001" "p1"
                                    "default" "html" None None wrapping ms001
                                    nav001 ["p1"; "p2"] [] 0 JNull w')))
               Hxml eq_refl).
    reflexivity.
  - exact (proj2 (proj2 (proj2 (empty_content_is_a_miss
                                  (site wrapping healthy) "ms001" "p1"
                                  "default" "html" None None wrapping ms001
                                  nav001 ["p1"; "p2"] [] 0 (JStr "<TEI/>") w)))
             Hhtml).
Defined.

(** C10, as stated, fails: not every caller of [get_cache] takes the
    empty string for a miss, and what is generated again is not always
    extracted again.  In a cache that holds the base passage of [p1]
    and, for [html], an artifact whose content is empty, the batch
    generator with [force_generate] false finds every artifact and
    generates none, the empty one included; and the view, asked for
    that artifact, transforms the cached passage again without
    extracting it. *)
Lemma empty_artifact_is_not_extracted_again :
  let w :=
    {| files := write_all [(p1_xml, "<TEI n='1'/>"); (p1_html, "");
                           (p2_xml, "<TEI n='2'/>"); (p2_html, "<div>2</div>")]
                          (fun _ => None);
       log := [] |} in
  let run :=
    _prerender_collection (site silent healthy) (1%Z, ["html"], false) in
  let request :=
    custom_document_view (site silent healthy) (Some "ms001") (Some "p1")
                         None None None (Some "html") silent in
  files w p1_html = Some (envelope "")
  /\ (fst (run w) = Ok 0
      /\ count is_extract (new_events run w) = 0
      /\ count is_transform (new_events run w) = 0
      /\ count is_cache_write (new_events run w) = 0)
  /\ (count is_extract (new_events request w) = 0
      /\ count is_transform (new_events request w) = 1).
Proof. vm_compute. repeat split; reflexivity. Qed.

(** ** The batch generator *)

Lemma readable_replay (verbose : bool) (es : list event)
    (fs : string -> option file) :
  readable verbose fs -> readable verbose (replay es fs).
Proof.
  revert fs. induction es as [ | e es IH]; intros fs H; [ exact H | ].
  unfold replay. cbn [fold_left]. apply IH. clear IH.
  destruct e; try exact H; intros q; cbn [apply_event]; unfold update;
    destruct (q =? path); try apply H.
  - now exists JNull.
  - exists (JStr content). apply read_envelope.
Qed.

Lemma readable_extend (verbose : bool) (w : world) (es : list event) :
  readable verbose (files w) -> readable verbose (files (extend w es)).
Proof. apply readable_replay. Qed.

Lemma ok_eq {A} (a b : A) (w w' : world) :
  a = b -> w = w' -> (Ok a, w) = (Ok b, w').
Proof. now intros -> ->. Qed.

Section Forced.

Variables (E : Env) (c : Collection) (media_types : list string).
Hypothesis Hdisk : forall path, writable (disk E) path = true.

Lemma prerender_media_types_forced (tree ref : string) (ms : list string)
    (n : nat) (w : world) :
  readable (verbose (cache E)) (files w) ->
  prerender_media_types E c tree ref (JStr (get_passage E c ref None tree))
                        true ms n w
  = (Ok (n + List.length ms),
     extend w (flat_map (forced_media_events E c tree ref) ms)).
Proof.
  revert n w. induction ms as [ | m ms IH]; intros n w Hread.
  - cbn [prerender_media_types flat_map List.length]. unfold ret.
    now rewrite extend_nil, Nat.add_0_r.
  - cbn [prerender_media_types flat_map List.length].
    unfold bind at 1. rewrite get_cache_eq.
    destruct (Hread (get_cache_path (cache E) (identifier c) ref None m tree))
      as [v ->].
    rewrite orb_true_r.
    unfold bind at 1. rewrite get_transformed_passage.
    unfold bind at 1. rewrite save_cache_writable by apply Hdisk.
    rewrite !extend_extend. rewrite IH by now apply readable_extend.
    rewrite extend_extend. unfold forced_media_events at 2.
    unfold artifact_path, rendering.
    apply ok_eq; [ lia | ]. now rewrite <- !app_assoc.
Qed.

Lemma prerender_ref_forced (tree : string) (ref : RefDescriptor)
    (n : nat) (w : world) :
  readable (verbose (cache E)) (files w) ->
  prerender_ref E (Some c) tree media_types true ref n w
  = (Ok (n + S (List.length media_types)),
     extend w (forced_ref_events E c media_types (tree, ref_identifier ref))).
Proof.
  intros Hread. unfold prerender_ref. cbn [attr].
  unfold bind at 1. unfold ret at 1.
  unfold bind at 1. rewrite get_cache_eq.
  destruct (Hread (get_cache_path (cache E) (identifier c)
                     (ref_identifier ref) None DEFAULT_MEDIA_TYPE tree))
    as [v ->].
  rewrite orb_true_r.
  unfold bind at 1. rewrite get_xml_passage_as_string_eq.
  unfold bind at 1. rewrite save_cache_writable by apply Hdisk.
  rewrite !extend_extend.
  rewrite prerender_media_types_forced by now apply readable_extend.
  rewrite extend_extend. unfold forced_ref_events, artifact_path.
  cbn [fst snd]. apply ok_eq; [ lia | ]. now rewrite <- !app_assoc.
Qed.

Lemma prerender_refs_forced (tree : string) (refs : list RefDescriptor)
    (n : nat) (w : world) :
  readable (verbose (cache E)) (files w) ->
  prerender_refs E (Some c) tree media_types true refs n w
  = (Ok (n + List.length refs * S (List.length media_types)),
     extend w (flat_map (forced_ref_events E c media_types)
                 (map (fun r => (tree, ref_identifier r)) refs))).
Proof.
  revert n w. induction refs as [ | r refs IH]; intros n w Hread.
  - cbn [prerender_refs map flat_map List.length]. unfold ret.
    now rewrite extend_nil, Nat.add_0_r.
  - cbn [prerender_refs map flat_map List.length].
    unfold bind. rewrite prerender_ref_forced by exact Hread.
    rewrite IH by now apply readable_extend.
    rewrite extend_extend. apply ok_eq; [ lia | reflexivity ].
Qed.

Lemma prerender_trees_forced (trees : list (string * list RefDescriptor))
    (n : nat) (w : world) :
  readable (verbose (cache E)) (files w) ->
  prerender_trees E (Some c) media_types true trees n w
  = (Ok (n + List.length
               (flat_map (fun item =>
                            map (fun r => (fst item, ref_identifier r))
                                (snd item)) trees)
             * S (List.length media_types)),
     extend w (flat_map (forced_ref_events E c media_types)
                 (flat_map (fun item =>
                              map (fun r => (fst item, ref_identifier r))
                                  (snd item)) trees))).
Proof.
  revert n w. induction trees as [ | [tree refs] trees IH]; intros n w Hread.
  - cbn [prerender_trees flat_map List.length]. unfold ret.
    now rewrite extend_nil, Nat.add_0_r.
  - cbn [prerender_trees flat_map fst snd].
    unfold bind. rewrite prerender_refs_forced by exact Hread.
    rewrite IH by now apply readable_extend.
    rewrite extend_extend, flat_map_app, length_app, length_map.
    apply ok_eq; [ lia | reflexivity ].
Qed.

End Forced.

(** *** What the events of a forced generation leave on disk *)

Lemma write_all_app (a b : list (string * string)) (fs : string -> option file) :
  write_all (a ++ b) fs = write_all b (write_all a fs).
Proof. apply fold_left_app. Qed.

Lemma replay_ext (es : list event) (fs fs' : string -> option file) :
  (forall q, fs q = fs' q) -> forall q, replay es fs q = replay es fs' q.
Proof.
  revert fs fs'. induction es as [ | e es IH]; intros fs fs' H; [ exact H | ].
  unfold replay. cbn [fold_left]. apply IH. intros q.
  destruct e; cbn [apply_event]; unfold update; try apply H;
    now rewrite H.
Qed.

Lemma write_all_ext (jobs : list (string * string))
    (fs fs' : string -> option file) :
  (forall q, fs q = fs' q) -> forall q, write_all jobs fs q = write_all jobs fs' q.
Proof.
  revert fs fs'. induction jobs as [ | j jobs IH]; intros fs fs' H; [ exact H | ].
  unfold write_all. cbn [fold_left]. apply IH. intros q.
  unfold update. now rewrite H.
Qed.

Lemma replay_save_events (path content : string) (fs : string -> option file)
    (q : string) :
  replay (save_events path content) fs q = update fs path (envelope content) q.
Proof.
  unfold save_events, replay. cbn [fold_left apply_event]. unfold update.
  now destruct (q =? path).
Qed.

Lemma write_all_notin (jobs : list (string * string))
    (fs : string -> option file) (q : string) :
  ~ In q (map fst jobs) -> write_all jobs fs q = fs q.
Proof.
  revert fs. induction jobs as [ | [p s] jobs IH]; intros fs H; [ reflexivity | ].
  unfold write_all. cbn [fold_left fst snd]. fold (write_all jobs).
  rewrite IH by (intros Hin; apply H; now right).
  unfold update. destruct (q =? p) eqn:Hq; [ | reflexivity ].
  apply String.eqb_eq in Hq. subst. destruct H. now left.
Qed.

(** When no path is written twice, each artifact is what its path holds
    in the end. *)
Lemma write_all_nodup (jobs : list (string * string))
    (fs : string -> option file) (path content : string) :
  NoDup (map fst jobs) -> In (path, content) jobs ->
  write_all jobs fs path = Some (envelope content).
Proof.
  revert fs. induction jobs as [ | [p s] jobs IH]; intros fs Hnd Hin;
    [ destruct Hin | ].
  cbn [map fst] in Hnd. apply NoDup_cons_iff in Hnd. destruct Hnd as [Hp Hnd].
  unfold write_all. cbn [fold_left fst snd]. fold (write_all jobs).
  destruct Hin as [Heq | Hin].
  - injection Heq as -> ->. rewrite write_all_notin by exact Hp.
    unfold update. now rewrite String.eqb_refl.
  - now apply IH.
Qed.

Section Forced_files.

Variables (E : Env) (c : Collection) (media_types : list string).

Lemma replay_forced_media (tree ref : string) (ms : list string)
    (fs : string -> option file) (q : string) :
  replay (flat_map (forced_media_events E c tree ref) ms) fs q
  = write_all (map (fun m => (artifact_path E c tree ref m,
                              rendering E c tree ref m)) ms) fs q.
Proof.
  revert fs. induction ms as [ | m ms IH]; intros fs; [ reflexivity | ].
  cbn [flat_map map]. rewrite replay_app.
  unfold write_all. cbn [fold_left fst snd]. fold (write_all
    (map (fun m => (artifact_path E c tree ref m, rendering E c tree ref m)) ms)).
  rewrite <- IH. apply replay_ext. intros q'.
  unfold forced_media_events. rewrite replay_app.
  now rewrite replay_save_events.
Qed.

Lemma replay_forced_ref (tr : string * string) (fs : string -> option file)
    (q : string) :
  replay (forced_ref_events E c media_types tr) fs q
  = write_all (ref_artifacts E c media_types tr) fs q.
Proof.
  unfold forced_ref_events, ref_artifacts.
  rewrite !replay_app, replay_forced_media.
  unfold write_all at 2. cbn [fold_left fst snd].
  apply write_all_ext. intros q'. now rewrite replay_save_events.
Qed.

Lemma replay_forced (trs : list (string * string))
    (fs : string -> option file) (q : string) :
  replay (flat_map (forced_ref_events E c media_types) trs) fs q
  = write_all (flat_map (ref_artifacts E c media_types) trs) fs q.
Proof.
  revert fs. induction trs as [ | tr trs IH]; intros fs; [ reflexivity | ].
  cbn [flat_map]. rewrite replay_app, write_all_app, <- IH.
  apply replay_ext. intros q'. apply replay_forced_ref.
Qed.

Lemma extractions_forced (trs : list (string * string)) :
  filter is_extract (flat_map (forced_ref_events E c media_types) trs)
  = map (fun tr => Extract (identifier c) (snd tr) None (fst tr)) trs.
Proof.
  induction trs as [ | tr trs IH]; [ reflexivity | ].
  cbn [flat_map map]. rewrite filter_app, IH. f_equal.
  unfold forced_ref_events. rewrite !filter_app.
  cbn [filter is_extract save_events app].
  assert (H : forall ms,
             filter is_extract
               (flat_map (forced_media_events E c (fst tr) (snd tr)) ms) = []).
  { induction ms as [ | m ms IHm]; [ reflexivity | ].
    cbn [flat_map]. now rewrite filter_app, IHm. }
  now rewrite H.
Qed.

Lemma transformations_forced (trs : list (string * string)) :
  filter is_transform (flat_map (forced_ref_events E c media_types) trs)
  = flat_map (fun tr =>
                map (fun m => Transform m (identifier c)
                                (get_passage E c (snd tr) None (fst tr)))
                    media_types) trs.
Proof.
  induction trs as [ | tr trs IH]; [ reflexivity | ].
  cbn [flat_map]. rewrite filter_app, IH. f_equal.
  unfold forced_ref_events. rewrite !filter_app.
  cbn [filter is_transform save_events app].
  generalize media_types. intros ms.
  induction ms as [ | m ms IHm]; [ reflexivity | ].
  cbn [flat_map map]. rewrite filter_app, IHm. reflexivity.
Qed.

Lemma length_artifacts (nav : Navigation) :
  List.length (artifacts E c media_types nav)
  = List.length (tree_refs nav) * S (List.length media_types).
Proof.
  unfold artifacts. induction (tree_refs nav) as [ | tr trs IH];
    [ reflexivity | ].
  cbn [flat_map List.length]. rewrite length_app, IH.
  unfold ref_artifacts. cbn [List.length]. rewrite length_map. lia.
Qed.

End Forced_files.

(** C8, as amended.  On a disk on which nothing fails and over cache
    files that [get_cache] can read, a pass of the batch generator over
    a document with [force_generate] true looks every artifact up, and
    whatever it finds it extracts the base passage of every (tree,
    reference) pair and transforms it for every requested media type,
    saves each result at the path of its key, and counts every
    artifact.  When the paths of the artifacts of the document are
    pairwise different, each path holds in the end the envelope of the
    content just produced, whatever it held before. *)
Theorem forced_generation_replaces (E : Env) (media_types : list string)
    (navigation_id : Z) (nav : Navigation) (c : Collection) (w : world) :
  let run := _prerender_collection E (navigation_id, media_types, true) in
  let events := flat_map (forced_ref_events E c media_types) (tree_refs nav) in
  find (fun n => (nav_id n =? navigation_id)%Z) (navigations (db E)) = Some nav ->
  find (fun c => (coll_id c =? collection_id nav)%Z) (collections (db E))
  = Some c ->
  (forall path, writable (disk E) path = true) ->
  readable (verbose (cache E)) (files w) ->
  run w = (Ok (List.length (artifacts E c media_types nav)), extend w events)
  /\ filter is_extract events
     = map (fun tr => Extract (identifier c) (snd tr) None (fst tr))
           (tree_refs nav)
  /\ filter is_transform events
     = flat_map (fun tr =>
                   map (fun m => Transform m (identifier c)
                                   (get_passage E c (snd tr) None (fst tr)))
                       media_types)
                (tree_refs nav)
  /\ (NoDup (map fst (artifacts E c media_types nav)) ->
      forall path content,
        In (path, content) (artifacts E c media_types nav) ->
        files (snd (run w)) path = Some (envelope content)).
Proof.
  intros run events Hnav Hc Hdisk Hread.
  assert (Hrun : run w = (Ok (List.length (artifacts E c media_types nav)),
                          extend w events)).
  { unfold run, _prerender_collection. rewrite Hnav. cbn [attr].
    unfold bind, ret. rewrite Hc.
    rewrite (prerender_trees_forced E c media_types Hdisk) by exact Hread.
    rewrite length_artifacts. reflexivity. }
  repeat split.
  - exact Hrun.
  - apply extractions_forced.
  - apply transformations_forced.
  - intros Hnd path content Hin. rewrite Hrun. cbn [snd].
    unfold extend. cbn [files]. unfold events. rewrite replay_forced.
    now apply write_all_nodup.
Qed.

Lemma forced_generation_replaces_witness :
  let run :=
    _prerender_collection (site wrapping healthy) (1%Z, ["html"], true) in
  files hollow p1_html = Some (envelope "<div>1</div>")
  /\ fst (run hollow) = Ok 4
  /\ files (snd (run hollow)) p1_html
     = Some (envelope "<div class='html'><TEI n='ms001/default/p1'/></div>").
Proof.
  assert (Hread : readable false (files hollow)).
  { intros q. unfold hollow, write_all, update. cbn [files fold_left fst snd].
    repeat match goal with
           | |- context [if ?b then _ else _] =>
               destruct b; [ eexists; apply read_envelope | ]
           end.
    now exists JNull. }
  destruct (forced_generation_replaces (site wrapping healthy) ["html"] 1%Z
              nav001 ms001 hollow eq_refl eq_refl (fun _ => eq_refl) Hread)
    as (Hrun & _ & _ & Hfiles).
  intros run. split; [ vm_compute; reflexivity | ]. split.
  - unfold run. now rewrite Hrun.
  - apply Hfiles.
    + vm_compute.
      repeat (constructor; [ cbn [In]; intuition discriminate | ]).
      constructor.
    + vm_compute. right. left. reflexivity.
Defined.

(** C8, as stated, fails.  On a disk that fills up, the forced pass
    over a cache that holds every artifact extracts, transforms and
    counts all four, and stores none: every file is cut to nothing, so
    the previous content is lost and the new one is not there.  And
    over a cache file that holds [[]], the lookup that precedes the
    generation raises [AttributeError]: the artifact of that key is
    neither transformed nor saved. *)
Lemma forced_generation_without_replacement :
  let run :=
    _prerender_collection (site wrapping full) (1%Z, ["html"], true) in
  let run' :=
    _prerender_collection (site wrapping healthy) (1%Z, ["html"], true) in
  let broken := one_file p1_html (Json (JArr [])) in
  (files brimming p1_html = Some (envelope "<div>1</div>")
   /\ fst (run brimming) = Ok 4
   /\ count is_extract (new_events run brimming) = 2
   /\ count is_transform (new_events run brimming) = 2
   /\ files (snd (run brimming)) p1_xml = Some (NotJson "")
   /\ files (snd (run brimming)) p1_html = Some (NotJson ""))
  /\ (fst (run' broken) = Raise AttributeError
      /\ count is_transform (new_events run' broken) = 0
      /\ files (snd (run' broken)) p1_html = Some (Json (JArr []))).
Proof. vm_compute. repeat split; reflexivity. Qed.

(** *** A pass over a warmed corpus *)

Lemma read_stored (verbose : bool) (fs : string -> option file)
    (path s : string) :
  stored fs path s -> read_content verbose (fs path) = Ok (JStr s).
Proof.
  intros (members & -> & Hget). unfold read_content. rewrite Hget.
  cbn [has_len negb]. now rewrite andb_false_r.
Qed.

Lemma reads_log_only (w : world) (es : list event) :
  Forall (fun e => is_cache_read e = true) es -> files (extend w es) = files w.
Proof.
  intros H. apply extend_log_only.
  eapply Forall_impl; [ | exact H ]. intros e He. left. now destruct e.
Qed.

Lemma reads_count (p : event -> bool) (es : list event) :
  (forall e, is_cache_read e = true -> p e = false) ->
  Forall (fun e => is_cache_read e = true) es -> count p es = 0.
Proof.
  intros Hp H. unfold count. induction H as [ | e es He _ IH]; [ reflexivity | ].
  cbn [filter]. now rewrite (Hp e He).
Qed.

Lemma lookup_events_reads (E : Env) (c : Collection)
    (media_types : list string) (tr : string * string) :
  Forall (fun e => is_cache_read e = true) (lookup_events E c media_types tr).
Proof.
  unfold lookup_events. constructor; [ reflexivity | ].
  apply Forall_forall. intros e He. apply in_map_iff in He.
  now destruct He as (m & <- & _).
Qed.

Lemma flat_map_reads {A} (f : A -> list event) (l : list A) :
  (forall a, Forall (fun e => is_cache_read e = true) (f a)) ->
  Forall (fun e => is_cache_read e = true) (flat_map f l).
Proof.
  intros H. induction l as [ | a l IH]; [ constructor | ].
  cbn [flat_map]. apply Forall_app. now split.
Qed.

Section Warm.

Variables (E : Env) (c : Collection) (media_types : list string).

Lemma prerender_media_types_warm (tree ref : string) (base : json)
    (ms : list string) (n : nat) (w : world) :
  (forall m, In m ms ->
             exists s, stored (files w) (artifact_path E c tree ref m) s) ->
  prerender_media_types E c tree ref base false ms n w
  = (Ok n, extend w (map (fun m => CacheRead (artifact_path E c tree ref m)) ms)).
Proof.
  revert w. induction ms as [ | m ms IH]; intros w H.
  - cbn [prerender_media_types map]. unfold ret. now rewrite extend_nil.
  - cbn [prerender_media_types map].
    unfold bind at 1. rewrite get_cache_eq.
    destruct (H m (or_introl eq_refl)) as [s Hs].
    unfold artifact_path in Hs.
    rewrite (read_stored _ _ _ _ Hs). cbn [is_none orb].
    rewrite IH by (intros m' Hm'; apply H; now right).
    now rewrite extend_extend.
Qed.

Lemma prerender_ref_warm (tree : string) (ref : RefDescriptor) (n : nat)
    (w : world) :
  warmed_ref E c media_types (files w) (tree, ref_identifier ref) ->
  prerender_ref E (Some c) tree media_types false ref n w
  = (Ok n, extend w (lookup_events E c media_types (tree, ref_identifier ref))).
Proof.
  intros [(s & Hs & Hne) Hmedia]. cbn [fst snd] in Hs, Hmedia.
  unfold prerender_ref. cbn [attr].
  unfold bind at 1. unfold ret at 1.
  unfold bind at 1. rewrite get_cache_eq.
  unfold artifact_path in Hs. rewrite (read_stored _ _ _ _ Hs).
  cbn [json_truthy]. apply String.eqb_neq in Hne. rewrite Hne. cbn [negb orb].
  rewrite prerender_media_types_warm by exact Hmedia.
  now rewrite extend_extend.
Qed.

Lemma prerender_refs_warm (tree : string) (refs : list RefDescriptor)
    (n : nat) (w : world) :
  (forall r, In r refs ->
             warmed_ref E c media_types (files w) (tree, ref_identifier r)) ->
  prerender_refs E (Some c) tree media_types false refs n w
  = (Ok n, extend w (flat_map (lookup_events E c media_types)
                       (map (fun r => (tree, ref_identifier r)) refs))).
Proof.
  revert w. induction refs as [ | r refs IH]; intros w H.
  - cbn [prerender_refs map flat_map]. unfold ret. now rewrite extend_nil.
  - cbn [prerender_refs map flat_map].
    unfold bind. rewrite prerender_ref_warm by (apply H; now left).
    rewrite IH.
    + now rewrite extend_extend.
    + intros r' Hr'. rewrite reads_log_only by apply lookup_events_reads.
      apply H. now right.
Qed.

Lemma prerender_trees_warm (trees : list (string * list RefDescriptor))
    (n : nat) (w : world) :
  (forall tr,
      In tr (flat_map (fun item => map (fun r => (fst item, ref_identifier r))
                                       (snd item)) trees) ->
      warmed_ref E c media_types (files w) tr) ->
  prerender_trees E (Some c) media_types false trees n w
  = (Ok n, extend w (flat_map (lookup_events E c media_types)
                       (flat_map (fun item =>
                                    map (fun r => (fst item, ref_identifier r))
                                        (snd item)) trees))).
Proof.
  revert w. induction trees as [ | [tree refs] trees IH]; intros w H.
  - cbn [prerender_trees flat_map]. unfold ret. now rewrite extend_nil.
  - cbn [prerender_trees flat_map fst snd].
    unfold bind. rewrite prerender_refs_warm.
    + rewrite IH.
      * now rewrite extend_extend, flat_map_app.
      * intros tr Htr.
        rewrite reads_log_only
          by (apply flat_map_reads; intros a; apply lookup_events_reads).
        apply H. cbn [flat_map fst snd]. apply in_or_app. now right.
    + intros r Hr. apply H. cbn [flat_map fst snd]. apply in_or_app. left.
      apply in_map_iff. now exists r.
Qed.

End Warm.

Lemma _prerender_collection_warm (E : Env) (media_types : list string)
    (navigation_id : Z) (w : world) :
  warmed E media_types (files w) ->
  In navigation_id (map nav_id (navigations (db E))) ->
  exists reads,
    _prerender_collection E (navigation_id, media_types, false) w
    = (Ok 0, extend w reads)
    /\ Forall (fun e => is_cache_read e = true) reads.
Proof.
  intros Hwarm Hid. apply in_map_iff in Hid. destruct Hid as (n0 & Hn0 & Hin0).
  destruct (find (fun n => (nav_id n =? navigation_id)%Z) (navigations (db E)))
    as [nav | ] eqn:Hfind.
  - destruct (find_some _ _ Hfind) as [Hin _].
    destruct (Hwarm nav Hin) as (c & Hc & Hrefs).
    exists (flat_map (lookup_events E c media_types) (tree_refs nav)). split.
    + unfold _prerender_collection. rewrite Hfind.
      cbn [attr]. unfold bind, ret. rewrite Hc.
      now apply prerender_trees_warm.
    + apply flat_map_reads. intros a. apply lookup_events_reads.
  - apply (find_none _ _ Hfind) in Hin0. cbn beta in Hin0.
    rewrite Hn0, Z.eqb_refl in Hin0. discriminate.
Qed.

Lemma collect_warm (E : Env) (media_types : list string) (ids : list Z)
    (mss pages : nat) (w : world) :
  warmed E media_types (files w) ->
  (forall id, In id ids -> In id (map nav_id (navigations (db E)))) ->
  exists reads,
    collect E (map (fun id => (id, media_types, false)) ids) mss pages w
    = (Ok (mss + List.length ids, pages), extend w reads)
    /\ Forall (fun e => is_cache_read e = true) reads.
Proof.
  revert mss pages w. induction ids as [ | id ids IH];
    intros mss pages w Hwarm Hids.
  - exists []. split; [ | constructor ].
    cbn [collect map List.length]. unfold ret.
    now rewrite extend_nil, Nat.add_0_r.
  - destruct (_prerender_collection_warm E media_types id w Hwarm)
      as (reads1 & Hrun1 & Hreads1); [ apply Hids; now left | ].
    destruct (IH (mss + 1) (pages + 0) (extend w reads1))
      as (reads2 & Hrun2 & Hreads2).
    + now rewrite reads_log_only.
    + intros id' Hid'. apply Hids. now right.
    + exists (reads1 ++ reads2)%list. split; [ | now apply Forall_app ].
      cbn [collect map List.length]. unfold bind. rewrite Hrun1, Hrun2.
      rewrite extend_extend. apply ok_eq; [ | reflexivity ].
      f_equal; lia.
Qed.

(** C4, as amended.  When every reference of every document has a
    cached base passage whose content is not empty and a cached artifact
    for every requested media type, a pass of the batch generator with
    [force_generate] false, over the documents in any order, writes
    nothing: it only looks the artifacts up, calls neither engine,
    counts no artifact and leaves the cache directory as it was. *)
Theorem warmed_pass_writes_nothing (E : Env) (media_types : list string)
    (ids : list Z) (w : world) :
  let run := collect E (map (fun id => (id, media_types, false)) ids) 0 0 in
  warmed E media_types (files w) ->
  (forall id, In id ids -> In id (map nav_id (navigations (db E)))) ->
  fst (run w) = Ok (List.length ids, 0)
  /\ files (snd (run w)) = files w
  /\ count is_cache_write (new_events run w) = 0
  /\ count is_extract (new_events run w) = 0
  /\ count is_transform (new_events run w) = 0.
Proof.
  intros run Hwarm Hids.
  destruct (collect_warm E media_types ids 0 0 w Hwarm Hids)
    as (reads & Hrun & Hreads).
  fold run in Hrun. rewrite (new_events_extend _ _ _ _ Hrun), Hrun.
  cbn [fst snd]. repeat split.
  - now apply reads_log_only.
  - apply reads_count; [ | exact Hreads ]. now intros [].
  - apply reads_count; [ | exact Hreads ]. now intros [].
  - apply reads_count; [ | exact Hreads ]. now intros [].
Qed.

Lemma brimming_is_warmed :
  warmed (site wrapping healthy) ["html"] (files brimming).
Proof.
  intros nav [<- | []]. exists ms001. split; [ reflexivity | ].
  intros tr [<- | [<- | []]]; split.
  - exists "<TEI n='1'/>". split; [ | discriminate ].
    exists [("content", JStr "<TEI n='1'/>")].
    split; vm_compute; reflexivity.
  - intros m [<- | []]. exists "<div>1</div>".
    exists [("content", JStr "<div>1</div>")].
    split; vm_compute; reflexivity.
  - exists "<TEI n='2'/>". split; [ | discriminate ].
    exists [("content", JStr "<TEI n='2'/>")].
    split; vm_compute; reflexivity.
  - intros m [<- | []]. exists "<div>2</div>".
    exists [("content", JStr "<div>2</div>")].
    split; vm_compute; reflexivity.
Qed.

Lemma warmed_pass_writes_nothing_witness :
  let run :=
    collect (site wrapping healthy)
            (map (fun id => (id, ["html"], false)) [1%Z]) 0 0 in
  fst (run brimming) = Ok (1, 0)
  /\ files (snd (run brimming)) = files brimming
  /\ count is_cache_write (new_events run brimming) = 0.
Proof.
  destruct (warmed_pass_writes_nothing (site wrapping healthy) ["html"] [1%Z]
              brimming brimming_is_warmed)
    as (H1 & H2 & H3 & _).
  - intros id [<- | []]. now left.
  - intros run. split; [ exact H1 | split; [ exact H2 | exact H3 ] ].
Defined.

(** C4, as stated, fails: in [hollow] every reference of the document
    has a cached entry for the base passage and for the requested media
    type, and the pass with [force_generate] false still extracts the
    base passage of [p1], whose cached content is empty, writes it and
    counts it. *)
Lemma warmed_pass_rewrites_empty_entry :
  let run :=
    collect (site wrapping healthy)
            (map (fun id => (id, ["html"], false)) [1%Z]) 0 0 in
  (has_entry (files hollow) p1_xml /\ has_entry (files hollow) p1_html
   /\ has_entry (files hollow) p2_xml /\ has_entry (files hollow) p2_html)
  /\ fst (run hollow) = Ok (1, 1)
  /\ count is_extract (new_events run hollow) = 1
  /\ count is_cache_write (new_events run hollow) = 3
  /\ files (snd (run hollow)) p1_xml <> files hollow p1_xml.
Proof.
  intros run. split; [ | split; [ | split; [ | split ] ] ].
  - repeat split.
    + exists "", [("content", JStr "")]. split; vm_compute; reflexivity.
    + exists "<div>1</div>", [("content", JStr "<div>1</div>")].
      split; vm_compute; reflexivity.
    + exists "<TEI n='2'/>", [("content", JStr "<TEI n='2'/>")].
      split; vm_compute; reflexivity.
    + exists "<div>2</div>", [("content", JStr "<div>2</div>")].
      split; vm_compute; reflexivity.
  - vm_compute. reflexivity.
  - vm_compute. reflexivity.
  - vm_compute. reflexivity.
  - vm_compute. discriminate.
Qed.

(* ================================================================== *)
(** * Further properties of the cache and of its callers               *)
(* ================================================================== *)

(** ** The store: round trip and frame *)

(** What is saved under a key is what a lookup of the key returns,
    whatever the file held before. *)
Theorem save_then_get (d : Disk) (self : DiskPrerenderedCacheClass)
    (c : Collection) (ref : string) (end_ : option string)
    (media tree content : string) (w : world) :
  writable d (get_cache_path self (identifier c) ref end_ media tree) = true ->
  fst (get_cache self c ref end_ media tree
         (snd (save_cache d self (identifier c) ref end_ media tree content w)))
  = Ok (JStr content).
Proof.
  intros Hw. rewrite save_cache_writable by exact Hw. cbn [snd].
  rewrite get_cache_eq. cbn [fst].
  pose proof (files_after_save w []
                (get_cache_path self (identifier c) ref end_ media tree)
                content) as H.
  cbn [app] in H. rewrite H. apply read_envelope.
Qed.

Lemma save_then_get_witness :
  fst (get_cache DiskPrerenderedCache ms001 "p1" None "html" "default"
         (snd (save_cache healthy DiskPrerenderedCache "ms001" "p1" None "html"
                          "default" "<p>new</p>"
                          (one_file p1_html (envelope "<p>old</p>")))))
  = Ok (JStr "<p>new</p>").
Proof.
  apply (save_then_get healthy DiskPrerenderedCache ms001). reflexivity.
Defined.

Lemma replay_untouched (es : list event) (fs : string -> option file)
    (q : string) :
  Forall (fun e => match e with
                   | OpenW p | Dump p _ => p <> q
                   | _ => True
                   end) es ->
  replay es fs q = fs q.
Proof.
  intros H. revert fs. induction H as [ | e es He _ IH]; intros fs;
    [ reflexivity | ].
  unfold replay. cbn [fold_left]. fold (replay es (apply_event fs e)).
  rewrite IH. destruct e; try reflexivity; cbn [apply_event]; unfold update;
    (destruct (q =? path) eqn:Hq; [ apply String.eqb_eq in Hq; congruence
                                  | reflexivity ]).
Qed.

(** A save, successful or not, leaves every other file of the cache
    directory as it was. *)
Lemma save_cache_files (d : Disk) (self : DiskPrerenderedCacheClass)
    (identifier ref : string) (end_ : option string)
    (media tree content : string) (w : world) (q : string) :
  q <> get_cache_path self identifier ref end_ media tree ->
  files (snd (save_cache d self identifier ref end_ media tree content w)) q
  = files w q.
Proof.
  intros Hq.
  destruct (mkdir_fails d (parent (get_cache_path self identifier ref end_
                                     media tree))) eqn:Hm.
  - unfold save_cache, bind, mkdir_p. now rewrite Hm.
  - destruct (open_fails d (get_cache_path self identifier ref end_ media tree))
      eqn:Ho; [ now rewrite save_cache_open_fails | ].
    destruct (write_fails d (get_cache_path self identifier ref end_ media tree))
      eqn:Hw;
      [ rewrite save_cache_write_fails by assumption
      | rewrite save_cache_ok by assumption ];
      cbn [snd]; unfold extend; cbn [files]; apply replay_untouched;
      repeat constructor; congruence.
Qed.

(** Saving under one key does not change what a lookup of a key with
    another path returns, whether the save succeeds, fails silently or
    raises. *)
Theorem save_cache_keeps_other_keys (d : Disk)
    (self : DiskPrerenderedCacheClass) (c c' : Collection)
    (ref ref' : string) (end_ end' : option string)
    (media media' tree tree' content : string) (w : world) :
  get_cache_path self (identifier c') ref' end' media' tree'
  <> get_cache_path self (identifier c) ref end_ media tree ->
  fst (get_cache self c' ref' end' media' tree'
         (snd (save_cache d self (identifier c) ref end_ media tree content w)))
  = fst (get_cache self c' ref' end' media' tree' w).
Proof.
  intros Hpath. rewrite !get_cache_eq. cbn [fst].
  now rewrite save_cache_files.
Qed.

Lemma save_cache_keeps_other_keys_witness :
  fst (get_cache DiskPrerenderedCache ms001 "p1" None "html" "default"
         (snd (save_cache healthy DiskPrerenderedCache "ms001" "p2" None "html"
                          "default" "<p>2</p>"
                          (one_file p1_html (envelope "<p>1</p>")))))
  = fst (get_cache DiskPrerenderedCache ms001 "p1" None "html" "default"
           (one_file p1_html (envelope "<p>1</p>"))).
Proof.
  apply (save_cache_keeps_other_keys healthy DiskPrerenderedCache ms001 ms001).
  vm_compute. discriminate.
Defined.

(** ** Key derivation: the shape of a path *)

Lemma parent_append (a f : string) :
  has_slash f = false -> parent (a ++ "/" ++ f) = a.
Proof.
  intros Hf. induction a as [ | c a IH].
  - cbn [append parent]. now rewrite Hf.
  - cbn [append parent]. rewrite has_slash_append. cbn [append has_slash].
    rewrite Ascii.eqb_refl, orb_true_r. cbn in IH. now rewrite IH.
Qed.

(** The directory of an artifact, the one [save_cache] creates, is
    derived from the cache root and the document identifier alone: all
    artifacts of a document, for every reference, range, tree and media
    type, are files of one directory. *)
Theorem get_cache_path_directory (self : DiskPrerenderedCacheClass)
    (identifier ref : string) (end_ : option string) (media tree : string) :
  parent (get_cache_path self identifier ref end_ media tree)
  = path_div (ROOT self) (sha_subfolders self identifier).
Proof.
  unfold get_cache_path. unfold path_div at 1.
  apply parent_append, has_slash_filename.
Qed.

Lemma length_filename (ref : string) (end_ : option string)
    (media tree : string) :
  String.length (String.concat "__" (filename_parts ref end_ media tree)
                   ++ ".prerender")
  = if truthy end_ then 48 else 38.
Proof.
  unfold filename_parts. destruct (end_parts_cases end_) as [He | [e He]].
  - assert (Ht : truthy end_ = false).
    { destruct end_ as [e | ]; [ | reflexivity ]. cbn [end_parts] in He.
      destruct (truthy (Some e)); [ discriminate | reflexivity ]. }
    rewrite He, Ht. cbn [app String.concat].
    rewrite !length_append, !length_safe_filename. reflexivity.
  - assert (Ht : truthy end_ = true).
    { destruct end_ as [e' | ]; [ | discriminate ]. cbn [end_parts] in He.
      destruct (truthy (Some e')); [ reflexivity | discriminate ]. }
    rewrite He, Ht. cbn [app String.concat].
    rewrite !length_append, !length_safe_filename. reflexivity.
Qed.

(** The file name of an artifact has 38 characters, 48 when the key has
    a range end, however long the reference, the tree and the media type
    are. *)
Theorem cache_file_name_length (self : DiskPrerenderedCacheClass)
    (identifier ref : string) (end_ : option string) (media tree : string) :
  String.length (get_cache_path self identifier ref end_ media tree)
  = String.length (parent (get_cache_path self identifier ref end_ media tree))
    + 1 + (if truthy end_ then 48 else 38).
Proof.
  rewrite get_cache_path_directory.
  pose proof (length_filename ref end_ media tree) as Hname.
  unfold get_cache_path.
  set (name := String.concat "__" (filename_parts ref end_ media tree)
                 ++ ".prerender") in *.
  set (dir := path_div (ROOT self) (sha_subfolders self identifier)).
  unfold path_div at 1. rewrite (length_append dir), (length_append "/" name).
  rewrite Hname. cbn [String.length]. lia.
Qed.

(** A key with a range end and a key without one (absent, or empty)
    never name the same file, whatever their other fields are. *)
Theorem range_and_single_paths_differ (self : DiskPrerenderedCacheClass)
    (id1 id2 ref1 ref2 : string) (end1 end2 : option string)
    (media1 media2 tree1 tree2 : string) :
  truthy end1 = true -> truthy end2 = false ->
  get_cache_path self id1 ref1 end1 media1 tree1
  <> get_cache_path self id2 ref2 end2 media2 tree2.
Proof.
  intros H1 H2 Heq. unfold get_cache_path in Heq. unfold path_div at 1 3 in Heq.
  apply split_last_slash in Heq; try apply has_slash_filename.
  destruct Heq as [_ Heq]. apply (f_equal String.length) in Heq.
  rewrite !length_filename, H1, H2 in Heq. discriminate.
Qed.

Lemma range_and_single_paths_differ_witness :
  get_cache_path DiskPrerenderedCache "ms001" "p1" (Some "p2") "html" "default"
  <> get_cache_path DiskPrerenderedCache "ms001" "p1" None "html" "default".
Proof.
  exact (range_and_single_paths_differ DiskPrerenderedCache "ms001" "ms001"
           "p1" "p1" (Some "p2") None "html" "html" "default" "default"
           eq_refl eq_refl).
Defined.

(** ** The digests *)

Lemma hexchar_digit (n : Z) : In (Sha1.hexchar n) Sha1.hex_digits.
Proof.
  unfold Sha1.hexchar. apply nth_In.
  assert (H : (0 <= Z.land n 15 < 16)%Z).
  { change 15%Z with (Z.ones 4). rewrite Z.land_ones by lia.
    apply Z.mod_pos_bound. reflexivity. }
  change (List.length Sha1.hex_digits) with 16. lia.
Qed.

Lemma hex_digits_only (k : nat) (w : Z) :
  Forall (fun c => In c Sha1.hex_digits) (Sha1.hex k w).
Proof.
  induction k as [ | k IH]; cbn [Sha1.hex]; constructor;
    [ apply hexchar_digit | exact IH ].
Qed.

Lemma list_ascii_of_string_of_list (l : list ascii) :
  list_ascii_of_string (string_of_list_ascii l) = l.
Proof. induction l as [ | c l IH]; simpl; [ reflexivity | now rewrite IH ]. Qed.

Lemma substring_chars (P : ascii -> Prop) (n m : nat) (s : string) :
  Forall P (list_ascii_of_string s) ->
  Forall P (list_ascii_of_string (substring n m s)).
Proof.
  revert n m. induction s as [ | c s IH]; intros [ | n] [ | m] H;
    cbn [substring list_ascii_of_string]; try constructor;
    inversion H; subst; auto.
Qed.

(** [short_sha(s, length)] is a string of [length] characters, 40 at
    most, and each of them is a lower-case hexadecimal digit: a name
    that is safe in a file system whatever [s] holds. *)
Theorem short_sha_hex (s : string) (length : nat) :
  String.length (short_sha s length) = Nat.min length 40
  /\ Forall (fun c => In c Sha1.hex_digits)
            (list_ascii_of_string (short_sha s length)).
Proof.
  unfold short_sha. split.
  - now rewrite length_substring_0, length_hexdigest.
  - apply substring_chars. unfold Sha1.hexdigest.
    rewrite list_ascii_of_string_of_list.
    repeat (apply Forall_app; split); apply hex_digits_only.
Qed.

(** ** The shard directories *)

Lemma ends_with_slash_append (a b : string) :
  b <> "" -> ends_with_slash (a ++ b) = ends_with_slash b.
Proof.
  intros Hb. induction a as [ | c a IH]; [ reflexivity | ].
  cbn [append]. rewrite <- IH.
  destruct (a ++ b) as [ | c' r] eqn:Hab; [ | reflexivity ].
  destruct a; [ cbn in Hab; contradiction | discriminate ].
Qed.

Lemma ends_with_slash_has_slash (s : string) :
  has_slash s = false -> ends_with_slash s = false.
Proof.
  induction s as [ | c s IH]; [ reflexivity | ].
  cbn [has_slash]. intros H. apply orb_false_iff in H. destruct H as [Hc Hs].
  destruct s as [ | c' s']; [ exact Hc | ]. now apply IH.
Qed.

Lemma concat_snoc (sep x : string) (l : list string) :
  l <> [] ->
  String.concat sep (l ++ [x]) = String.concat sep l ++ sep ++ x.
Proof.
  induction l as [ | a l IH]; [ congruence | ]. intros _.
  destruct l as [ | b l]; [ reflexivity | ].
  change (String.concat sep ((a :: b :: l) ++ [x]))
    with (a ++ sep ++ String.concat sep ((b :: l) ++ [x])).
  rewrite IH by discriminate.
  change (String.concat sep (a :: b :: l))
    with (a ++ sep ++ String.concat sep (b :: l)).
  now rewrite !append_assoc.
Qed.

Lemma eqb_empty_append (a b : string) : b <> "" -> (a ++ b =? "") = false.
Proof.
  intros Hb. apply String.eqb_neq. intros H.
  destruct a; [ cbn in H; contradiction | discriminate ].
Qed.

Lemma join_step_nonempty (seen : list string) (acc b : string) :
  (seen = [] /\ acc = ""
   \/ seen <> []
      /\ (acc = String.concat "/" seen \/ acc = String.concat "/" seen ++ "/")
      /\ String.concat "/" seen <> ""
      /\ ends_with_slash (String.concat "/" seen) = false) ->
  has_slash b = false -> b <> "" ->
  join_step acc b = String.concat "/" (seen ++ [b])
  /\ String.concat "/" (seen ++ [b]) <> ""
  /\ ends_with_slash (String.concat "/" (seen ++ [b])) = false.
Proof.
  intros Hacc Hb Hne. unfold join_step. rewrite (prefix_slash b Hb).
  destruct Hacc as [[-> ->] | (Hseen & Hacc & Hy & He)].
  - cbn [app String.concat String.eqb orb append].
    repeat split; [ exact Hne | now apply ends_with_slash_has_slash ].
  - rewrite (concat_snoc "/" b seen Hseen).
    assert (Hlast : ends_with_slash (String.concat "/" seen ++ "/" ++ b) = false).
    { rewrite ends_with_slash_append, ends_with_slash_append;
        [ now apply ends_with_slash_has_slash | exact Hne | ].
      destruct b; [ contradiction | discriminate ]. }
    assert (Hnon : String.concat "/" seen ++ "/" ++ b <> "").
    { intros H. destruct (String.concat "/" seen); discriminate. }
    destruct Hacc as [-> | ->].
    + apply String.eqb_neq in Hy. rewrite Hy, He. cbn [orb]. now repeat split.
    + rewrite eqb_empty_append by discriminate.
      rewrite ends_with_slash_append by discriminate.
      cbn [ends_with_slash Ascii.eqb]. rewrite append_assoc.
      change (Ascii.eqb "/" slash) with true. cbn [orb]. now repeat split.
Qed.

Lemma join_step_empty (seen : list string) (acc : string) :
  (seen = [] /\ acc = ""
   \/ seen <> []
      /\ (acc = String.concat "/" seen \/ acc = String.concat "/" seen ++ "/")
      /\ String.concat "/" seen <> ""
      /\ ends_with_slash (String.concat "/" seen) = false) ->
  seen = [] /\ join_step acc "" = ""
  \/ seen <> []
     /\ (join_step acc "" = String.concat "/" seen
         \/ join_step acc "" = String.concat "/" seen ++ "/")
     /\ String.concat "/" seen <> ""
     /\ ends_with_slash (String.concat "/" seen) = false.
Proof.
  intros [[-> ->] | (Hseen & Hacc & Hy & He)]; [ left; now split | right ].
  split; [ exact Hseen | ]. split; [ | now split ]. right.
  unfold join_step. cbn [String.prefix].
  destruct Hacc as [-> | ->].
  - apply String.eqb_neq in Hy. rewrite Hy, He. reflexivity.
  - rewrite eqb_empty_append by discriminate.
    rewrite ends_with_slash_append by discriminate.
    change (ends_with_slash "/") with true. cbn [orb].
    clear. induction (String.concat "/" seen ++ "/") as [ | c s IH];
      [ reflexivity | cbn [append]; now rewrite IH ].
Qed.

Lemma os_path_join_skips_empty (p : list string) (x : string) :
  Forall (fun s => has_slash s = false) p ->
  has_slash x = false -> x <> "" ->
  forall (seen : list string) (acc : string),
    (seen = [] /\ acc = ""
     \/ seen <> []
        /\ (acc = String.concat "/" seen \/ acc = String.concat "/" seen ++ "/")
        /\ String.concat "/" seen <> ""
        /\ ends_with_slash (String.concat "/" seen) = false) ->
    fold_left join_step (p ++ [x])%list acc
    = String.concat "/"
        (seen ++ filter (fun s => negb (s =? "")) p ++ [x])%list.
Proof.
  intros Hp Hx Hne. induction Hp as [ | b p Hb _ IH]; intros seen acc Hacc.
  - cbn [app fold_left filter].
    now destruct (join_step_nonempty seen acc x Hacc Hx Hne) as [-> _].
  - cbn [app fold_left filter]. destruct (b =? "") eqn:Hbe.
    + apply String.eqb_eq in Hbe. subst b. cbn [negb].
      apply IH. exact (join_step_empty seen acc Hacc).
    + apply String.eqb_neq in Hbe. cbn [negb].
      destruct (join_step_nonempty seen acc b Hacc Hb Hbe) as (Hj & Hy & He).
      rewrite (IH (seen ++ [b])%list (join_step acc b)).
      * now rewrite <- app_assoc.
      * right. split; [ now destruct seen | ]. split; [ now left | now split ].
Qed.

Lemma os_path_join_parts (parts : list string) (x : string) :
  Forall (fun s => has_slash s = false) parts ->
  has_slash x = false -> x <> "" ->
  match (parts ++ [x])%list with
  | a :: p => os_path_join a p
  | [] => EmptyString
  end
  = String.concat "/" (filter (fun s => negb (s =? "")) parts ++ [x])%list.
Proof.
  intros Hparts Hx Hne. destruct parts as [ | a p].
  - reflexivity.
  - change ((a :: p) ++ [x])%list with (a :: (p ++ [x]))%list.
    cbv iota. unfold os_path_join.
    inversion Hparts as [ | ? ? Ha Hrest]; subst.
    cbn [filter]. destruct (a =? "") eqn:Hae; cbn [negb].
    + apply String.eqb_eq in Hae. subst a.
      apply (os_path_join_skips_empty p x Hrest Hx Hne [] "").
      left. now split.
    + apply String.eqb_neq in Hae.
      apply (os_path_join_skips_empty p x Hrest Hx Hne [a] a).
      right. split; [ discriminate | ]. split; [ now left | ].
      split; [ exact Hae | now apply ends_with_slash_has_slash ].
Qed.

Lemma hexdigest_nonempty (s : string) : Sha1.hexdigest s <> "".
Proof.
  intros H. pose proof (length_hexdigest s) as Hl. rewrite H in Hl.
  discriminate.
Qed.

Lemma has_slash_slices (w : nat) (sha : string) (levels : list nat) :
  has_slash sha = false ->
  Forall (fun s => has_slash s = false)
         (map (fun i => substring (i * w) w sha) levels).
Proof.
  intros H. apply Forall_forall. intros s Hs. apply in_map_iff in Hs.
  destruct Hs as (i & <- & _). now apply has_slash_substring.
Qed.

(** The shard directories of a document: the slices of the digest that
    are not empty, then the digest itself, separated by slashes.  A
    slice is empty when [CHARS_PER_LEVEL] is 0 or when the level lies
    past the fortieth digit; such a level adds no directory, and with
    [LEVELS] at 0 the digest alone is the directory. *)
Theorem sha_subfolders_levels (self : DiskPrerenderedCacheClass)
    (identifier : string) :
  let sha := Sha1.hexdigest identifier in
  sha_subfolders self identifier
  = String.concat "/"
      (filter (fun s => negb (s =? ""))
              (map (fun i => substring (i * CHARS_PER_LEVEL self)
                                       (CHARS_PER_LEVEL self) sha)
                   (seq 0 (LEVELS self)))
         ++ [sha])%list.
Proof.
  intros sha. unfold sha_subfolders. fold sha.
  apply os_path_join_parts;
    [ apply has_slash_slices | | apply hexdigest_nonempty ];
    apply has_slash_hexdigest.
Qed.

(** With the default three levels of two characters, the directory of a
    document is [d0d1/d2d3/d4d5/<digest>]: 49 characters, for every
    identifier. *)
Theorem sha_subfolders_default (identifier : string) :
  let sha := Sha1.hexdigest identifier in
  sha_subfolders DiskPrerenderedCache identifier
  = substring 0 2 sha ++ "/" ++ substring 2 2 sha ++ "/"
      ++ substring 4 2 sha ++ "/" ++ sha
  /\ String.length (sha_subfolders DiskPrerenderedCache identifier) = 49.
Proof.
  intros sha.
  assert (H : sha_subfolders DiskPrerenderedCache identifier
              = substring 0 2 sha ++ "/" ++ substring 2 2 sha ++ "/"
                  ++ substring 4 2 sha ++ "/" ++ sha).
  { unfold sha_subfolders. fold sha.
    rewrite os_path_join_parts;
      [ | apply has_slash_slices; apply has_slash_hexdigest
        | apply has_slash_hexdigest | apply hexdigest_nonempty ].
    cbn [LEVELS CHARS_PER_LEVEL DiskPrerenderedCache seq map Nat.mul Nat.add].
    pose proof (length_hexdigest identifier) as Hl. fold sha in Hl.
    destruct sha as [ | c0 [ | c1 [ | c2 [ | c3 [ | c4 [ | c5 s]]]]]];
      try discriminate.
    reflexivity. }
  split; [ exact H | ]. rewrite H.
  pose proof (length_hexdigest identifier) as Hl. fold sha in Hl.
  rewrite !length_append, Hl.
  destruct sha as [ | c0 [ | c1 [ | c2 [ | c3 [ | c4 [ | c5 s]]]]]];
    try discriminate.
  cbn [substring String.length]. destruct s; reflexivity.
Qed.

(** ** Failed writes, as the next lookup sees them *)

(** When the file opens and the write fails (a full disk), [save_cache]
    returns normally and the key is left with the file [open] cut to
    nothing: the next lookup is a miss, neither the content that was
    cached before nor an error. *)
Theorem failed_write_reads_as_miss (d : Disk)
    (self : DiskPrerenderedCacheClass) (c : Collection) (ref : string)
    (end_ : option string) (media tree content : string) (w : world) :
  let path := get_cache_path self (identifier c) ref end_ media tree in
  mkdir_fails d (parent path) = false ->
  open_fails d path = false ->
  write_fails d path = true ->
  fst (save_cache d self (identifier c) ref end_ media tree content w) = Ok tt
  /\ fst (get_cache self c ref end_ media tree
            (snd (save_cache d self (identifier c) ref end_ media tree
                             content w)))
     = Ok JNull.
Proof.
  intros path Hm Ho Hw.
  rewrite save_cache_write_fails by assumption. cbn [fst snd]. split;
    [ reflexivity | ].
  rewrite get_cache_eq. cbn [fst]. fold path.
  unfold extend, replay. cbn [files fold_left apply_event]. unfold update.
  now rewrite String.eqb_refl.
Qed.

Lemma failed_write_reads_as_miss_witness :
  fst (save_cache full DiskPrerenderedCache "ms001" "p1" None "html" "default"
                  "<p>new</p>" (one_file p1_html (envelope "<p>old</p>")))
  = Ok tt
  /\ fst (get_cache DiskPrerenderedCache ms001 "p1" None "html" "default"
            (snd (save_cache full DiskPrerenderedCache "ms001" "p1" None "html"
                             "default" "<p>new</p>"
                             (one_file p1_html (envelope "<p>old</p>")))))
     = Ok JNull.
Proof.
  exact (failed_write_reads_as_miss full DiskPrerenderedCache ms001 "p1" None
           "html" "default" "<p>new</p>"
           (one_file p1_html (envelope "<p>old</p>")) eq_refl eq_refl eq_refl).
Defined.

(** When the file cannot be opened for writing, [save_cache] returns
    normally and the cache directory is as it was: every key, the one
    being saved included, reads as before. *)
Theorem failed_open_keeps_cache (d : Disk)
    (self : DiskPrerenderedCacheClass) (identifier ref : string)
    (end_ : option string) (media tree content : string) (w : world) :
  let path := get_cache_path self identifier ref end_ media tree in
  mkdir_fails d (parent path) = false ->
  open_fails d path = true ->
  fst (save_cache d self identifier ref end_ media tree content w) = Ok tt
  /\ files (snd (save_cache d self identifier ref end_ media tree content w))
     = files w.
Proof.
  intros path Hm Ho. rewrite save_cache_open_fails by assumption.
  now split.
Qed.

Lemma failed_open_keeps_cache_witness :
  files (snd (save_cache
                {| mkdir_fails := fun _ => false; open_fails := fun _ => true;
                   write_fails := fun _ => false |}
                DiskPrerenderedCache "ms001" "p1" None "html" "default"
                "<p>new</p>" (one_file p1_html (envelope "<p>old</p>"))))
  = files (one_file p1_html (envelope "<p>old</p>")).
Proof.
  exact (proj2 (failed_open_keeps_cache
                  {| mkdir_fails := fun _ => false; open_fails := fun _ => true;
                     write_fails := fun _ => false |}
                  DiskPrerenderedCache "ms001" "p1" None "html" "default"
                  "<p>new</p>" (one_file p1_html (envelope "<p>old</p>"))
                  eq_refl eq_refl)).
Defined.

(** ** Requests the view answers without the cache *)

(** A request with no resource, with a resource the database does not
    have, or with a resource that has no navigation is answered with a
    client error without a status code of its own, and nothing is read,
    extracted or written. *)
Theorem custom_document_view_unknown_resource (E : Env)
    (resource ref start end_ tree media : option string) (tr : Transformer)
    (w : world) :
  truthy resource = false
  \/ (exists res,
        resource = Some res
        /\ match find (fun c => identifier c =? res) (collections (db E)) with
           | None => True
           | Some c =>
               find (fun n => (collection_id n =? coll_id c)%Z)
                    (navigations (db E)) = None
           end) ->
  exists message,
    custom_document_view E resource ref start end_ tree media tr w
    = (Ok (Msg4xx message None), w).
Proof.
  intros [Hfalsy | (res & -> & Hfind)]; unfold custom_document_view.
  - destruct resource as [res | ]; [ | eexists; reflexivity ].
    rewrite Hfalsy. cbn [negb]. eexists. reflexivity.
  - destruct (truthy (Some res)); cbn [negb]; [ | eexists; reflexivity ].
    destruct (find _ (collections (db E))) as [c | ];
      [ | eexists; reflexivity ].
    rewrite Hfind. eexists. reflexivity.
Qed.

Lemma custom_document_view_unknown_resource_witness :
  exists message,
    custom_document_view (site wrapping healthy) (Some "ms999") (Some "p1")
                         None None None None wrapping empty_cache
    = (Ok (Msg4xx message None), empty_cache).
Proof.
  apply (custom_document_view_unknown_resource (site wrapping healthy)
           (Some "ms999") (Some "p1") None None None None wrapping empty_cache).
  right. exists "ms999". split; [ reflexivity | exact I ].
Defined.

(** For a tree the navigation has, a reference given together with a
    range start or end, and a range with only one of its two ends, are
    answered with status 400; nothing is read, extracted or written. *)
Theorem custom_document_view_conflicting_parameters (E : Env) (res : string)
    (ref start end_ tree media : option string) (tr : Transformer)
    (c : Collection) (nav : Navigation) (w : world) :
  truthy (Some res) = true ->
  find (fun c => identifier c =? res) (collections (db E)) = Some c ->
  find (fun n => (collection_id n =? coll_id c)%Z) (navigations (db E))
  = Some nav ->
  has_key (references nav) (py_or tree (default_tree c)) = true ->
  (truthy ref && (truthy start || truthy end_))
  || (negb (truthy ref) && xorb (truthy start) (truthy end_)) = true ->
  exists message,
    custom_document_view E (Some res) ref start end_ tree media tr w
    = (Ok (Msg4xx message (Some 400%Z)), w).
Proof.
  intros Hres Hc Hnav Hkey Hbad.
  unfold custom_document_view. rewrite Hres, Hc, Hnav. cbn [negb].
  unfold forbidden_combination. rewrite Hkey. cbn [negb].
  destruct (truthy ref), (truthy start), (truthy end_);
    try discriminate Hbad; cbn [orb andb negb]; eexists; reflexivity.
Qed.

Lemma custom_document_view_conflicting_parameters_witness :
  exists message,
    custom_document_view (site wrapping healthy) (Some "ms001") None
                         (Some "p1") None None None wrapping empty_cache
    = (Ok (Msg4xx message (Some 400%Z)), empty_cache).
Proof.
  exact (custom_document_view_conflicting_parameters (site wrapping healthy)
           "ms001" None (Some "p1") None None None wrapping ms001 nav001
           empty_cache eq_refl eq_refl eq_refl eq_refl eq_refl).
Defined.

(** A request with no reference and no range is answered with the whole
    file of the document as [application/xml], whatever media type it
    asks for: the transformer is not called and the cache is neither
    read nor written. *)
Theorem custom_document_view_whole_document (E : Env) (res t : string)
    (ref start end_ tree media : option string) (tr : Transformer)
    (c : Collection) (nav : Navigation) (valid : list string) (w : world) :
  truthy (Some res) = true ->
  find (fun c => identifier c =? res) (collections (db E)) = Some c ->
  find (fun n => (collection_id n =? coll_id c)%Z) (navigations (db E))
  = Some nav ->
  truthy ref = false -> truthy start = false -> truthy end_ = false ->
  py_or tree (default_tree c) = Some t ->
  assoc (paths nav) t = Some valid ->
  custom_document_view E (Some res) ref start end_ tree media tr w
  = (Ok (Resp (JStr (read_text E (filepath c))) 200 "application/xml"), w).
Proof.
  intros Hres Hc Hnav Hr Hs He Ht Hpaths.
  unfold custom_document_view. rewrite Hres, Hc, Hnav. cbn [negb].
  unfold forbidden_combination. rewrite Hr, Hs, He. cbn [orb].
  rewrite Ht. unfold bind, paths_index. rewrite Hpaths. unfold ret.
  reflexivity.
Qed.

Lemma custom_document_view_whole_document_witness :
  custom_document_view (site wrapping healthy) (Some "ms001") None None None
                       None (Some "html") wrapping empty_cache
  = (Ok (Resp (JStr "<TEI/>") 200 "application/xml"), empty_cache).
Proof.
  exact (custom_document_view_whole_document (site wrapping healthy)
           "ms001" "default" None None None None (Some "html") wrapping
           ms001 nav001 ["p1"; "p2"] empty_cache
           eq_refl eq_refl eq_refl eq_refl eq_refl eq_refl eq_refl eq_refl).
Defined.

(** ** The view with the disk cache disabled *)

Lemma serve_passage_cache_disabled (E : Env) (c : Collection) (ref : string)
    (end_ : option string) (tree media : string) (tr : Transformer)
    (w : world) :
  use_disk_cache E = false ->
  exists (r : Response) (es : list event),
    serve_passage E c ref end_ tree media tr w = (Ok r, extend w es)
    /\ Forall (fun e => is_cache_read e = false /\ is_cache_write e = false) es.
Proof.
  intros Huse. unfold serve_passage, transform_and_save. rewrite Huse.
  destruct (negb (media =? DEFAULT_MEDIA_TYPE)).
  - unfold bind at 1. rewrite get_xml_passage_or_cache_eq, Huse.
    unfold bind at 1. rewrite get_transformed_passage.
    unfold bind, ret. rewrite extend_extend.
    do 2 eexists. split; [ reflexivity | ].
    repeat constructor.
  - unfold bind at 1. rewrite get_xml_passage_or_cache_eq, Huse.
    unfold ret. do 2 eexists. split; [ reflexivity | ].
    repeat constructor.
Qed.

Lemma custom_document_view_cache_disabled_events (E : Env)
    (resource ref start end_ tree media : option string) (tr : Transformer)
    (w : world) :
  use_disk_cache E = false ->
  exists (r : outcome Response) (es : list event),
    custom_document_view E resource ref start end_ tree media tr w
    = (r, extend w es)
    /\ Forall (fun e => is_cache_read e = false /\ is_cache_write e = false) es.
Proof.
  intros Huse.
  assert (Hstay : forall r : outcome Response,
             exists (r' : outcome Response) (es : list event),
               (r, w) = (r', extend w es)
               /\ Forall (fun e => is_cache_read e = false
                                   /\ is_cache_write e = false) es).
  { intros r. exists r, []. rewrite extend_nil. now split. }
  unfold custom_document_view.
  destruct resource as [res | ]; [ | apply Hstay ].
  destruct (negb (truthy (Some res))); [ apply Hstay | ].
  destruct (find _ (collections (db E))) as [c | ]; [ | apply Hstay ].
  destruct (find _ (navigations (db E))) as [nav | ]; [ | apply Hstay ].
  destruct (forbidden_combination _ _ _ _ _ _); [ apply Hstay | ].
  unfold bind at 1, paths_index.
  destruct (py_or tree (default_tree c)) as [t | ]; [ | apply Hstay ].
  destruct (assoc (paths nav) t) as [valid | ]; [ | apply Hstay ].
  unfold ret at 1.
  destruct (truthy start && truthy end_ && _); [ apply Hstay | ].
  destruct (truthy ref && _); [ apply Hstay | ].
  destruct (negb (truthy ref) && _); [ apply Hstay | ].
  destruct (py_or ref start) as [r | ]; [ | apply Hstay ].
  destruct (serve_passage_cache_disabled E c r end_ t
              match py_or media (Some DEFAULT_MEDIA_TYPE) with
              | Some m => m
              | None => DEFAULT_MEDIA_TYPE
              end tr w Huse) as (resp & es & Hserve & Hes).
  exists (Ok resp), es. now split.
Qed.

Lemma count_none (p : event -> bool) (es : list event) :
  Forall (fun e => p e = false) es -> count p es = 0.
Proof.
  unfold count. induction 1 as [ | e es He _ IH]; [ reflexivity | ].
  cbn [filter]. now rewrite He.
Qed.

(** With [USE_DISK_CACHE] set to anything but [true], no request reads
    or writes the cache directory, whatever it asks for and however it
    ends. *)
Theorem custom_document_view_cache_disabled (E : Env)
    (resource ref start end_ tree media : option string) (tr : Transformer)
    (w : world) :
  let request :=
    custom_document_view E resource ref start end_ tree media tr in
  use_disk_cache E = false ->
  files (snd (request w)) = files w
  /\ count is_cache_read (new_events request w) = 0
  /\ count is_cache_write (new_events request w) = 0.
Proof.
  intros request Huse.
  destruct (custom_document_view_cache_disabled_events E resource ref start
              end_ tree media tr w Huse) as (r & es & Hrun & Hes).
  fold request in Hrun. rewrite (new_events_extend request w r es Hrun).
  rewrite Hrun. cbn [snd]. repeat split.
  - apply extend_log_only. eapply Forall_impl; [ | exact Hes ].
    intros e [_ He]. now left.
  - apply count_none. eapply Forall_impl; [ | exact Hes ]. now intros e [He _].
  - apply count_none. eapply Forall_impl; [ | exact Hes ]. now intros e [_ He].
Qed.

Lemma custom_document_view_cache_disabled_witness :
  let E :=
    {| cache := DiskPrerenderedCache; use_disk_cache := false; db := corpus;
       disk := healthy; get_passage := tei; read_text := fun _ => "<TEI/>";
       media_transformer := wrapping; fromstring := starts_with_tag;
       imap_unordered := fun items => items;
       fromstring_get_passage := fun _ _ _ _ => eq_refl;
       imap_unordered_permutation := fun items => Permutation_refl items |} in
  let request :=
    custom_document_view E (Some "ms001") (Some "p1") None None None
                         (Some "html") wrapping in
  files (snd (request brimming)) = files brimming
  /\ count is_cache_read (new_events request brimming) = 0
  /\ count is_cache_write (new_events request brimming) = 0.
Proof.
  exact (custom_document_view_cache_disabled
           {| cache := DiskPrerenderedCache; use_disk_cache := false;
              db := corpus; disk := healthy; get_passage := tei;
              read_text := fun _ => "<TEI/>"; media_transformer := wrapping;
              fromstring := starts_with_tag;
              imap_unordered := fun items => items;
              fromstring_get_passage := fun _ _ _ _ => eq_refl;
              imap_unordered_permutation :=
                fun items => Permutation_refl items |}
           (Some "ms001") (Some "p1") None None None (Some "html") wrapping
           brimming eq_refl).
Defined.

(** ** Requests served from a cached base passage *)

Lemma default_media (media : option string) :
  truthy media = false \/ media = Some DEFAULT_MEDIA_TYPE ->
  match py_or media (Some DEFAULT_MEDIA_TYPE) with
  | Some m => m
  | None => DEFAULT_MEDIA_TYPE
  end = DEFAULT_MEDIA_TYPE.
Proof.
  unfold py_or. intros [H | ->]; [ now rewrite H | reflexivity ].
Qed.

(** A request for a valid reference with the default media type, when
    the base passage is cached with content that is not empty, is
    answered with the cached content: the passage extractor is not
    called and nothing is written. *)
Theorem custom_document_view_base_passage_hit (E : Env) (res r t : string)
    (tree media : option string) (tr : Transformer) (c : Collection)
    (nav : Navigation) (valid : list string) (w : world) (v : json) :
  let xml_path :=
    get_cache_path (cache E) (identifier c) r None "application/xml" t in
  truthy (Some res) = true ->
  find (fun c => identifier c =? res) (collections (db E)) = Some c ->
  find (fun n => (collection_id n =? coll_id c)%Z) (navigations (db E))
  = Some nav ->
  truthy (Some r) = true ->
  py_or tree (default_tree c) = Some t ->
  has_key (references nav) (Some t) = true ->
  assoc (paths nav) t = Some valid ->
  mem r valid = true ->
  truthy media = false \/ media = Some DEFAULT_MEDIA_TYPE ->
  use_disk_cache E = true ->
  read_content (verbose (cache E)) (files w xml_path) = Ok v ->
  json_truthy v = true ->
  custom_document_view E (Some res) (Some r) None None tree media tr w
  = (Ok (Resp v 200 "application/xml"), extend w [CacheRead xml_path]).
Proof.
  intros xml_path Hres Hc Hnav Hr Ht Hkey Hpaths Hmem Hmedia Huse Hread Hv.
  rewrite (custom_document_view_valid_reference E res r t tree media tr c nav
             valid Hres Hc Hnav Hr Ht Hkey Hpaths Hmem).
  rewrite (default_media media Hmedia).
  unfold serve_passage. rewrite String.eqb_refl. cbn [negb].
  unfold bind. rewrite get_xml_passage_or_cache_eq. fold xml_path.
  now rewrite Huse, Hread, Hv.
Qed.

Lemma custom_document_view_base_passage_hit_witness :
  custom_document_view (site wrapping healthy) (Some "ms001") (Some "p1")
                       None None None None wrapping brimming
  = (Ok (Resp (JStr "<TEI n='1'/>") 200 "application/xml"),
     extend brimming [CacheRead p1_xml]).
Proof.
  exact (custom_document_view_base_passage_hit (site wrapping healthy)
           "ms001" "p1" "default" None None wrapping ms001 nav001
           ["p1"; "p2"] brimming (JStr "<TEI n='1'/>")
           eq_refl eq_refl eq_refl eq_refl eq_refl eq_refl eq_refl eq_refl
           (or_introl eq_refl) eq_refl eq_refl eq_refl).
Defined.



(** ** [CustomXSLTransformer] behind the cache *)

(** With a [CustomXSLTransformer] and a media type that has a
    stylesheet, the response that generates an artifact and the
    response that is later served from the cache are the same: the
    output of the stylesheet with status 200 and, as content type, the
    entry of the media type in the mapping, or the media type itself
    when the mapping has none. *)
Theorem custom_xsl_response_same_from_cache
    (saxon : string -> string -> string)
    (super_transform : string -> Collection -> string -> EngineResponse)
    (xslts : list (string * string))
    (media_type_mapping : option (list (string * string)))
    (E : Env) (res r t m stylesheet : string) (tree : option string)
    (c : Collection) (nav : Navigation) (valid : list string) (w : world) :
  let tr := CustomXSLTransformer saxon super_transform xslts media_type_mapping in
  let request :=
    custom_document_view E (Some res) (Some r) None None tree (Some m) tr in
  let xml_path :=
    get_cache_path (cache E) (identifier c) r None "application/xml" t in
  let media_path := get_cache_path (cache E) (identifier c) r None m t in
  let content := saxon stylesheet (get_passage E c r None t) in
  truthy (Some res) = true ->
  find (fun c => identifier c =? res) (collections (db E)) = Some c ->
  find (fun n => (collection_id n =? coll_id c)%Z) (navigations (db E))
  = Some nav ->
  truthy (Some r) = true ->
  py_or tree (default_tree c) = Some t ->
  has_key (references nav) (Some t) = true ->
  assoc (paths nav) t = Some valid ->
  mem r valid = true ->
  truthy (Some m) = true ->
  (m =? DEFAULT_MEDIA_TYPE) = false ->
  assoc xslts m = Some stylesheet ->
  use_disk_cache E = true ->
  writable (disk E) media_path = true ->
  files w xml_path = None ->
  files w media_path = None ->
  content <> "" ->
  fst (request w) = Ok (Resp (JStr content) 200 (mapping_get tr m))
  /\ fst (request (snd (request w))) = fst (request w).
Proof.
  intros tr request xml_path media_path content Hres Hc Hnav Hr Ht Hkey
         Hpaths Hmem Hm Hmedia Hsheet Huse Hwritable Hxml Hmiss Hcontent.
  assert (Hserve : request = serve_passage E c r None t m tr).
  { unfold request.
    rewrite (custom_document_view_valid_reference E res r t tree (Some m) tr
               c nav valid) by assumption.
    unfold py_or. now rewrite Hm. }
  assert (Htr : transform tr m c (get_passage E c r None t)
                = {| get_data := content; status_code := 200;
                     mimetype := mapping_get tr m |}).
  { unfold tr, CustomXSLTransformer, mapping_get. cbn [transform mapping].
    now rewrite Hsheet. }
  assert (H1 : request w
               = (Ok (Resp (JStr content) 200 (mapping_get tr m)),
                  extend w ([CacheRead media_path]
                              ++ [CacheRead xml_path;
                                  Extract (identifier c) r None t;
                                  Transform m (identifier c)
                                            (get_passage E c r None t)]
                              ++ save_events media_path content))).
  { rewrite Hserve.
    rewrite (serve_passage_miss E c r None t m tr Hmedia Huse w JNull);
      [ | fold media_path; now rewrite Hmiss | reflexivity ].
    rewrite (transform_and_save_fresh E c r None t m tr Huse _ JNull);
      [ | cbn [files]; fold xml_path; unfold extend, replay;
          cbn [files fold_left apply_event]; now rewrite Hxml
        | reflexivity | exact Hwritable ].
    rewrite Htr. cbn [get_data status_code mimetype].
    now rewrite extend_extend. }
  rewrite H1. cbn [fst snd]. split; [ reflexivity | ].
  rewrite Hserve.
  rewrite (serve_passage_hit E c r None t m tr Hmedia Huse _ (JStr content));
    [ reflexivity | | ].
  - fold media_path. rewrite app_assoc, files_after_save. apply read_envelope.
  - cbn [json_truthy]. now apply negb_true_iff, String.eqb_neq.
Qed.

(** The module-level transformer has no mapping: an [html] artifact is
    served with the content type [html], from the engine and from the
    cache alike. *)
Lemma custom_xsl_response_same_from_cache_witness :
  let saxon := fun stylesheet passage : string =>
    "<div id='rendered-tei'>" ++ passage ++ "</div>" in
  let super_transform :=
    fun (media : string) (_ : Collection) (passage : string) =>
      {| get_data := "Unsupported media type"; status_code := 403;
         mimetype := "text/plain" |} in
  let tr := transformation.media_transformer saxon super_transform "/srv/app" in
  let request :=
    custom_document_view (site tr healthy) (Some "ms001") (Some "p1") None
                         None None (Some "html") tr in
  fst (request empty_cache)
  = Ok (Resp (JStr "<div id='rendered-tei'><TEI n='ms001/default/p1'/></div>")
             200 "html")
  /\ fst (request (snd (request empty_cache))) = fst (request empty_cache).
Proof.
  intros saxon super_transform tr request.
  assert (Hcontent : saxon "/srv/app/assets/xsl.xsl"
                       (get_passage (site tr healthy) ms001 "p1" None "default")
                     <> "")
    by (vm_compute; discriminate).
  exact (custom_xsl_response_same_from_cache saxon super_transform
           [("html", os_path_join "/srv/app" ["assets/xsl.xsl"])] None
           (site tr healthy) "ms001" "p1" "default" "html"
           "/srv/app/assets/xsl.xsl" None ms001 nav001 ["p1"; "p2"] empty_cache
           eq_refl eq_refl eq_refl eq_refl eq_refl eq_refl eq_refl eq_refl
           eq_refl eq_refl eq_refl eq_refl eq_refl eq_refl eq_refl Hcontent).
Defined.

(** ** The batch generator: rows that are missing *)

Lemma prerender_refs_orphan (E : Env) (tree : string)
    (media_types : list string) (force : bool) (refs : list RefDescriptor)
    (n : nat) (w : world) :
  prerender_refs E None tree media_types force refs n w
  = match refs with
    | [] => (Ok n, w)
    | _ :: _ => (Raise AttributeError, w)
    end.
Proof. destruct refs; reflexivity. Qed.

Lemma prerender_trees_orphan (E : Env) (media_types : list string)
    (force : bool) (trees : list (string * list RefDescriptor)) (n : nat)
    (w : world) :
  prerender_trees E None media_types force trees n w
  = match flat_map (fun item => map (fun r => (fst item, ref_identifier r))
                                    (snd item)) trees with
    | [] => (Ok n, w)
    | _ :: _ => (Raise AttributeError, w)
    end.
Proof.
  induction trees as [ | [tree refs] trees IH]; [ reflexivity | ].
  cbn [prerender_trees flat_map fst snd]. unfold bind.
  rewrite prerender_refs_orphan.
  destruct refs as [ | r refs]; [ exact IH | reflexivity ].
Qed.

(** A navigation id that the database does not have makes
    [_prerender_collection] raise [AttributeError] before it reads
    anything.  A navigation whose collection is missing raises the same
    error at its first reference; when it has no reference at all the
    call returns 0.  In every case the cache is not touched. *)
Theorem _prerender_collection_missing_rows (E : Env) (navigation_id : Z)
    (media_types : list string) (force : bool) (w : world) :
  match find (fun n => (nav_id n =? navigation_id)%Z) (navigations (db E)) with
  | None => True
  | Some nav =>
      find (fun c => (coll_id c =? collection_id nav)%Z) (collections (db E))
      = None
  end ->
  _prerender_collection E (navigation_id, media_types, force) w
  = match find (fun n => (nav_id n =? navigation_id)%Z) (navigations (db E)) with
    | None => (Raise AttributeError, w)
    | Some nav =>
        match tree_refs nav with
        | [] => (Ok 0, w)
        | _ :: _ => (Raise AttributeError, w)
        end
    end.
Proof.
  intros H. unfold _prerender_collection.
  destruct (find _ (navigations (db E))) as [nav | ]; [ | reflexivity ].
  unfold bind, attr, ret. rewrite H. apply prerender_trees_orphan.
Qed.

Lemma _prerender_collection_missing_rows_witness :
  _prerender_collection (site wrapping healthy) (7%Z, ["html"], true) brimming
  = (Raise AttributeError, brimming).
Proof.
  exact (_prerender_collection_missing_rows (site wrapping healthy) 7
           ["html"] true brimming I).
Defined.

(** ** The batch command on an empty database *)

(** [prerender] asks for a pool of [min(workers, len(navigations))]
    processes: with no navigation in the database, or with a number of
    workers below 1, it raises [ValueError] and generates nothing. *)
Theorem prerender_empty_pool (E : Env) (media_type : list string)
    (workers : Z) (force : bool) (w : world) :
  navigations (db E) = [] \/ (workers < 1)%Z ->
  prerender E media_type workers force w = (Raise ValueError, w).
Proof.
  intros H. unfold prerender.
  assert (Hmin : (Z.min workers
                    (Z.of_nat (List.length (map nav_id (navigations (db E)))))
                  <? 1)%Z = true).
  { apply Z.ltb_lt. destruct H as [-> | H]; cbn [map List.length]; lia. }
  now rewrite Hmin.
Qed.

Lemma prerender_empty_pool_witness :
  prerender (site wrapping healthy) ["html"] 0 false empty_cache
  = (Raise ValueError, empty_cache).
Proof.
  apply (prerender_empty_pool (site wrapping healthy) ["html"] 0 false
           empty_cache).
  right. reflexivity.
Defined.

(** ** The batch generator on a cache that holds none of the artifacts *)

Lemma stored_envelope (fs : string -> option file) (path content : string) :
  fs path = Some (envelope content) -> stored fs path content.
Proof.
  intros H. exists [("content", JStr content)]. split; [ exact H | ].
  unfold members_get. cbn [members_find]. now rewrite String.eqb_refl.
Qed.

Section Cold.

Variables (E : Env) (c : Collection) (media_types : list string).
Hypothesis Hdisk : forall path, writable (disk E) path = true.

Lemma prerender_media_types_cold (tree ref : string) (ms : list string)
    (n : nat) (w : world) :
  NoDup (map (artifact_path E c tree ref) ms) ->
  (forall m, In m ms -> files w (artifact_path E c tree ref m) = None) ->
  prerender_media_types E c tree ref (JStr (get_passage E c ref None tree))
                        false ms n w
  = (Ok (n + List.length ms),
     extend w (flat_map (forced_media_events E c tree ref) ms)).
Proof.
  revert n w. induction ms as [ | m ms IH]; intros n w Hnd Habs.
  - cbn [prerender_media_types flat_map List.length]. unfold ret.
    now rewrite extend_nil, Nat.add_0_r.
  - cbn [prerender_media_types flat_map List.length].
    cbn [map] in Hnd. apply NoDup_cons_iff in Hnd. destruct Hnd as [Hm Hnd].
    unfold bind at 1. rewrite get_cache_eq.
    pose proof (Habs m (or_introl eq_refl)) as Hnone.
    unfold artifact_path in Hnone. rewrite Hnone.
    cbn [read_content is_none orb].
    unfold bind at 1. rewrite get_transformed_passage.
    unfold bind at 1. rewrite save_cache_writable by apply Hdisk.
    rewrite !extend_extend. rewrite IH.
    + rewrite extend_extend. unfold forced_media_events at 2.
      unfold artifact_path, rendering.
      apply ok_eq; [ lia | ]. now rewrite <- !app_assoc.
    + exact Hnd.
    + intros m' Hm'. unfold extend. cbn [files].
      rewrite replay_untouched; [ apply Habs; now right | ].
      assert (Hneq : get_cache_path (cache E) (identifier c) ref None m tree
                     <> artifact_path E c tree ref m').
      { intros Heq. apply Hm. apply in_map_iff. exists m'.
        split; [ symmetry; exact Heq | exact Hm' ]. }
      unfold save_events. repeat constructor; exact Hneq.
Qed.

Lemma prerender_ref_cold (tree : string) (ref : RefDescriptor) (n : nat)
    (w : world) :
  NoDup (map fst (ref_artifacts E c media_types (tree, ref_identifier ref))) ->
  (forall path,
      In path (map fst (ref_artifacts E c media_types
                                      (tree, ref_identifier ref))) ->
      files w path = None) ->
  prerender_ref E (Some c) tree media_types false ref n w
  = (Ok (n + S (List.length media_types)),
     extend w (forced_ref_events E c media_types (tree, ref_identifier ref))).
Proof.
  intros Hnd Habs. unfold ref_artifacts in Hnd, Habs.
  cbn [map fst snd] in Hnd, Habs. rewrite map_map in Hnd, Habs.
  cbn [fst] in Hnd, Habs.
  apply NoDup_cons_iff in Hnd. destruct Hnd as [Hbase Hnd].
  unfold prerender_ref. cbn [attr].
  unfold bind at 1. unfold ret at 1.
  unfold bind at 1. rewrite get_cache_eq.
  pose proof (Habs _ (or_introl eq_refl)) as Hnone.
  unfold artifact_path in Hnone. rewrite Hnone.
  cbn [read_content json_truthy negb orb].
  unfold bind at 1. rewrite get_xml_passage_as_string_eq.
  unfold bind at 1. rewrite save_cache_writable by apply Hdisk.
  rewrite !extend_extend.
  rewrite prerender_media_types_cold.
  - rewrite extend_extend. unfold forced_ref_events, artifact_path.
    cbn [fst snd]. apply ok_eq; [ lia | ]. now rewrite <- !app_assoc.
  - exact Hnd.
  - intros m Hm. unfold extend. cbn [files].
    assert (Hin : In (artifact_path E c tree (ref_identifier ref) m)
                     (map (fun m => artifact_path E c tree (ref_identifier ref) m)
                          media_types)).
    { apply in_map_iff. now exists m. }
    rewrite replay_untouched; [ apply Habs; now right | ].
    assert (Hneq : get_cache_path (cache E) (identifier c) (ref_identifier ref)
                                  None DEFAULT_MEDIA_TYPE tree
                   <> artifact_path E c tree (ref_identifier ref) m).
    { intros Heq. apply Hbase. unfold artifact_path at 1. now rewrite Heq. }
    unfold save_events. repeat constructor; exact Hneq.
Qed.

Lemma prerender_trs_absent (tr : string * string)
    (rest : list (string * string)) (w : world) :
  NoDup (map fst (flat_map (ref_artifacts E c media_types) (tr :: rest))) ->
  (forall path,
      In path (map fst (flat_map (ref_artifacts E c media_types) (tr :: rest))) ->
      files w path = None) ->
  forall path,
    In path (map fst (flat_map (ref_artifacts E c media_types) rest)) ->
    files (extend w (forced_ref_events E c media_types tr)) path = None.
Proof.
  intros Hnd Habs path Hin. cbn [flat_map] in Hnd, Habs.
  rewrite map_app in Hnd, Habs.
  unfold extend. cbn [files]. rewrite replay_forced_ref.
  rewrite write_all_notin.
  - apply Habs, in_or_app. now right.
  - intros Hhere. revert Hnd Hhere Hin. generalize (map fst (ref_artifacts E c media_types tr)).
    intros l Hnd. induction l as [ | a l IH]; [ intros [] | ].
    cbn [app] in Hnd. apply NoDup_cons_iff in Hnd. destruct Hnd as [Ha Hnd].
    intros [<- | Hl] Hin; [ apply Ha, in_or_app; now right | now apply IH ].
Qed.

Lemma prerender_refs_cold (tree : string) (refs : list RefDescriptor)
    (n : nat) (w : world) :
  let trs := map (fun r => (tree, ref_identifier r)) refs in
  NoDup (map fst (flat_map (ref_artifacts E c media_types) trs)) ->
  (forall path,
      In path (map fst (flat_map (ref_artifacts E c media_types) trs)) ->
      files w path = None) ->
  prerender_refs E (Some c) tree media_types false refs n w
  = (Ok (n + List.length refs * S (List.length media_types)),
     extend w (flat_map (forced_ref_events E c media_types) trs)).
Proof.
  cbv zeta. revert n w. induction refs as [ | r refs IH]; intros n w Hnd Habs.
  - cbn [prerender_refs map flat_map List.length]. unfold ret.
    now rewrite extend_nil, Nat.add_0_r.
  - cbn [prerender_refs map flat_map List.length].
    pose proof (prerender_trs_absent _ _ w Hnd Habs) as Hrest.
    cbn [map flat_map] in Hnd, Habs. rewrite map_app in Hnd, Habs.
    unfold bind. rewrite prerender_ref_cold.
    + rewrite IH.
      * rewrite extend_extend. apply ok_eq; [ lia | reflexivity ].
      * now apply NoDup_app_remove_l in Hnd.
      * exact Hrest.
    + now apply NoDup_app_remove_r in Hnd.
    + intros path Hin. apply Habs, in_or_app. now left.
Qed.

Lemma prerender_trees_cold (trees : list (string * list RefDescriptor))
    (n : nat) (w : world) :
  let trs := flat_map (fun item => map (fun r => (fst item, ref_identifier r))
                                       (snd item)) trees in
  NoDup (map fst (flat_map (ref_artifacts E c media_types) trs)) ->
  (forall path,
      In path (map fst (flat_map (ref_artifacts E c media_types) trs)) ->
      files w path = None) ->
  prerender_trees E (Some c) media_types false trees n w
  = (Ok (n + List.length trs * S (List.length media_types)),
     extend w (flat_map (forced_ref_events E c media_types) trs)).
Proof.
  cbv zeta. revert n w.
  induction trees as [ | [tree refs] trees IH]; intros n w Hnd Habs.
  - cbn [prerender_trees flat_map List.length]. unfold ret.
    now rewrite extend_nil, Nat.add_0_r.
  - cbn [prerender_trees flat_map fst snd] in *.
    rewrite flat_map_app, map_app in Hnd, Habs.
    unfold bind. rewrite prerender_refs_cold.
    + rewrite IH.
      * rewrite extend_extend, flat_map_app, length_app, length_map.
        apply ok_eq; [ lia | reflexivity ].
      * now apply NoDup_app_remove_l in Hnd.
      * intros path Hin. unfold extend. cbn [files]. rewrite replay_forced.
        rewrite write_all_notin; [ apply Habs, in_or_app; now right | ].
        intros Hhere. revert Hnd Hhere Hin.
        generalize (map fst (flat_map (ref_artifacts E c media_types)
                               (map (fun r => (tree, ref_identifier r)) refs))).
        intros l Hnd. induction l as [ | a l IHl]; [ intros [] | ].
        cbn [app] in Hnd. apply NoDup_cons_iff in Hnd.
        destruct Hnd as [Ha Hnd].
        intros [<- | Hl] Hin; [ apply Ha, in_or_app; now right | now apply IHl ].
    + now apply NoDup_app_remove_r in Hnd.
    + intros path Hin. apply Habs, in_or_app. now left.
Qed.

End Cold.

(** A pass without [--force] over a document none of whose artifacts is
    in the cache generates and stores every one of them; a second pass
    right after it finds them all and generates nothing (the base
    passages being not empty): it returns 0, calls neither engine and
    leaves the cache directory as the first pass left it. *)
Theorem cold_pass_then_nothing_to_do (E : Env) (media_types : list string)
    (navigation_id : Z) (nav : Navigation) (c : Collection) (w : world) :
  let run := _prerender_collection E (navigation_id, media_types, false) in
  let w1 := snd (run w) in
  find (fun n => (nav_id n =? navigation_id)%Z) (navigations (db E)) = Some nav ->
  find (fun c => (coll_id c =? collection_id nav)%Z) (collections (db E))
  = Some c ->
  (forall path, writable (disk E) path = true) ->
  NoDup (map fst (artifacts E c media_types nav)) ->
  (forall path, In path (map fst (artifacts E c media_types nav)) ->
                files w path = None) ->
  (forall tr, In tr (tree_refs nav) ->
              get_passage E c (snd tr) None (fst tr) <> "") ->
  fst (run w) = Ok (List.length (artifacts E c media_types nav))
  /\ (forall path content,
         In (path, content) (artifacts E c media_types nav) ->
         files w1 path = Some (envelope content))
  /\ fst (run w1) = Ok 0
  /\ files (snd (run w1)) = files w1
  /\ count is_extract (new_events run w1) = 0
  /\ count is_transform (new_events run w1) = 0.
Proof.
  intros run w1 Hnav Hc Hdisk Hnd Habs Hpassage.
  assert (Hrun : forall w', run w'
                 = prerender_trees E (Some c) media_types false
                                   (references nav) 0 w').
  { intros w'. unfold run, _prerender_collection. unfold bind, attr.
    rewrite Hnav. unfold ret. now rewrite Hc. }
  assert (H1 : run w
               = (Ok (List.length (artifacts E c media_types nav)),
                  extend w (flat_map (forced_ref_events E c media_types)
                              (tree_refs nav)))).
  { rewrite Hrun, (prerender_trees_cold E c media_types Hdisk);
      [ | exact Hnd | exact Habs ].
    rewrite length_artifacts. reflexivity. }
  assert (Hfiles : forall path content,
             In (path, content) (artifacts E c media_types nav) ->
             files w1 path = Some (envelope content)).
  { intros path content Hin. unfold w1. rewrite H1. cbn [snd].
    unfold extend. cbn [files]. rewrite replay_forced.
    now apply write_all_nodup. }
  assert (Hwarm : forall tr, In tr (tree_refs nav) ->
                             warmed_ref E c media_types (files w1) tr).
  { intros tr Htr. split.
    - exists (get_passage E c (snd tr) None (fst tr)).
      split; [ | now apply Hpassage ].
      apply stored_envelope, Hfiles. unfold artifacts.
      apply in_flat_map. exists tr. split; [ exact Htr | now left ].
    - intros m Hm. exists (rendering E c (fst tr) (snd tr) m).
      apply stored_envelope, Hfiles. unfold artifacts.
      apply in_flat_map. exists tr. split; [ exact Htr | ].
      right. apply in_map_iff. now exists m. }
  assert (H2 : run w1
               = (Ok 0, extend w1 (flat_map (lookup_events E c media_types)
                                     (tree_refs nav)))).
  { rewrite Hrun. now apply prerender_trees_warm. }
  assert (Hreads : Forall (fun e => is_cache_read e = true)
                          (flat_map (lookup_events E c media_types)
                             (tree_refs nav))).
  { apply flat_map_reads. intros tr. apply lookup_events_reads. }
  rewrite (new_events_extend run w1 _ _ H2). rewrite H1, H2. cbn [fst snd].
  split; [ reflexivity | ]. split; [ exact Hfiles | ].
  split; [ reflexivity | ]. split; [ now apply reads_log_only | ].
  split; apply reads_count; try exact Hreads; now intros [].
Qed.

Lemma cold_pass_then_nothing_to_do_witness :
  let run :=
    _prerender_collection (site wrapping healthy) (1%Z, ["html"], false) in
  fst (run empty_cache) = Ok 4
  /\ fst (run (snd (run empty_cache))) = Ok 0.
Proof.
  assert (Hnd : NoDup (map fst (artifacts (site wrapping healthy) ms001
                                          ["html"] nav001))).
  { vm_compute.
    repeat (constructor; [ cbn [In]; intuition discriminate | ]).
    constructor. }
  assert (Hpassage : forall tr, In tr (tree_refs nav001) ->
             get_passage (site wrapping healthy) ms001 (snd tr) None (fst tr)
             <> "").
  { intros tr [<- | [<- | []]]; discriminate. }
  destruct (cold_pass_then_nothing_to_do (site wrapping healthy) ["html"] 1%Z
              nav001 ms001 empty_cache eq_refl eq_refl (fun _ => eq_refl) Hnd
              (fun _ _ => eq_refl) Hpassage)
    as (H1 & _ & H2 & _).
  intros run. split; [ exact H1 | exact H2 ].
Defined.

(** ** From the batch generator to the view *)



(** ** The text of a rendered page *)

Lemma has_gt_strip_tags_from (in_tag : bool) (s : string) :
  has_gt s = false -> has_gt (strip_tags_from in_tag s) = false.
Proof.
  revert in_tag. induction s as [ | c s IH]; intros in_tag H;
    [ reflexivity | ].
  cbn [has_gt] in H. apply orb_false_iff in H. destruct H as [Hc Hs].
  cbn [strip_tags_from]. destruct in_tag; [ now apply IH | ].
  destruct (Ascii.eqb c "<" && tag_opens s); [ now apply IH | ].
  cbn [has_gt]. rewrite Hc. now apply IH.
Qed.

Lemma tag_opens_has_gt (s : string) : has_gt s = false -> tag_opens s = false.
Proof.
  destruct s as [ | c s]; [ reflexivity | ]. cbn [has_gt tag_opens].
  intros H. apply orb_false_iff in H. destruct H as [_ ->].
  apply andb_false_r.
Qed.

Lemma tag_opens_strip_tags (s : string) :
  tag_opens s = false -> tag_opens (strip_tags_from false s) = false.
Proof.
  destruct s as [ | c s]; [ reflexivity | ]. cbn [tag_opens].
  intros H. apply andb_false_iff in H. destruct H as [Hc | Hs].
  - apply negb_false_iff in Hc. apply Ascii.eqb_eq in Hc. subst c.
    reflexivity.
  - cbn [strip_tags_from].
    destruct (Ascii.eqb c "<" && tag_opens s).
    + now apply tag_opens_has_gt, has_gt_strip_tags_from.
    + cbn [tag_opens]. rewrite has_gt_strip_tags_from by exact Hs.
      apply andb_false_r.
Qed.

Lemma has_tag_strip_tags_from (in_tag : bool) (s : string) :
  has_tag (strip_tags_from in_tag s) = false.
Proof.
  revert in_tag. induction s as [ | c s IH]; intros in_tag;
    [ reflexivity | ].
  cbn [strip_tags_from]. destruct in_tag; [ apply IH | ].
  destruct (Ascii.eqb c "<" && tag_opens s) eqn:Hopen; [ apply IH | ].
  cbn [has_tag]. rewrite IH, orb_false_r.
  apply andb_false_iff in Hopen. destruct Hopen as [Hc | Hs];
    [ now rewrite Hc | ].
  rewrite tag_opens_strip_tags by exact Hs. apply andb_false_r.
Qed.

(** *** Whitespace does not bring a tag back *)

Lemma space_len_gt (s : string) : space_len (String ">" s) = 0.
Proof. destruct s as [ | c1 [ | c2 s]]; reflexivity. Qed.

Lemma space_len_lt (s : string) : space_len (String "<" s) = 0.
Proof. destruct s as [ | c1 [ | c2 s]]; reflexivity. Qed.

Lemma has_gt_sub_spaces (skip : nat) (in_run : bool) (s : string) :
  has_gt s = false -> has_gt (sub_spaces skip in_run s) = false.
Proof.
  revert skip in_run. induction s as [ | c s IH]; intros skip in_run H;
    [ reflexivity | ].
  cbn [has_gt] in H. apply orb_false_iff in H. destruct H as [Hc Hs].
  cbn [sub_spaces]. destruct skip as [ | k]; [ | now apply IH ].
  destruct (space_len (String c s)) as [ | k].
  - cbn [has_gt]. rewrite Hc. now apply IH.
  - destruct in_run; [ now apply IH | ]. cbn [has_gt].
    change (Ascii.eqb " " ">") with false. now apply IH.
Qed.

Lemma tag_opens_sub_spaces (s : string) :
  tag_opens s = false -> tag_opens (sub_spaces 0 false s) = false.
Proof.
  destruct s as [ | c s]; [ reflexivity | ]. cbn [tag_opens].
  intros H. apply andb_false_iff in H. destruct H as [Hc | Hs].
  - apply negb_false_iff in Hc. apply Ascii.eqb_eq in Hc. subst c.
    cbn [sub_spaces]. now rewrite space_len_gt.
  - cbn [sub_spaces]. destruct (space_len (String c s)) as [ | k];
      cbn [tag_opens]; rewrite has_gt_sub_spaces by exact Hs;
      apply andb_false_r.
Qed.

Lemma has_tag_sub_spaces (skip : nat) (in_run : bool) (s : string) :
  has_tag s = false -> has_tag (sub_spaces skip in_run s) = false.
Proof.
  revert skip in_run. induction s as [ | c s IH]; intros skip in_run H;
    [ reflexivity | ].
  cbn [has_tag] in H. apply orb_false_iff in H. destruct H as [Hopen Hs].
  cbn [sub_spaces]. destruct skip as [ | k]; [ | now apply IH ].
  destruct (space_len (String c s)) as [ | k] eqn:Hlen.
  - cbn [has_tag]. rewrite IH by exact Hs. rewrite orb_false_r.
    apply andb_false_iff in Hopen. destruct Hopen as [Hc | Hopen];
      [ now rewrite Hc | ].
    rewrite tag_opens_sub_spaces by exact Hopen. apply andb_false_r.
  - destruct in_run; [ now apply IH | ]. cbn [has_tag].
    change (Ascii.eqb " " "<") with false. now apply IH.
Qed.

Lemma has_tag_lstrip_from (skip : nat) (s : string) :
  has_tag s = false -> has_tag (lstrip_from skip s) = false.
Proof.
  revert skip. induction s as [ | c s IH]; intros skip H; [ reflexivity | ].
  assert (Hs : has_tag s = false).
  { cbn [has_tag] in H. now apply orb_false_iff in H. }
  cbn [lstrip_from]. destruct skip as [ | k]; [ | now apply IH ].
  destruct (space_len (String c s)); [ exact H | now apply IH ].
Qed.

Lemma has_gt_rstrip (s : string) :
  has_gt s = false -> has_gt (rstrip s) = false.
Proof.
  induction s as [ | c s IH]; [ reflexivity | ]. cbn [has_gt rstrip].
  intros H. apply orb_false_iff in H. destruct H as [Hc Hs].
  destruct (all_space_from 0 (String c s)); [ reflexivity | ].
  cbn [has_gt]. now rewrite Hc, IH.
Qed.

Lemma tag_opens_rstrip (s : string) :
  tag_opens s = false -> tag_opens (rstrip s) = false.
Proof.
  destruct s as [ | c s]; [ reflexivity | ]. cbn [tag_opens rstrip].
  intros H. destruct (all_space_from 0 (String c s)); [ reflexivity | ].
  cbn [tag_opens]. apply andb_false_iff in H. destruct H as [-> | Hs];
    [ reflexivity | ].
  rewrite has_gt_rstrip by exact Hs. apply andb_false_r.
Qed.

Lemma has_tag_rstrip (s : string) :
  has_tag s = false -> has_tag (rstrip s) = false.
Proof.
  induction s as [ | c s IH]; [ reflexivity | ]. cbn [has_tag rstrip].
  intros H. apply orb_false_iff in H. destruct H as [Hopen Hs].
  destruct (all_space_from 0 (String c s)); [ reflexivity | ].
  cbn [has_tag]. rewrite IH by exact Hs. rewrite orb_false_r.
  apply andb_false_iff in Hopen. destruct Hopen as [-> | Hopen];
    [ reflexivity | ].
  rewrite tag_opens_rstrip by exact Hopen. apply andb_false_r.
Qed.

(** The text kept of a page holds no markup: nothing in it matches the
    tag pattern [<[^>]+>], whatever the page is; replacing the
    whitespace and stripping the ends bring no tag back. *)
Theorem content_text_has_no_tag (prerender : string) :
  has_tag (content_text prerender) = false.
Proof.
  unfold content_text. destruct (rendered_tei prerender) as [html | ];
    [ | reflexivity ].
  unfold strip, strip_tags.
  apply has_tag_rstrip, has_tag_lstrip_from, has_tag_sub_spaces,
    has_tag_strip_tags_from.
Qed.


(** *** Where the text is taken from *)

Lemma prefix_append (needle rest : string) :
  String.prefix needle (needle ++ rest) = true.
Proof.
  induction needle as [ | c n IH]; [ now destruct rest | ].
  cbn [append String.prefix]. destruct (ascii_dec c c); [ exact IH | easy ].
Qed.

Lemma drop_append (needle rest : string) :
  drop (String.length needle) (needle ++ rest) = rest.
Proof. induction needle as [ | c n IH]; [ reflexivity | exact IH ]. Qed.

Lemma prefix_straddle (c : ascii) (u b rest : string) :
  forallb (fun a => negb (Ascii.eqb a c)) (list_ascii_of_string u) = true ->
  String.prefix u b = false ->
  String.prefix u (b ++ String c rest) = false.
Proof.
  revert b. induction u as [ | a u IH]; intros b Hu Hb;
    [ destruct b; discriminate | ].
  cbn [list_ascii_of_string forallb] in Hu.
  apply andb_true_iff in Hu. destruct Hu as [Ha Hu].
  apply negb_true_iff, Ascii.eqb_neq in Ha.
  destruct b as [ | y b]; cbn [append String.prefix] in *.
  - destruct (ascii_dec a c); [ contradiction | reflexivity ].
  - destruct (ascii_dec a y); [ now apply IH | reflexivity ].
Qed.

Lemma prefix_before_occurrence (c x : ascii) (u p rest : string) :
  forallb (fun a => negb (Ascii.eqb a c)) (list_ascii_of_string u) = true ->
  String.prefix (String c u) (String x p) = false ->
  String.prefix (String c u) (String x p ++ String c u ++ rest) = false.
Proof.
  intros Hu Hp. cbn [append String.prefix] in *.
  destruct (ascii_dec c x); [ | reflexivity ].
  now apply prefix_straddle.
Qed.

Lemma after_first (c : ascii) (u pre rest : string) :
  forallb (fun a => negb (Ascii.eqb a c)) (list_ascii_of_string u) = true ->
  after (String c u) pre = None ->
  after (String c u) (pre ++ String c u ++ rest) = Some rest.
Proof.
  intros Hu. induction pre as [ | x p IH]; intros Hpre.
  - change (EmptyString ++ String c u ++ rest) with (String c u ++ rest).
    destruct rest as [ | r0 rest0] eqn:Hrest;
      (rewrite <- Hrest in *; clear Hrest).
    + pose proof (prefix_append (String c u) rest) as Hp.
      pose proof (drop_append (String c u) rest) as Hd.
      destruct (String c u ++ rest) eqn:Happ; [ discriminate | ].
      cbn [after]. now rewrite Hp, Hd.
    + pose proof (prefix_append (String c u) rest) as Hp.
      pose proof (drop_append (String c u) rest) as Hd.
      destruct (String c u ++ rest) eqn:Happ; [ discriminate | ].
      cbn [after]. now rewrite Hp, Hd.
  - cbn [after] in Hpre.
    destruct (String.prefix (String c u) (String x p)) eqn:Hhere;
      [ discriminate | ].
    pose proof (prefix_before_occurrence c x u p rest Hu Hhere) as Hno.
    change (String x p ++ String c u ++ rest)
      with (String x (p ++ String c u ++ rest)) in *.
    cbn [after]. rewrite Hno. now apply IH.
Qed.

Lemma before_first (c : ascii) (u body rest : string) :
  forallb (fun a => negb (Ascii.eqb a c)) (list_ascii_of_string u) = true ->
  before (String c u) body = None ->
  before (String c u) (body ++ String c u ++ rest) = Some body.
Proof.
  intros Hu. induction body as [ | x p IH]; intros Hbody.
  - change (EmptyString ++ String c u ++ rest) with (String c u ++ rest).
    pose proof (prefix_append (String c u) rest) as Hp.
    destruct (String c u ++ rest) eqn:Happ; [ discriminate | ].
    cbn [before]. now rewrite Hp.
  - cbn [before] in Hbody.
    destruct (String.prefix (String c u) (String x p)) eqn:Hhere;
      [ discriminate | ].
    pose proof (prefix_before_occurrence c x u p rest Hu Hhere) as Hno.
    change (String x p ++ String c u ++ rest)
      with (String x (p ++ String c u ++ rest)) in *.
    cbn [before]. rewrite Hno.
    destruct (before (String c u) p) eqn:Hp; [ discriminate | ].
    now rewrite IH.
Qed.

Lemma after_gt_none (s : string) : has_gt s = false -> after ">" s = None.
Proof.
  induction s as [ | c s IH]; [ reflexivity | ]. cbn [has_gt].
  intros H. apply orb_false_iff in H. destruct H as [Hc Hs].
  cbn [after String.prefix]. apply Ascii.eqb_neq in Hc.
  destruct (ascii_dec ">" c); [ congruence | now apply IH ].
Qed.

(** The text of a page is read between the end of the opening tag of
    the first [rendered-tei] container and the first [</div>] after it:
    what follows that [</div>] is left out, the rest of a container
    that holds [div] elements of its own included.  A page without the
    container gives the empty text. *)
Theorem content_text_of_container (pre attributes body rest : string) :
  let opening := "<div id=" ++ quote ++ "rendered-tei" ++ quote in
  after opening pre = None ->
  has_gt attributes = false ->
  before "</div>" body = None ->
  content_text (pre ++ opening ++ attributes ++ ">" ++ body ++ "</div>" ++ rest)
  = strip (sub_spaces 0 false (strip_tags body))
  /\ content_text pre = "".
Proof.
  intros opening Hpre Hattr Hbody. unfold content_text, rendered_tei.
  fold opening. rewrite Hpre. split; [ | reflexivity ].
  set (u := "div id=" ++ quote ++ "rendered-tei" ++ quote).
  change opening with (String "<" u) in *.
  rewrite (after_first "<" u pre _ eq_refl Hpre).
  rewrite (after_first ">" "" attributes _ eq_refl (after_gt_none _ Hattr)).
  now rewrite (before_first "<" "/div>" body rest eq_refl Hbody).
Qed.

Lemma content_text_of_container_witness :
  content_text
    ("<html>" ++ ("<div id=" ++ quote ++ "rendered-tei" ++ quote)
       ++ " class='tei'" ++ ">" ++ "<p>Lorem  <b>ipsum</b></p> <div>note"
       ++ "</div>" ++ " more</div></html>")
  = "Lorem ipsum note".
Proof.
  exact (proj1 (content_text_of_container "<html>" " class='tei'"
                  "<p>Lorem  <b>ipsum</b></p> <div>note" " more</div></html>"
                  eq_refl eq_refl eq_refl)).
Defined.

(** ** [process_cache] *)

Lemma lift_get_cache (self : DiskPrerenderedCacheClass) (c : Collection)
    (ref : string) (end_ : option string) (media tree : string) (w : world) :
  let path := get_cache_path self (identifier c) ref end_ media tree in
  lift (get_cache self c ref end_ media tree) w
  = (match read_content (verbose self) (files w path) with
     | Ok v => Done v
     | Raise e => Failed (Other e)
     end, extend w [CacheRead path]).
Proof.
  intros path. unfold lift. rewrite get_cache_eq. fold path.
  now destruct (read_content _ _).
Qed.

Lemma done_eq {A} (a b : A) (w w' : world) :
  a = b -> w = w' -> (Done a, w) = (Done b, w').
Proof. now intros -> ->. Qed.

Section Cached_pages.

Variables (E : Env) (c : Collection) (html : string * string -> string).

Lemma process_refs_stored (tree : string) (refs : list RefDescriptor)
    (returned_values : list json) (w : world) :
  (forall r, In r refs ->
     stored (files w) (artifact_path E c tree (ref_identifier r) "html")
            (html (tree, ref_identifier r))) ->
  process_refs E (Some c) tree refs returned_values w
  = (Done (returned_values
             ++ map (fun tr => page c {| ref_identifier := snd tr |}
                                    (content_text (html tr)))
                    (map (fun r => (tree, ref_identifier r)) refs))%list,
     extend w (map (fun tr => CacheRead (artifact_path E c (fst tr) (snd tr)
                                                       "html"))
                   (map (fun r => (tree, ref_identifier r)) refs))).
Proof.
  revert returned_values w.
  induction refs as [ | r refs IH]; intros acc w Hstored.
  - cbn [process_refs map]. unfold done. now rewrite app_nil_r, extend_nil.
  - cbn [process_refs map]. unfold and_then at 1. cbn [lift attr ret].
    unfold and_then at 1. rewrite lift_get_cache.
    pose proof (Hstored r (or_introl eq_refl)) as Hr.
    unfold artifact_path in Hr.
    rewrite (read_stored _ _ _ _ Hr).
    unfold and_then at 1. cbn [search_text done].
    rewrite IH.
    + rewrite extend_extend. apply done_eq; [ | reflexivity ].
      now rewrite <- app_assoc.
    + intros r' Hr'.
      rewrite (reads_log_only w [CacheRead _]) by (repeat constructor).
      apply Hstored. now right.
Qed.

Lemma process_trees_stored (trees : list (string * list RefDescriptor))
    (returned_values : list json) (w : world) :
  let trs := flat_map (fun item => map (fun r => (fst item, ref_identifier r))
                                       (snd item)) trees in
  (forall tr, In tr trs ->
     stored (files w) (artifact_path E c (fst tr) (snd tr) "html") (html tr)) ->
  process_trees E (Some c) trees returned_values w
  = (Done (returned_values
             ++ map (fun tr => page c {| ref_identifier := snd tr |}
                                    (content_text (html tr))) trs)%list,
     extend w (map (fun tr => CacheRead (artifact_path E c (fst tr) (snd tr)
                                                       "html")) trs)).
Proof.
  cbv zeta. revert returned_values w.
  induction trees as [ | [tree refs] trees IH]; intros acc w Hstored.
  - cbn [process_trees flat_map map]. unfold done.
    now rewrite app_nil_r, extend_nil.
  - cbn [process_trees flat_map fst snd] in *.
    unfold and_then. rewrite process_refs_stored.
    + rewrite IH.
      * rewrite extend_extend, !map_app. apply done_eq; [ | reflexivity ].
        now rewrite <- app_assoc.
      * intros tr Htr. rewrite reads_log_only.
        -- apply Hstored, in_or_app. now right.
        -- apply Forall_forall. intros e He. apply in_map_iff in He.
           now destruct He as (tr' & <- & _).
    + intros r Hr. apply (Hstored (tree, ref_identifier r)), in_or_app. left.
      apply in_map_iff. now exists r.
Qed.

End Cached_pages.

(** When the [html] artifact of every reference of a navigation is in
    the cache, [process_cache] returns one page per reference, in the
    order of the trees and of their references, with the identifier of
    the collection, the reference and the text of the cached artifact;
    it reads each artifact once and writes nothing. *)
Theorem process_cache_pages (E : Env) (navigation_id : Z) (nav : Navigation)
    (c : Collection) (html : string * string -> string) (w : world) :
  find (fun n => (nav_id n =? navigation_id)%Z) (navigations (db E)) = Some nav ->
  find (fun c => (coll_id c =? collection_id nav)%Z) (collections (db E))
  = Some c ->
  (forall tr, In tr (tree_refs nav) ->
     stored (files w) (artifact_path E c (fst tr) (snd tr) "html") (html tr)) ->
  process_cache E navigation_id w
  = (Done (map (fun tr => page c {| ref_identifier := snd tr |}
                               (content_text (html tr)))
               (tree_refs nav)),
     extend w (map (fun tr => CacheRead (artifact_path E c (fst tr) (snd tr)
                                                       "html"))
                   (tree_refs nav))).
Proof.
  intros Hnav Hc Hstored. unfold process_cache.
  unfold and_then at 1. unfold lift, attr. rewrite Hnav. unfold ret.
  rewrite Hc. now rewrite (process_trees_stored E c html).
Qed.

Lemma process_cache_pages_witness :
  fst (process_cache (site wrapping healthy) 1 brimming)
  = Done [JObj [("collection", JStr "ms001"); ("ref", JStr "p1");
                ("content", JStr "")];
          JObj [("collection", JStr "ms001"); ("ref", JStr "p2");
                ("content", JStr "")]].
Proof.
  assert (Hstored : forall tr, In tr (tree_refs nav001) ->
            stored (files brimming)
                   (artifact_path (site wrapping healthy) ms001 (fst tr)
                                  (snd tr) "html")
                   (if snd tr =? "p1" then "<div>1</div>" else "<div>2</div>")).
  { intros tr [<- | [<- | []]]; apply stored_envelope; vm_compute;
      reflexivity. }
  exact (f_equal fst
           (process_cache_pages (site wrapping healthy) 1 nav001 ms001
              (fun tr => if snd tr =? "p1" then "<div>1</div>"
                         else "<div>2</div>")
              brimming eq_refl eq_refl Hstored)).
Defined.

(** *** A page that is not cached *)

Section Page_lookups.

Variables (E : Env) (c : Collection).

Let is_text (fs : string -> option file) (tr : string * string) : Prop :=
  exists s,
    read_content (verbose (cache E))
                 (fs (artifact_path E c (fst tr) (snd tr) "html"))
    = Ok (JStr s).

Lemma search_text_cases (v : json) (w : world) :
  (exists s, v = JStr s /\ search_text v w = (Done (content_text s), w))
  \/ ((forall s, v <> JStr s) /\ search_text v w = (Failed TypeError, w)).
Proof.
  destruct v; try (right; split; [ discriminate | reflexivity ]).
  left. eexists. split; reflexivity.
Qed.

Lemma process_refs_reads (tree : string) (refs : list RefDescriptor)
    (returned_values : list json) (w : world) :
  readable (verbose (cache E)) (files w) ->
  exists (res : result (list json)) (es : list event),
    process_refs E (Some c) tree refs returned_values w = (res, extend w es)
    /\ Forall (fun e => is_cache_read e = true) es
    /\ (res = Failed TypeError
        \/ (exists l, res = Done l)
           /\ forall r, In r refs -> is_text (files w) (tree, ref_identifier r)).
Proof.
  revert returned_values w.
  induction refs as [ | r refs IH]; intros acc w Hread.
  - exists (Done acc), []. rewrite extend_nil.
    split; [ reflexivity | ]. split; [ constructor | ].
    right. split; [ now exists acc | intros r [] ].
  - cbn [process_refs]. unfold and_then at 1. cbn [lift attr ret].
    unfold and_then at 1. rewrite lift_get_cache.
    destruct (Hread (get_cache_path (cache E) (identifier c) (ref_identifier r)
                       None "html" tree)) as [v Hv].
    rewrite Hv. unfold and_then at 1.
    destruct (search_text_cases v (extend w [CacheRead
                (get_cache_path (cache E) (identifier c) (ref_identifier r)
                                None "html" tree)]))
      as [(s & -> & ->) | (Hv' & ->)].
    + destruct (IH (acc ++ [page c r (content_text s)])%list
                   (extend w [CacheRead
                      (get_cache_path (cache E) (identifier c)
                                      (ref_identifier r) None "html" tree)]))
        as (res & es & Hrun & Hes & Hres); [ now apply readable_extend | ].
      rewrite Hrun, extend_extend. do 2 eexists.
      split; [ reflexivity | ]. split; [ now repeat constructor | ].
      destruct Hres as [-> | [Hdone Htext]]; [ now left | right ].
      split; [ exact Hdone | ]. intros r' [<- | Hr'].
      * now exists s.
      * specialize (Htext r' Hr'). unfold is_text in *.
        now rewrite (reads_log_only w [CacheRead _]) in Htext
          by (repeat constructor).
    + do 2 eexists. split; [ reflexivity | ].
      split; [ now repeat constructor | now left ].
Qed.

Lemma process_trees_reads (trees : list (string * list RefDescriptor))
    (returned_values : list json) (w : world) :
  readable (verbose (cache E)) (files w) ->
  exists (res : result (list json)) (es : list event),
    process_trees E (Some c) trees returned_values w = (res, extend w es)
    /\ Forall (fun e => is_cache_read e = true) es
    /\ (res = Failed TypeError
        \/ (exists l, res = Done l)
           /\ forall tr,
                In tr (flat_map (fun item =>
                                   map (fun r => (fst item, ref_identifier r))
                                       (snd item)) trees) ->
                is_text (files w) tr).
Proof.
  revert returned_values w.
  induction trees as [ | [tree refs] trees IH]; intros acc w Hread.
  - exists (Done acc), []. rewrite extend_nil.
    split; [ reflexivity | ]. split; [ constructor | ].
    right. split; [ now exists acc | intros tr [] ].
  - cbn [process_trees flat_map fst snd]. unfold and_then.
    destruct (process_refs_reads tree refs acc w Hread)
      as (res & es & -> & Hes & Hres).
    destruct Hres as [-> | [[l ->] Htext]].
    + do 2 eexists. split; [ reflexivity | ]. split; [ exact Hes | now left ].
    + destruct (IH l (extend w es)) as (res' & es' & -> & Hes' & Hres');
        [ now apply readable_extend | ].
      rewrite extend_extend. do 2 eexists. split; [ reflexivity | ].
      split; [ now apply Forall_app | ].
      destruct Hres' as [-> | [Hdone Htext']]; [ now left | right ].
      split; [ exact Hdone | ]. intros tr Htr.
      apply in_app_or in Htr. destruct Htr as [Htr | Htr].
      * apply in_map_iff in Htr. destruct Htr as (r & <- & Hr).
        now apply Htext.
      * specialize (Htext' tr Htr). unfold is_text in *.
        now rewrite (reads_log_only w es Hes) in Htext'.
Qed.

End Page_lookups.

(** [process_cache] needs the [html] artifact of every reference: when
    the lookup of one of them does not give a string (the artifact is
    not cached, for one) and no cache file makes [get_cache] raise, the
    call raises [TypeError], the pages read so far are lost and the
    cache is as it was. *)
Theorem process_cache_needs_every_artifact (E : Env) (navigation_id : Z)
    (nav : Navigation) (c : Collection) (tr : string * string) (v : json)
    (w : world) :
  find (fun n => (nav_id n =? navigation_id)%Z) (navigations (db E)) = Some nav ->
  find (fun c => (coll_id c =? collection_id nav)%Z) (collections (db E))
  = Some c ->
  readable (verbose (cache E)) (files w) ->
  In tr (tree_refs nav) ->
  read_content (verbose (cache E))
               (files w (artifact_path E c (fst tr) (snd tr) "html")) = Ok v ->
  (forall s, v <> JStr s) ->
  fst (process_cache E navigation_id w) = Failed TypeError
  /\ files (snd (process_cache E navigation_id w)) = files w.
Proof.
  intros Hnav Hc Hread Htr Hv Hnot.
  destruct (process_trees_reads E c (references nav) [] w Hread)
    as (res & es & Hrun & Hes & Hres).
  assert (H : process_cache E navigation_id w = (res, extend w es)).
  { unfold process_cache. unfold and_then at 1. unfold lift, attr.
    rewrite Hnav. unfold ret. now rewrite Hc. }
  rewrite H. cbn [fst snd]. split; [ | now apply reads_log_only ].
  destruct Hres as [-> | [_ Htext]]; [ reflexivity | ].
  destruct (Htext tr Htr) as [s Hs]. rewrite Hv in Hs.
  injection Hs as ->. now destruct (Hnot s).
Qed.

Lemma process_cache_needs_every_artifact_witness :
  fst (process_cache (site wrapping healthy) 1
                     (one_file p1_html (envelope "<div>1</div>")))
  = Failed TypeError.
Proof.
  assert (Hread : readable false
                    (files (one_file p1_html (envelope "<div>1</div>")))).
  { intros q. unfold one_file, update. cbn [files].
    destruct (q =? p1_html); [ eexists; apply read_envelope | ].
    now exists JNull. }
  assert (Hnot : forall s, JNull <> JStr s) by discriminate.
  exact (proj1 (process_cache_needs_every_artifact (site wrapping healthy) 1
                  nav001 ms001 ("default", "p2") JNull
                  (one_file p1_html (envelope "<div>1</div>"))
                  eq_refl eq_refl Hread (or_intror (or_introl eq_refl))
                  eq_refl Hnot)).
Defined.

(** ** [generate_json] *)

Lemma process_cache_reads (E : Env) (navigation_id : Z) (nav : Navigation)
    (c : Collection) (w : world) :
  find (fun n => (nav_id n =? navigation_id)%Z) (navigations (db E)) = Some nav ->
  find (fun c => (coll_id c =? collection_id nav)%Z) (collections (db E))
  = Some c ->
  readable (verbose (cache E)) (files w) ->
  exists (res : result (list json)) (es : list event),
    process_cache E navigation_id w = (res, extend w es)
    /\ Forall (fun e => is_cache_read e = true) es
    /\ (res = Failed TypeError
        \/ (exists l, res = Done l)
           /\ forall tr, In tr (tree_refs nav) ->
                exists s,
                  read_content (verbose (cache E))
                    (files w (artifact_path E c (fst tr) (snd tr) "html"))
                  = Ok (JStr s)).
Proof.
  intros Hnav Hc Hread.
  destruct (process_trees_reads E c (references nav) [] w Hread)
    as (res & es & Hrun & Hes & Hres).
  exists res, es. split; [ | now split ].
  unfold process_cache. unfold and_then at 1. unfold lift, attr.
  rewrite Hnav. unfold ret. now rewrite Hc.
Qed.

Lemma gather_reads (E : Env) (ids : list Z) (data : list json) (w : world) :
  (forall id, In id ids ->
     exists nav c,
       find (fun n => (nav_id n =? id)%Z) (navigations (db E)) = Some nav
       /\ find (fun c => (coll_id c =? collection_id nav)%Z)
               (collections (db E)) = Some c) ->
  readable (verbose (cache E)) (files w) ->
  exists (res : result (list json)) (es : list event),
    gather E ids data w = (res, extend w es)
    /\ Forall (fun e => is_cache_read e = true) es
    /\ (res = Failed TypeError
        \/ (exists l, res = Done l)
           /\ forall id nav c tr,
                In id ids ->
                find (fun n => (nav_id n =? id)%Z) (navigations (db E))
                = Some nav ->
                find (fun c => (coll_id c =? collection_id nav)%Z)
                     (collections (db E)) = Some c ->
                In tr (tree_refs nav) ->
                exists s,
                  read_content (verbose (cache E))
                    (files w (artifact_path E c (fst tr) (snd tr) "html"))
                  = Ok (JStr s)).
Proof.
  revert data w. induction ids as [ | id ids IH]; intros data w Hrows Hread.
  - exists (Done data), []. rewrite extend_nil.
    split; [ reflexivity | ]. split; [ constructor | ].
    right. split; [ now exists data | intros ? ? ? ? [] ].
  - cbn [gather]. unfold and_then.
    destruct (Hrows id (or_introl eq_refl)) as (nav & c & Hnav & Hc).
    destruct (process_cache_reads E id nav c w Hnav Hc Hread)
      as (res & es & -> & Hes & Hres).
    destruct Hres as [-> | [[l ->] Htext]].
    + do 2 eexists. split; [ reflexivity | ]. split; [ exact Hes | now left ].
    + destruct (IH match l with
                   | [] => data
                   | _ :: _ => (data ++ [JArr l])%list
                   end (extend w es))
        as (res' & es' & -> & Hes' & Hres');
        [ intros id' Hid'; apply Hrows; now right
        | now apply readable_extend | ].
      rewrite extend_extend. do 2 eexists. split; [ reflexivity | ].
      split; [ now apply Forall_app | ].
      destruct Hres' as [-> | [Hdone Htext']]; [ now left | right ].
      split; [ exact Hdone | ].
      intros id' nav' c' tr [<- | Hid'] Hnav' Hc' Htr.
      * rewrite Hnav in Hnav'. injection Hnav' as <-.
        rewrite Hc in Hc'. injection Hc' as <-. now apply Htext.
      * specialize (Htext' id' nav' c' tr Hid' Hnav' Hc' Htr).
        now rewrite (reads_log_only w es Hes) in Htext'.
Qed.

Lemma find_first {A} (p : A -> bool) (l : list A) (a : A) :
  In a l -> p a = true -> exists b, find p l = Some b.
Proof.
  induction l as [ | x l IH]; [ intros [] | ].
  intros [<- | Hin] Hp; cbn [find].
  - rewrite Hp. now exists x.
  - destruct (p x); [ now exists x | now apply IH ].
Qed.

(** The export is all or nothing: when every navigation has its
    collection, no cache file makes [get_cache] raise, and the lookup
    of the [html] artifact of one reference of one navigation does not
    give a string, [generate_json] raises [TypeError] before it opens
    the output file; no file is created, cut or written. *)
Theorem generate_json_all_or_nothing (E : Env) (out : string) (workers : Z)
    (navigation_id : Z) (nav : Navigation) (c : Collection)
    (tr : string * string) (v : json) (w : world) :
  (1 <= workers)%Z ->
  (forall n, In n (navigations (db E)) ->
     find (fun c => (coll_id c =? collection_id n)%Z) (collections (db E))
     <> None) ->
  readable (verbose (cache E)) (files w) ->
  find (fun n => (nav_id n =? navigation_id)%Z) (navigations (db E)) = Some nav ->
  find (fun c => (coll_id c =? collection_id nav)%Z) (collections (db E))
  = Some c ->
  In tr (tree_refs nav) ->
  read_content (verbose (cache E))
               (files w (artifact_path E c (fst tr) (snd tr) "html")) = Ok v ->
  (forall s, v <> JStr s) ->
  fst (generate_json E out workers w) = Failed TypeError
  /\ files (snd (generate_json E out workers w)) = files w.
Proof.
  intros Hworkers Hrows Hread Hnav Hc Htr Hv Hnot.
  pose proof (imap_unordered_permutation E (map nav_id (navigations (db E))))
    as Hperm.
  assert (Hids : forall id,
            In id (imap_unordered E (map nav_id (navigations (db E)))) ->
            exists nav c,
              find (fun n => (nav_id n =? id)%Z) (navigations (db E)) = Some nav
              /\ find (fun c => (coll_id c =? collection_id nav)%Z)
                      (collections (db E)) = Some c).
  { intros id Hid. apply (Permutation_in _ Hperm) in Hid.
    apply in_map_iff in Hid. destruct Hid as (n & <- & Hn).
    destruct (find_first (fun n' => (nav_id n' =? nav_id n)%Z) _ n Hn
                         (Z.eqb_refl _)) as [n' Hn'].
    exists n'. pose proof (Hrows n' (proj1 (find_some _ _ Hn'))) as Hc'.
    destruct (find (fun c => (coll_id c =? collection_id n')%Z)
                   (collections (db E))) as [c' | ];
      [ now exists c' | now destruct Hc' ]. }
  destruct (gather_reads E (imap_unordered E (map nav_id (navigations (db E))))
              [] w Hids Hread)
    as (res & es & Hrun & Hes & Hres).
  assert (Hfail : res = Failed TypeError).
  { destruct Hres as [-> | [_ Htext]]; [ reflexivity | ].
    assert (Hid : In navigation_id
                     (imap_unordered E (map nav_id (navigations (db E))))).
    { apply (Permutation_in _ (Permutation_sym Hperm)).
      destruct (find_some _ _ Hnav) as [Hin Heq]. apply Z.eqb_eq in Heq.
      apply in_map_iff. now exists nav. }
    destruct (Htext navigation_id nav c tr Hid Hnav Hc Htr) as [s Hs].
    rewrite Hv in Hs. injection Hs as ->. now destruct (Hnot s). }
  subst res.
  assert (H : generate_json E out workers w = (Failed TypeError, extend w es)).
  { unfold generate_json.
    destruct (workers <? 1)%Z eqn:Hlt; [ apply Z.ltb_lt in Hlt; lia | ].
    unfold and_then. now rewrite Hrun. }
  rewrite H. cbn [fst snd]. split; [ reflexivity | now apply reads_log_only ].
Qed.

Lemma generate_json_all_or_nothing_witness :
  let w := one_file p1_html (envelope "<div>1</div>") in
  fst (generate_json (site wrapping healthy) "refs.json" 2 w) = Failed TypeError
  /\ files (snd (generate_json (site wrapping healthy) "refs.json" 2 w))
     = files w.
Proof.
  assert (Hread : readable false
                    (files (one_file p1_html (envelope "<div>1</div>")))).
  { intros q. unfold one_file, update. cbn [files].
    destruct (q =? p1_html); [ eexists; apply read_envelope | ].
    now exists JNull. }
  assert (Hnot : forall s, JNull <> JStr s) by discriminate.
  assert (Hrows : forall n, In n (navigations (db (site wrapping healthy))) ->
            find (fun c => (coll_id c =? collection_id n)%Z)
                 (collections (db (site wrapping healthy))) <> None).
  { intros n [<- | []]. discriminate. }
  assert (Hworkers : (1 <= 2)%Z) by lia.
  exact (generate_json_all_or_nothing (site wrapping healthy) "refs.json" 2 1
           nav001 ms001 ("default", "p2") JNull
           (one_file p1_html (envelope "<div>1</div>"))
           Hworkers Hrows Hread eq_refl eq_refl
           (or_intror (or_introl eq_refl)) eq_refl Hnot).
Defined.

Lemma find_by_id (navs : list Navigation) (n : Navigation) :
  NoDup (map nav_id navs) -> In n navs ->
  find (fun n' => (nav_id n' =? nav_id n)%Z) navs = Some n.
Proof.
  induction navs as [ | x navs IH]; [ intros _ [] | ].
  cbn [map find]. intros Hnd Hin. apply NoDup_cons_iff in Hnd.
  destruct Hnd as [Hx Hnd]. destruct Hin as [-> | Hin].
  - now rewrite Z.eqb_refl.
  - destruct (nav_id x =? nav_id n)%Z eqn:Heq; [ | now apply IH ].
    apply Z.eqb_eq in Heq. destruct Hx. rewrite Heq.
    apply in_map_iff. now exists n.
Qed.

Lemma gather_stored (E : Env) (coll : Navigation -> Collection)
    (html : Navigation -> string * string -> string)
    (ids : list Z) (data : list json) (w : world) :
  (forall id, In id ids ->
     exists n, find (fun n => (nav_id n =? id)%Z) (navigations (db E)) = Some n) ->
  (forall n, In n (navigations (db E)) ->
     find (fun c => (coll_id c =? collection_id n)%Z) (collections (db E))
     = Some (coll n)) ->
  (forall n tr, In n (navigations (db E)) -> In tr (tree_refs n) ->
     stored (files w) (artifact_path E (coll n) (fst tr) (snd tr) "html")
            (html n tr)) ->
  exists es,
    gather E ids data w
    = (Done (data
               ++ flat_map
                    (fun id =>
                       match find (fun n => (nav_id n =? id)%Z)
                                  (navigations (db E)) with
                       | None => []
                       | Some n =>
                           match tree_refs n with
                           | [] => []
                           | _ :: _ =>
                               [JArr (map (fun tr =>
                                             page (coll n)
                                                  {| ref_identifier := snd tr |}
                                                  (content_text (html n tr)))
                                          (tree_refs n))]
                           end
                       end) ids)%list,
       extend w es)
    /\ Forall (fun e => is_cache_read e = true) es.
Proof.
  revert data w. induction ids as [ | id ids IH];
    intros data w Hfind Hcoll Hstored.
  - exists []. cbn [gather flat_map]. unfold done.
    rewrite app_nil_r, extend_nil. split; [ reflexivity | constructor ].
  - cbn [gather flat_map]. unfold and_then.
    destruct (Hfind id (or_introl eq_refl)) as [n Hn].
    pose proof (proj1 (find_some _ _ Hn)) as Hin.
    rewrite (process_cache_pages E id n (coll n) (html n) w Hn (Hcoll n Hin)
               (fun tr Htr => Hstored n tr Hin Htr)).
    rewrite Hn.
    set (reads := map (fun tr => CacheRead (artifact_path E (coll n) (fst tr)
                                                          (snd tr) "html"))
                      (tree_refs n)).
    assert (Hreads : Forall (fun e => is_cache_read e = true) reads).
    { apply Forall_forall. intros e He. apply in_map_iff in He.
      now destruct He as (tr & <- & _). }
    destruct (IH match map (fun tr => page (coll n)
                                           {| ref_identifier := snd tr |}
                                           (content_text (html n tr)))
                           (tree_refs n) with
                 | [] => data
                 | _ :: _ =>
                     (data ++ [JArr (map (fun tr =>
                                            page (coll n)
                                                 {| ref_identifier := snd tr |}
                                                 (content_text (html n tr)))
                                         (tree_refs n))])%list
                 end (extend w reads))
      as (es & Hrun & Hes).
    + intros id' Hid'. apply Hfind. now right.
    + exact Hcoll.
    + intros n' tr Hn' Htr. rewrite (reads_log_only w reads Hreads).
      now apply Hstored.
    + exists (reads ++ es)%list. split; [ | now apply Forall_app ].
      rewrite Hrun, extend_extend. apply done_eq; [ | reflexivity ].
      destruct (tree_refs n); cbn [map app]; [ reflexivity | ].
      now rewrite <- app_assoc.
Qed.

Lemma flat_map_by_id {A} (entry : Navigation -> list A)
    (all navs : list Navigation) :
  NoDup (map nav_id all) ->
  (forall n, In n navs -> In n all) ->
  flat_map (fun id => match find (fun n => (nav_id n =? id)%Z) all with
                      | None => []
                      | Some n => entry n
                      end) (map nav_id navs)
  = flat_map entry navs.
Proof.
  intros Hnd. induction navs as [ | n navs IH]; intros Hin; [ reflexivity | ].
  cbn [map flat_map]. rewrite (find_by_id all n Hnd (Hin n (or_introl eq_refl))).
  rewrite IH; [ reflexivity | ]. intros n' Hn'. apply Hin. now right.
Qed.

(** When the [html] artifact of every reference is cached and the
    output file can be written, [generate_json] leaves in it a list
    with one entry per navigation that has a reference, each entry
    being the list of the pages of the navigation; a navigation without
    reference leaves no entry.  The entries stand in the order in which
    the pool hands the navigations back, which need not be the order of
    the database: the list is a permutation of the entries in database
    order. *)
Theorem generate_json_writes_pages (E : Env) (out : string) (workers : Z)
    (coll : Navigation -> Collection)
    (html : Navigation -> string * string -> string) (w : world) :
  let entry := fun n : Navigation =>
    match tree_refs n with
    | [] => []
    | _ :: _ =>
        [JArr (map (fun tr => page (coll n) {| ref_identifier := snd tr |}
                                   (content_text (html n tr)))
                   (tree_refs n))]
    end in
  let written :=
    flat_map (fun id => match find (fun n => (nav_id n =? id)%Z)
                                   (navigations (db E)) with
                        | None => []
                        | Some n => entry n
                        end)
             (imap_unordered E (map nav_id (navigations (db E)))) in
  (1 <= workers)%Z ->
  NoDup (map nav_id (navigations (db E))) ->
  (forall n, In n (navigations (db E)) ->
     find (fun c => (coll_id c =? collection_id n)%Z) (collections (db E))
     = Some (coll n)) ->
  (forall n tr, In n (navigations (db E)) -> In tr (tree_refs n) ->
     stored (files w) (artifact_path E (coll n) (fst tr) (snd tr) "html")
            (html n tr)) ->
  open_fails (disk E) out = false ->
  write_fails (disk E) out = false ->
  fst (generate_json E out workers w) = Done tt
  /\ files (snd (generate_json E out workers w)) out
     = Some (Json (JArr written))
  /\ Permutation written (flat_map entry (navigations (db E))).
Proof.
  intros entry written Hworkers Hnd Hcoll Hstored Hopen Hwrite.
  pose proof (imap_unordered_permutation E (map nav_id (navigations (db E))))
    as Hperm.
  assert (Hids : forall id,
            In id (imap_unordered E (map nav_id (navigations (db E)))) ->
            exists n,
              find (fun n => (nav_id n =? id)%Z) (navigations (db E)) = Some n).
  { intros id Hid. apply (Permutation_in _ Hperm) in Hid.
    apply in_map_iff in Hid. destruct Hid as (n & <- & Hn).
    exists n. now apply find_by_id. }
  destruct (gather_stored E coll html _ [] w Hids Hcoll Hstored)
    as (es & Hrun & _).
  assert (H : generate_json E out workers w
              = lift (open_w (disk E) out ;; dump_data (disk E) out written)
                     (extend w es)).
  { unfold generate_json.
    destruct (workers <? 1)%Z eqn:Hlt; [ apply Z.ltb_lt in Hlt; lia | ].
    unfold and_then. now rewrite Hrun. }
  rewrite H. unfold lift, bind, open_w, dump_data. rewrite Hopen, Hwrite.
  unfold bind, put_file, emit. cbn [fst snd files].
  split; [ reflexivity | ]. split.
  - unfold update. now rewrite String.eqb_refl.
  - unfold written.
    rewrite <- (flat_map_by_id entry (navigations (db E)) (navigations (db E))
                  Hnd (fun n Hn => Hn)).
    now apply Permutation_flat_map.
Qed.

(** Two navigations of one document, handed back by the pool in the
    reverse order. *)
Lemma generate_json_writes_pages_witness :
  let nav002 :=
    {| nav_id := 2; collection_id := 1;
       references := [("default", [{| ref_identifier := "p2" |}])];
       paths := [("default", ["p2"])] |} in
  let E :=
    {| cache := DiskPrerenderedCache; use_disk_cache := true;
       db := {| collections := [ms001]; navigations := [nav001; nav002] |};
       disk := healthy; get_passage := tei; read_text := fun _ => "<TEI/>";
       media_transformer := wrapping; fromstring := starts_with_tag;
       imap_unordered := @rev Z;
       fromstring_get_passage := fun _ _ _ _ => eq_refl;
       imap_unordered_permutation :=
         fun items => Permutation_sym (Permutation_rev items) |} in
  files (snd (generate_json E "refs.json" 2 brimming)) "refs.json"
  = Some (Json (JArr [JArr [JObj [("collection", JStr "ms001");
                                  ("ref", JStr "p2"); ("content", JStr "")]];
                      JArr [JObj [("collection", JStr "ms001");
                                  ("ref", JStr "p1"); ("content", JStr "")];
                            JObj [("collection", JStr "ms001");
                                  ("ref", JStr "p2"); ("content", JStr "")]]])).
Proof.
  intros nav002 E.
  assert (Hworkers : (1 <= 2)%Z) by lia.
  assert (Hnd : NoDup (map nav_id (navigations (db E)))).
  { repeat constructor; cbn [In]; intuition discriminate. }
  assert (Hcoll : forall n, In n (navigations (db E)) ->
            find (fun c => (coll_id c =? collection_id n)%Z)
                 (collections (db E)) = Some ms001).
  { intros n [<- | [<- | []]]; reflexivity. }
  assert (Hstored : forall n tr,
            In n (navigations (db E)) -> In tr (tree_refs n) ->
            stored (files brimming)
                   (artifact_path E ms001 (fst tr) (snd tr) "html")
                   (if snd tr =? "p1" then "<div>1</div>" else "<div>2</div>")).
  { intros n tr [<- | [<- | []]].
    - intros [<- | [<- | []]]; apply stored_envelope; vm_compute; reflexivity.
    - intros [<- | []]; apply stored_envelope; vm_compute; reflexivity. }
  exact (proj1 (proj2 (generate_json_writes_pages E "refs.json" 2
                         (fun _ => ms001)
                         (fun _ tr => if snd tr =? "p1" then "<div>1</div>"
                                      else "<div>2</div>")
                         brimming Hworkers Hnd Hcoll Hstored eq_refl eq_refl))).
Defined.
